(** * ModularGuard-action: the result pipeline of the GitHub Action

    A shallow embedding of [src/run.ts] and [src/github.ts]: the path
    rewriting, the markdown comment, the check-run payload, the validation of
    the analysis binary's output and the orchestration of one run.

    Strings are JavaScript strings: sequences of UTF-16 code units, so that
    [length], [substring] and [replace] count what the code counts.  Numbers
    of the result schema are integers.  Calls that leave the process (REST
    API, subprocess, tool cache) are answered by a [World]; what the action
    logs, calls and outputs is recorded as a trace of [Event]s. *)

From Stdlib Require Import String Ascii DecimalString.
From Stdlib Require Import List ZArith NArith Bool Lia.
Import ListNotations.

Local Open Scope list_scope.

(** ** JavaScript strings *)

Definition char16 := N.
Definition jsstring := list char16.

(** An ASCII literal as a JavaScript string. *)
Definition str (s : string) : jsstring :=
  map N_of_ascii (list_ascii_of_string s).
Arguments str s%_string : simpl never.

Fixpoint jsstring_eqb (s t : jsstring) : bool :=
  match s, t with
  | [], [] => true
  | a :: s', b :: t' => N.eqb a b && jsstring_eqb s' t'
  | _, _ => false
  end.

(** Truthiness of a string: only the empty string is falsy. *)
Definition nonempty (s : jsstring) : bool :=
  match s with [] => false | _ :: _ => true end.

(** Truthiness of an optional string ([undefined] is falsy). *)
Definition truthy_opt (o : option jsstring) : bool :=
  match o with Some s => nonempty s | None => false end.

Definition LF : char16 := 10%N.
Definition SPACE : char16 := 32%N.
Definition SLASH : char16 := 47%N.
Definition BACKSLASH : char16 := 92%N.
Definition PIPE : char16 := 124%N.
Definition DQUOTE : char16 := 34%N.
Definition BACKTICK : char16 := 96%N.

(** [s.replace(/c/g, d)] for a single code unit [c]. *)
Definition replaceAll (c d : char16) (s : jsstring) : jsstring :=
  map (fun x => if N.eqb x c then d else x) s.

(** [s.substring(0, n)]. *)
Definition substring0 (n : nat) (s : jsstring) : jsstring := firstn n s.

Fixpoint startsWith (p s : jsstring) : bool :=
  match p, s with
  | [], _ => true
  | a :: p', b :: s' => N.eqb a b && startsWith p' s'
  | _ :: _, [] => false
  end.

(** [s.includes(t)]. *)
Fixpoint includes (s t : jsstring) : bool :=
  startsWith t s ||
  match s with
  | [] => false
  | _ :: s' => includes s' t
  end.

(** [c.repeat(n)] for a string [c]. *)
Fixpoint repeat_str (c : jsstring) (n : nat) : jsstring :=
  match n with
  | O => []
  | S n' => c ++ repeat_str c n'
  end.

(** Number of occurrences of a code unit. *)
Definition count_char (c : char16) (s : jsstring) : nat :=
  length (filter (N.eqb c) s).

(** [String(n)] for an integer [n] (decimal digits, a leading minus sign for
    negatives), as produced by template literals.  JavaScript prints so
    the integers below [10^21] in absolute value, which the counts, line
    numbers and ids of a run are. *)
Definition String_of (n : Z) : jsstring :=
  str (NilZero.string_of_int (Z.to_int n)).
Arguments String_of n : simpl never.

(** [s.toLowerCase()] on the ASCII letters.  Code units outside [A-Z] are
    kept: the full Unicode case mapping is not modelled; it sends no string
    with a code unit outside ASCII to [error] or [warning], the two strings
    the result is compared with. *)
Definition toLowerCase (s : jsstring) : jsstring :=
  map (fun c => if (65 <=? c)%N && (c <=? 90)%N then (c + 32)%N else c) s.

(** The symbols of the rendered texts, as UTF-16 code units; they are the
    ones [src/run.ts] and [tests/run.test.ts] spell out.  The copy of
    [github.ts] kept in [src/src/index.ts] holds the same symbols with
    their UTF-8 bytes read in another encoding; the tests of
    [formatComment] expect the symbols below. *)
Definition CROSS_MARK : jsstring := [10060%N].               (* U+274C *)
Definition WARNING_SIGN : jsstring := [9888%N; 65039%N].     (* U+26A0 U+FE0F *)
Definition CHECK_MARK : jsstring := [9989%N].                (* U+2705 *)
Definition RED_CIRCLE : jsstring := [55357%N; 56628%N].      (* U+1F534 *)
Definition LIGHT_BULB : jsstring := [55357%N; 56481%N].      (* U+1F4A1 *)
Definition RIGHT_ARROW : jsstring := [8594%N].               (* U+2192 *)
Definition PARTY_POPPER : jsstring := [55356%N; 57225%N].    (* U+1F389 *)
Definition BAR_CHART : jsstring := [55357%N; 56522%N].       (* U+1F4CA *)
Definition OPEN_BOOK : jsstring := [55357%N; 56534%N].       (* U+1F4D6 *)
Definition DOUBLE_HORIZONTAL : jsstring := [9552%N].         (* U+2550 *)

Definition nl : jsstring := [LF].

(** ** The result schema ([src/run.ts], [src/github.ts]) *)

Record ModularGuardSummary := {
  totalModules : Z;
  totalProjects : Z;
  errorCount : Z;
  warningCount : Z;
  isValid : bool
}.

Record ModularGuardProject := {
  name : jsstring;
  type : jsstring;
  project_filePath : jsstring;
  references : list jsstring
}.

Record ModularGuardModule := {
  moduleName : jsstring;
  projects : list ModularGuardProject
}.

Record ModularGuardViolation := {
  severity : jsstring;
  projectName : jsstring;
  invalidReference : jsstring;
  ruleName : jsstring;
  description : jsstring;
  suggestion : option jsstring;
  documentationUrl : option jsstring;
  filePath : jsstring;
  lineNumber : Z;
  columnNumber : Z
}.

Record ModularGuardResult := {
  summary : ModularGuardSummary;
  modules : list ModularGuardModule;
  violations : list ModularGuardViolation
}.

(** [{ ...v, filePath: p }] *)
Definition with_filePath (v : ModularGuardViolation) (p : jsstring)
  : ModularGuardViolation :=
  {| severity := severity v; projectName := projectName v;
     invalidReference := invalidReference v; ruleName := ruleName v;
     description := description v; suggestion := suggestion v;
     documentationUrl := documentationUrl v; filePath := p;
     lineNumber := lineNumber v; columnNumber := columnNumber v |}.

(** [{ ...result, violations: vs }] *)
Definition with_violations (r : ModularGuardResult)
  (vs : list ModularGuardViolation) : ModularGuardResult :=
  {| summary := summary r; modules := modules r; violations := vs |}.

(** ** Path rewriting ([toWorkspaceRelativePath]) *)

Section PathNormalizer.

(** [path.relative(from, to)] of the platform. *)
Variable path_relative : jsstring -> jsstring -> jsstring.

Definition toWorkspaceRelativePath (absolutePath workspaceRoot : jsstring)
  : jsstring :=
  let relativePath := path_relative workspaceRoot absolutePath in
  replaceAll BACKSLASH SLASH relativePath.

End PathNormalizer.

(** ** The markdown comment ([formatComment]) *)

Definition MARKER : jsstring := str "<!-- modularguard-results -->".

Definition HEADING : jsstring := str "## ModularGuard Analysis Results".

Definition BADGE_FAILED : jsstring :=
  CROSS_MARK ++ str " **Analysis Failed**".
Definition BADGE_WARNINGS : jsstring :=
  WARNING_SIGN ++ str " **Analysis Passed with Warnings**".
Definition BADGE_PASSED : jsstring :=
  CHECK_MARK ++ str " **Analysis Passed**".

(** [violation.severity === 'Error' ? red circle : warning sign] *)
Definition severityIcon (violation : ModularGuardViolation) : jsstring :=
  if jsstring_eqb (severity violation) (str "Error")
  then RED_CIRCLE else WARNING_SIGN.

(** The description cell of a table row. *)
Definition descriptionCell (violation : ModularGuardViolation) : jsstring :=
  substring0 100 (replaceAll LF SPACE (description violation)).

(** One row of the violations table, as appended by the loop body. *)
Definition tableRow (violation : ModularGuardViolation) : jsstring :=
  let severityIcon := severityIcon violation in
  let fileLocation :=
    [BACKTICK] ++ filePath violation ++ str ":"
      ++ String_of (lineNumber violation) ++ [BACKTICK] in
  let project := projectName violation in
  let reference := invalidReference violation in
  let description := descriptionCell violation in
  str "| " ++ severityIcon ++ str " " ++ severity violation ++ str " | "
    ++ fileLocation ++ str " | " ++ project ++ str " | " ++ reference
    ++ str " | " ++ description ++ str " |" ++ nl.

(** One entry of the suggestions section. *)
Definition suggestionEntry (violation : ModularGuardViolation) : jsstring :=
  str "**" ++ projectName violation ++ str " " ++ RIGHT_ARROW ++ str " "
    ++ invalidReference violation ++ str "**" ++ nl
    ++ match suggestion violation with
       | Some s => s
       | None => str "undefined"
       end ++ nl ++ nl.

Definition formatComment (result : ModularGuardResult)
  (runUrl : option jsstring) : jsstring :=
  let summary := summary result in
  let violations := violations result in
  let hasErrors := (0 <? errorCount summary)%Z in
  let hasWarnings := (0 <? warningCount summary)%Z in
  let markdown := MARKER ++ nl ++ nl in
  let markdown := markdown ++ HEADING ++ nl ++ nl in
  (* Status badge *)
  let markdown :=
    if hasErrors then markdown ++ BADGE_FAILED ++ nl ++ nl
    else if hasWarnings then markdown ++ BADGE_WARNINGS ++ nl ++ nl
    else markdown ++ BADGE_PASSED ++ nl ++ nl in
  (* Summary statistics *)
  let markdown := markdown ++ str "### Summary" ++ nl ++ nl in
  let markdown := markdown ++ str "- **Total Modules:** "
                    ++ String_of (totalModules summary) ++ nl in
  let markdown := markdown ++ str "- **Total Projects:** "
                    ++ String_of (totalProjects summary) ++ nl in
  let markdown := markdown ++ str "- **Errors:** "
                    ++ String_of (errorCount summary) ++ nl in
  let markdown := markdown ++ str "- **Warnings:** "
                    ++ String_of (warningCount summary) ++ nl ++ nl in
  (* Violations table *)
  let markdown :=
    if (0 <? length violations)%nat then
      let markdown := markdown ++ str "### Violations" ++ nl ++ nl in
      let markdown := markdown
        ++ str "| Severity | File:Line | Project | Invalid Reference | Description |"
        ++ nl in
      let markdown := markdown
        ++ str "|----------|-----------|---------|-------------------|-------------|"
        ++ nl in
      let markdown :=
        fold_left (fun markdown violation => markdown ++ tableRow violation)
          violations markdown in
      let markdown := markdown ++ nl in
      (* Suggestions section if any violations have suggestions *)
      let violationsWithSuggestions :=
        filter (fun v => truthy_opt (suggestion v)) violations in
      if (0 <? length violationsWithSuggestions)%nat then
        let markdown := markdown ++ str "<details>" ++ nl ++ str "<summary>"
                          ++ LIGHT_BULB ++ str " Suggestions</summary>"
                          ++ nl ++ nl in
        let markdown :=
          fold_left (fun markdown violation =>
                       markdown ++ suggestionEntry violation)
            violationsWithSuggestions markdown in
        markdown ++ str "</details>" ++ nl ++ nl
      else markdown
    else markdown in
  match runUrl with
  | Some url =>
      if nonempty url
      then markdown ++ str "---" ++ nl ++ nl
             ++ str "[View detailed results](" ++ url ++ str ")" ++ nl
      else markdown
  | None => markdown
  end.

(** ** The check-run payload ([createCheckRun], [mapSeverityToLevel]) *)

Inductive AnnotationLevel := failure | warning | notice.

Inductive Conclusion := conclusion_failure | conclusion_success.

Definition mapSeverityToLevel (severity : jsstring) : AnnotationLevel :=
  let lowered := toLowerCase severity in
  if jsstring_eqb lowered (str "error") then failure
  else if jsstring_eqb lowered (str "warning") then warning
  else notice.

Record Annotation := {
  path : jsstring;
  start_line : Z;
  end_line : Z;
  start_column : Z;
  end_column : Z;
  annotation_level : AnnotationLevel;
  message : jsstring;
  title : jsstring
}.

Definition toAnnotation (violation : ModularGuardViolation) : Annotation :=
  {| path := filePath violation;
     start_line := lineNumber violation;
     end_line := lineNumber violation;
     start_column := columnNumber violation;
     end_column := columnNumber violation;
     annotation_level := mapSeverityToLevel (severity violation);
     message := description violation;
     title := ruleName violation ++ str ": " ++ projectName violation
                ++ str " " ++ RIGHT_ARROW ++ str " "
                ++ invalidReference violation |}.

(** The arguments of [octokit.rest.checks.create]. *)
Record CheckRunPayload := {
  check_name : jsstring;
  head_sha : jsstring;
  check_status : jsstring;
  conclusion : Conclusion;
  output_title : jsstring;
  output_summary : jsstring;
  output_annotations : list Annotation
}.

(** The sentence appended when more than 50 violations exist. *)
Definition omittedNote (omitted : Z) : jsstring :=
  nl ++ nl ++ WARNING_SIGN
    ++ str " Note: Only showing the first 50 annotations. "
    ++ String_of omitted ++ str " additional violation(s) not shown.".

(** The summary text before the note about omitted annotations. *)
Definition checkRunSummaryBase (result : ModularGuardResult) : jsstring :=
  let summary := summary result in
  let violations := violations result in
  let summaryText := str "## ModularGuard Analysis" ++ nl ++ nl in
  let summaryText := summaryText ++ str "**Total Modules:** "
                       ++ String_of (totalModules summary) ++ nl in
  let summaryText := summaryText ++ str "**Total Projects:** "
                       ++ String_of (totalProjects summary) ++ nl in
  let summaryText := summaryText ++ str "**Errors:** "
                       ++ String_of (errorCount summary) ++ nl in
  let summaryText := summaryText ++ str "**Warnings:** "
                       ++ String_of (warningCount summary) ++ nl ++ nl in
  if (0 <? length violations)%nat then
    let summaryText := summaryText ++ str "Found "
                         ++ String_of (Z.of_nat (length violations))
                         ++ str " violation(s)." ++ nl ++ nl in
    summaryText ++ str "See annotations on the Files Changed tab for details."
  else
    summaryText ++ str "No violations found! " ++ PARTY_POPPER.

(** The pure part of [createCheckRun]: everything up to the API call. *)
Definition checkRunPayload (headSha : jsstring) (result : ModularGuardResult)
  : CheckRunPayload :=
  let summary := summary result in
  let violations := violations result in
  let conclusion :=
    if (0 <? errorCount summary)%Z then conclusion_failure
    else conclusion_success in
  let summaryText := checkRunSummaryBase result in
  (* GitHub API limit: 50 annotations per call *)
  let annotations := map toAnnotation (firstn 50 violations) in
  let summaryText :=
    if (50 <? length violations)%nat
    then summaryText ++ omittedNote (Z.of_nat (length violations) - 50)
    else summaryText in
  {| check_name := str "ModularGuard";
     head_sha := headSha;
     check_status := str "completed";
     conclusion := conclusion;
     output_title := str "ModularGuard Analysis";
     output_summary := summaryText;
     output_annotations := annotations |}.

(** ** Parsed JSON values *)

(** What [JSON.parse] returns.  Numbers are the integers of the schema;
    an object is the list of its own properties. *)
#[warnings="-register-all"]
Inductive JSON :=
| JNull
| JBool (b : bool)
| JNumber (n : Z)
| JString (s : jsstring)
| JArray (items : list JSON)
| JObject (fields : list (jsstring * JSON)).

Fixpoint lookup_field (key : jsstring) (fields : list (jsstring * JSON))
  : option JSON :=
  match fields with
  | [] => None
  | (k, v) :: rest => if jsstring_eqb k key then Some v
                      else lookup_field key rest
  end.

(** [value.key] for a value other than [null]; [None] is [undefined].
    Only objects carry the properties read here. *)
Definition getProp (value : JSON) (key : jsstring) : option JSON :=
  match value with
  | JObject fields => lookup_field key fields
  | _ => None
  end.

(** JavaScript truthiness of a possibly undefined value. *)
Definition truthy (v : option JSON) : bool :=
  match v with
  | None => false
  | Some JNull => false
  | Some (JBool b) => b
  | Some (JNumber n) => negb (n =? 0)%Z
  | Some (JString s) => nonempty s
  | Some (JArray _) => true
  | Some (JObject _) => true
  end.

(** *** Reading a parsed value at the type [ModularGuardResult]

    The source casts the parsed value ([as ModularGuardResult]) without
    checking it; [asModularGuardResult] says which values have that type.
    An optional field may be absent or [null]. *)

Definition asNumber (v : option JSON) : option Z :=
  match v with Some (JNumber n) => Some n | _ => None end.

Definition asString (v : option JSON) : option jsstring :=
  match v with Some (JString s) => Some s | _ => None end.

Definition asBoolean (v : option JSON) : option bool :=
  match v with Some (JBool b) => Some b | _ => None end.

Definition asOptionalString (v : option JSON) : option (option jsstring) :=
  match v with
  | None => Some None
  | Some JNull => Some None
  | Some (JString s) => Some (Some s)
  | Some _ => None
  end.

Fixpoint traverse {A B : Type} (f : A -> option B) (l : list A)
  : option (list B) :=
  match l with
  | [] => Some []
  | a :: l' =>
      match f a, traverse f l' with
      | Some b, Some bs => Some (b :: bs)
      | _, _ => None
      end
  end.

Definition asArray {B : Type} (f : JSON -> option B) (v : option JSON)
  : option (list B) :=
  match v with
  | Some (JArray items) => traverse f items
  | _ => None
  end.

Definition asSummary (v : JSON) : option ModularGuardSummary :=
  match v with
  | JObject _ =>
      match asNumber (getProp v (str "totalModules")),
            asNumber (getProp v (str "totalProjects")),
            asNumber (getProp v (str "errorCount")),
            asNumber (getProp v (str "warningCount")),
            asBoolean (getProp v (str "isValid")) with
      | Some tm, Some tp, Some ec, Some wc, Some iv =>
          Some {| totalModules := tm; totalProjects := tp; errorCount := ec;
                  warningCount := wc; isValid := iv |}
      | _, _, _, _, _ => None
      end
  | _ => None
  end.

Definition asProject (v : JSON) : option ModularGuardProject :=
  match asString (getProp v (str "name")),
        asString (getProp v (str "type")),
        asString (getProp v (str "filePath")),
        asArray (fun r => asString (Some r)) (getProp v (str "references")) with
  | Some n, Some t, Some f, Some rs =>
      Some {| name := n; type := t; project_filePath := f; references := rs |}
  | _, _, _, _ => None
  end.

Definition asModule (v : JSON) : option ModularGuardModule :=
  match asString (getProp v (str "moduleName")),
        asArray asProject (getProp v (str "projects")) with
  | Some n, Some ps => Some {| moduleName := n; projects := ps |}
  | _, _ => None
  end.

Definition asViolation (v : JSON) : option ModularGuardViolation :=
  match asString (getProp v (str "severity")),
        asString (getProp v (str "projectName")),
        asString (getProp v (str "invalidReference")),
        asString (getProp v (str "ruleName")),
        asString (getProp v (str "description")) with
  | Some sev, Some pn, Some ir, Some rn, Some d =>
      match asOptionalString (getProp v (str "suggestion")),
            asOptionalString (getProp v (str "documentationUrl")),
            asString (getProp v (str "filePath")),
            asNumber (getProp v (str "lineNumber")),
            asNumber (getProp v (str "columnNumber")) with
      | Some sg, Some du, Some fp, Some ln, Some cn =>
          Some {| severity := sev; projectName := pn; invalidReference := ir;
                  ruleName := rn; description := d; suggestion := sg;
                  documentationUrl := du; filePath := fp; lineNumber := ln;
                  columnNumber := cn |}
      | _, _, _, _, _ => None
      end
  | _, _, _, _, _ => None
  end.

Definition asModularGuardResult (v : JSON) : option ModularGuardResult :=
  match getProp v (str "summary") with
  | Some s =>
      match asSummary s,
            asArray asModule (getProp v (str "modules")),
            asArray asViolation (getProp v (str "violations")) with
      | Some sm, Some ms, Some vs =>
          Some {| summary := sm; modules := ms; violations := vs |}
      | _, _, _ => None
      end
  | None => None
  end.

(** ** Effects: what leaves the process, and what comes back *)

Record Pull := { number : Z; html_url : jsstring }.

Record Comment := { id : Z; body : option jsstring }.

Record ExecResult := { exitCode : Z; stdout : jsstring; stderr : jsstring }.

Record Context := { owner : jsstring; repo : jsstring; sha : jsstring }.

Record Inputs := {
  directory : jsstring;
  token : jsstring;
  modularguardVersion : jsstring;
  configPath : option jsstring
}.

(** Everything observable of a run, in program order. *)
Inductive Event :=
| LogInfo (msg : jsstring)
| LogDebug (msg : jsstring)
| LogWarning (msg : jsstring)
| LogError (msg : jsstring)
| SetOutput (key value : jsstring)
| SetFailed (msg : jsstring)
| ConsoleError (msg : jsstring)
| ListPullRequestsAssociatedWithCommit (owner repo commit_sha : jsstring)
| DownloadModularGuard (version : jsstring)
| Exec (binaryPath : jsstring) (args : list jsstring)
| ChecksCreate (owner repo : jsstring) (payload : CheckRunPayload)
| ListComments (owner repo : jsstring) (issue_number : Z)
| UpdateComment (owner repo : jsstring) (comment_id : Z) (body : jsstring)
| CreateComment (owner repo : jsstring) (issue_number : Z) (body : jsstring).

(** A rejected promise or thrown error carries its message. *)
Definition Response (A : Type) : Type := (jsstring + A)%type.

(** The answers of the environment. *)
Record World := {
  process_env : jsstring -> option jsstring;
  process_cwd : jsstring;
  repos_listPullRequestsAssociatedWithCommit :
    jsstring -> jsstring -> jsstring -> Response (list Pull);
  tool_download : jsstring -> Response jsstring;
  exec_exec : jsstring -> list jsstring -> Response ExecResult;
  checks_create : jsstring -> jsstring -> CheckRunPayload -> Response unit;
  issues_listComments : jsstring -> jsstring -> Z -> Response (list Comment);
  issues_updateComment :
    jsstring -> jsstring -> Z -> jsstring -> Response unit;
  issues_createComment :
    jsstring -> jsstring -> Z -> jsstring -> Response unit
}.

(** How a piece of code ends: it returns, it throws, or it has been handed a
    parsed value that is not of the type the source casts it to.  The
    source goes on with such a value, and what it then does depends on the
    value field by field; the embedding stops there: [OutsideSchema] closes
    a trace that holds the events up to the cast and none of those that
    follow.  No statement of this file describes a run beyond that point;
    those about whole runs assume a result of the schema or a binary that
    keeps to it. *)
Inductive Outcome (A : Type) :=
| Returned (a : A)
| Thrown (message : jsstring)
| OutsideSchema.
Arguments Returned {A} a.
Arguments Thrown {A} message.
Arguments OutsideSchema {A}.

(** A computation: the events it emitted and how it ended. *)
Definition Action (A : Type) : Type := (list Event * Outcome A)%type.

Definition ret {A : Type} (a : A) : Action A := ([], Returned a).

Definition trace {A : Type} (m : Action A) : list Event := fst m.
Definition outcome {A : Type} (m : Action A) : Outcome A := snd m.

(** Sequencing: the rest runs only after a normal return. *)
Definition bind {A B : Type} (m : Action A) (k : A -> Action B) : Action B :=
  match m with
  | (t, Returned a) => let r := k a in (t ++ trace r, outcome r)
  | (t, Thrown e) => (t, Thrown e)
  | (t, OutsideSchema) => (t, OutsideSchema)
  end.

Definition emit (e : Event) : Action unit := ([e], Returned tt).

Definition throw {A : Type} (message : jsstring) : Action A :=
  ([], Thrown message).

(** [try { m } catch (error) { h error }] *)
Definition try_catch {A : Type} (m : Action A) (h : jsstring -> Action A)
  : Action A :=
  match m with
  | (t, Thrown e) => let r := h e in (t ++ trace r, outcome r)
  | other => other
  end.

(** An awaited external call: the call is recorded, the world answers. *)
Definition await {A : Type} (call : Event) (response : Response A)
  : Action A :=
  ([call], match response with inl e => Thrown e | inr a => Returned a end).

(** A pure platform function that may throw. *)
Definition await_pure {A : Type} (response : Response A) : Action A :=
  ([], match response with inl e => Thrown e | inr a => Returned a end).

Declare Scope action_scope.
Delimit Scope action_scope with action.
Notation "x <- c1 ;; c2" := (bind c1 (fun x => c2))
  (at level 61, c1 at next level, right associativity) : action_scope.
Notation "c1 ;; c2" := (bind c1 (fun _ => c2))
  (at level 61, right associativity) : action_scope.
Local Open Scope action_scope.

(** [for (const x of l) { body x }] *)
Fixpoint for_of {A : Type} (l : list A) (body : A -> Action unit)
  : Action unit :=
  match l with
  | [] => ret tt
  | x :: l' => body x ;; for_of l' body
  end.

(** [l.forEach((x, i) => body x i)], the index starting at [i]. *)
Fixpoint forEach_from {A : Type} (i : Z) (l : list A)
  (body : A -> Z -> Action unit) : Action unit :=
  match l with
  | [] => ret tt
  | x :: l' => body x i ;; forEach_from (i + 1)%Z l' body
  end.

Definition core_info (msg : jsstring) : Action unit := emit (LogInfo msg).
Definition core_debug (msg : jsstring) : Action unit := emit (LogDebug msg).
Definition core_warning (msg : jsstring) : Action unit := emit (LogWarning msg).
Definition core_error (msg : jsstring) : Action unit := emit (LogError msg).
Definition core_setOutput (key value : jsstring) : Action unit :=
  emit (SetOutput key value).
Definition core_setFailed (msg : jsstring) : Action unit :=
  emit (SetFailed msg).


(** ** The action ([src/github.ts], [src/run.ts], [src/index.ts]) *)

Section Action.

(** The environment of the run. *)
Variable w : World.

(** [JSON.parse]: a value, or the message of the [SyntaxError]. *)
Variable JSON_parse : jsstring -> Response JSON.

(** [path.relative] of the platform the action runs on. *)
Variable path_relative : jsstring -> jsstring -> jsstring.

(** [downloadModularGuard]: a tool-cache lookup or an archive download;
    its body only talks to the platform and is kept as one call. *)
Definition downloadModularGuard (version : jsstring) : Action jsstring :=
  await (DownloadModularGuard version) (tool_download w version).

Definition findExistingComment (owner repo : jsstring) (issueNumber : Z)
  : Action (option Z) :=
  try_catch
    (comments <- await (ListComments owner repo issueNumber)
                   (issues_listComments w owner repo issueNumber) ;;
     let marker := MARKER in
     let existing :=
       find (fun comment =>
               match body comment with
               | Some b => includes b marker
               | None => false
               end) comments in
     ret (match existing with
          | Some c => Some (id c)
          | None => None
          end))
    (fun error =>
       core_warning (str "Failed to find existing comment: " ++ error) ;;
       ret None).

(** [if (existingCommentId)]: an absent id and the id 0 are falsy. *)
Definition truthy_id (existingCommentId : option Z) : bool :=
  match existingCommentId with
  | Some i => negb (i =? 0)%Z
  | None => false
  end.

Definition createOrUpdateComment (owner repo : jsstring) (issueNumber : Z)
  (body : jsstring) (existingCommentId : option Z) : Action unit :=
  try_catch
    (match existingCommentId with
     | Some i =>
         if negb (i =? 0)%Z
         then await (UpdateComment owner repo i body)
                (issues_updateComment w owner repo i body)
         else await (CreateComment owner repo issueNumber body)
                (issues_createComment w owner repo issueNumber body)
     | None =>
         await (CreateComment owner repo issueNumber body)
           (issues_createComment w owner repo issueNumber body)
     end)
    (fun error =>
       throw (str "Failed to "
                ++ (if truthy_id existingCommentId
                    then str "update" else str "create")
                ++ str " comment: " ++ error)).

Definition createCheckRun (owner repo headSha : jsstring)
  (result : ModularGuardResult) : Action unit :=
  let payload := checkRunPayload headSha result in
  try_catch
    (await (ChecksCreate owner repo payload)
       (checks_create w owner repo payload))
    (fun error => throw (str "Failed to create check run: " ++ error)).

Definition MISSING_FIELDS : jsstring :=
  str "Invalid ModularGuard output: missing required fields".

(** The message of the [TypeError] raised by reading a property of
    [null]. *)
Definition NULL_PROPERTY : jsstring :=
  str "Cannot read properties of null (reading 'summary')".

(** The body of the second [try] of [executeModularGuard]: parse and
    validate. *)
Definition parseAndValidate (stdout : jsstring) : Action JSON :=
  result <- await_pure (JSON_parse stdout) ;;
  match result with
  | JNull => throw NULL_PROPERTY
  | _ =>
      if negb (truthy (getProp result (str "summary")))
         || negb (truthy (getProp result (str "modules")))
         || negb (truthy (getProp result (str "violations")))
      then throw MISSING_FIELDS
      else ret result
  end.

Definition executeModularGuard (binaryPath directory : jsstring)
  (configPath : option jsstring) : Action JSON :=
  let args := [str "check"; directory; str "--format"; str "json";
               str "--quiet"] in
  let args :=
    match configPath with
    | Some c => if nonempty c then args ++ [str "--config"; c] else args
    | None => args
    end in
  out <- try_catch
           (r <- await (Exec binaryPath args) (exec_exec w binaryPath args) ;;
            core_debug (str "ModularGuard exit code: "
                          ++ String_of (exitCode r)) ;;
            (if nonempty (stderr r)
             then core_debug (str "ModularGuard stderr: " ++ stderr r)
             else ret tt) ;;
            ret r)
           (fun error =>
              throw (str "Failed to execute ModularGuard: " ++ error)) ;;
  let stdout := stdout out in
  let stderr := stderr out in
  if negb (nonempty stdout)
  then throw (str "ModularGuard produced no output")
  else
    try_catch (parseAndValidate stdout)
      (fun error =>
         core_error (str "Failed to parse ModularGuard output") ;;
         core_error (str "stdout: " ++ stdout) ;;
         core_error (str "stderr: " ++ stderr) ;;
         throw (str "Failed to parse ModularGuard output: " ++ error)).

Definition RULE : jsstring := repeat_str DOUBLE_HORIZONTAL 80.

Definition printViolation (v : ModularGuardViolation) (i : Z)
  : Action unit :=
  let icon := if jsstring_eqb (severity v) (str "Error")
              then RED_CIRCLE else WARNING_SIGN in
  core_info (String_of (i + 1) ++ str ". " ++ icon ++ str " "
               ++ severity v ++ str ": " ++ ruleName v) ;;
  core_info (str "   Project:    " ++ projectName v) ;;
  core_info (str "   Reference:  " ++ invalidReference v) ;;
  core_info (str "   Location:   " ++ filePath v ++ str ":"
               ++ String_of (lineNumber v) ++ str ":"
               ++ String_of (columnNumber v)) ;;
  core_info (str "   Message:    " ++ description v) ;;
  (match suggestion v with
   | Some sg =>
       if nonempty sg
       then core_info (str "   " ++ LIGHT_BULB ++ str " Suggestion: " ++ sg)
       else ret tt
   | None => ret tt
   end) ;;
  (match documentationUrl v with
   | Some du =>
       if nonempty du
       then core_info (str "   " ++ OPEN_BOOK ++ str " Documentation: "
                         ++ du)
       else ret tt
   | None => ret tt
   end) ;;
  core_info [].

Definition printViolationsToConsole (result : ModularGuardResult)
  : Action unit :=
  let summary := summary result in
  let violations := violations result in
  core_info [] ;;
  core_info RULE ;;
  core_info (BAR_CHART ++ str " MODULARGUARD ANALYSIS RESULTS") ;;
  core_info RULE ;;
  core_info [] ;;
  core_info (str "Total Modules:  " ++ String_of (totalModules summary)) ;;
  core_info (str "Total Projects: " ++ String_of (totalProjects summary)) ;;
  core_info (str "Errors:         " ++ String_of (errorCount summary)) ;;
  core_info (str "Warnings:       " ++ String_of (warningCount summary)) ;;
  core_info (str "Status:         "
               ++ (if isValid summary
                   then CHECK_MARK ++ str " Valid"
                   else CROSS_MARK ++ str " Invalid")) ;;
  core_info [] ;;
  if (length violations =? 0)%nat then
    core_info (CHECK_MARK ++ str " No violations found!") ;;
    core_info RULE
  else
    core_info (str "Found " ++ String_of (Z.of_nat (length violations))
                 ++ str " violation(s):") ;;
    core_info [] ;;
    forEach_from 0 violations printViolation ;;
    core_info RULE.

(** [`${process.env[name]}`]: an unset variable prints as [undefined]. *)
Definition env_text (name : jsstring) : jsstring :=
  match process_env w name with
  | Some v => v
  | None => str "undefined"
  end.

(** [process.env['GITHUB_WORKSPACE'] || process.cwd()] *)
Definition workspaceRoot : jsstring :=
  match process_env w (str "GITHUB_WORKSPACE") with
  | Some v => if nonempty v then v else process_cwd w
  | None => process_cwd w
  end.

Definition runUrl : jsstring :=
  env_text (str "GITHUB_SERVER_URL") ++ str "/"
    ++ env_text (str "GITHUB_REPOSITORY") ++ str "/actions/runs/"
    ++ env_text (str "GITHUB_RUN_ID").

(** [result.violations.map(v => ({ ...v, filePath: ... }))] *)
Definition relativize (result : ModularGuardResult) : ModularGuardResult :=
  let violationsWithRelativePaths :=
    map (fun v =>
           with_filePath v
             (toWorkspaceRelativePath path_relative (filePath v)
                workspaceRoot))
      (violations result) in
  with_violations result violationsWithRelativePaths.

(** The body of the comment loop for one pull request. *)
Definition publishComment (context : Context)
  (resultWithRelativePaths : ModularGuardResult) (pull : Pull)
  : Action unit :=
  existingComment <-
    findExistingComment (owner context) (repo context) (number pull) ;;
  let commentBody := formatComment resultWithRelativePaths (Some runUrl) in
  createOrUpdateComment (owner context) (repo context) (number pull)
    commentBody existingComment ;;
  core_info (str "Comment "
               ++ (match existingComment with
                   | Some _ => str "updated"
                   | None => str "created"
                   end)
               ++ str " on PR #" ++ String_of (number pull)).

(** The cast [JSON.parse(stdout) as ModularGuardResult], made explicit: the
    cast itself checks nothing, and a value of the schema goes through
    unchanged; for any other value the embedding stops (see [Outcome]). *)
Definition typed (value : JSON) : Action ModularGuardResult :=
  match asModularGuardResult value with
  | Some result => ret result
  | None => ([], OutsideSchema)
  end.

(** [run], as of the later of the two revisions of [src/run.ts]. *)
Definition run (inputs : Inputs) (context : Context) : Action unit :=
  core_info (str "Finding associated pull requests...") ;;
  pulls <- await
             (ListPullRequestsAssociatedWithCommit (owner context)
                (repo context) (sha context))
             (repos_listPullRequestsAssociatedWithCommit w (owner context)
                (repo context) (sha context)) ;;
  let isInPRContext := (0 <? length pulls)%nat in
  (if isInPRContext
   then for_of pulls (fun pull =>
          core_info (str "Associated pull request: " ++ html_url pull))
   else core_info (str "No associated pull requests found. Running analysis in non-PR mode.")) ;;
  core_info (str "Downloading ModularGuard binary...") ;;
  binaryPath <- downloadModularGuard (modularguardVersion inputs) ;;
  core_info (str "Binary downloaded to: " ++ binaryPath) ;;
  core_info (str "Executing ModularGuard analysis...") ;;
  parsed <- executeModularGuard binaryPath (directory inputs)
              (configPath inputs) ;;
  result <- typed parsed ;;
  core_info (str "Analysis complete:") ;;
  core_info (str "  Total modules: "
               ++ String_of (totalModules (summary result))) ;;
  core_info (str "  Total projects: "
               ++ String_of (totalProjects (summary result))) ;;
  core_info (str "  Errors: " ++ String_of (errorCount (summary result))) ;;
  core_info (str "  Warnings: "
               ++ String_of (warningCount (summary result))) ;;
  (* Convert absolute paths to workspace-relative *)
  let resultWithRelativePaths := relativize result in
  (* Print violations to console *)
  printViolationsToConsole resultWithRelativePaths ;;
  (if isInPRContext
   then
     core_info (str "Creating check run with annotations...") ;;
     createCheckRun (owner context) (repo context) (sha context)
       resultWithRelativePaths ;;
     core_info (str "Posting results to pull request(s)...") ;;
     for_of pulls (publishComment context resultWithRelativePaths)
   else
     core_info (str "Skipping PR comments and check runs (not in PR context)")) ;;
  (* Set action outputs *)
  core_setOutput (str "violations-count")
    (String_of (Z.of_nat (length (violations result)))) ;;
  core_setOutput (str "error-count")
    (String_of (errorCount (summary result))) ;;
  core_setOutput (str "warning-count")
    (String_of (warningCount (summary result))) ;;
  core_setOutput (str "status")
    (if (0 <? errorCount (summary result))%Z
     then str "failure" else str "success") ;;
  (* Fail the action if violations found *)
  if (0 <? length (violations result))%nat
  then
    let errorCount := errorCount (summary result) in
    let warningCount := warningCount (summary result) in
    let message :=
      str "ModularGuard analysis found "
        ++ String_of (Z.of_nat (length (violations result)))
        ++ str " violation(s): " ++ String_of errorCount
        ++ str " error(s) and " ++ String_of warningCount
        ++ str " warning(s)" in
    core_setFailed message
  else core_info (CHECK_MARK ++ str " No violations found!").

(** The top level of [src/index.ts], from the call of [run] on: an error
    thrown by [run] fails the action with its message and is printed. *)
Definition main (inputs : Inputs) (context : Context) : Action unit :=
  try_catch (run inputs context)
    (fun e => core_setFailed e ;; emit (ConsoleError e)).

(** *** The steps of [run], named

    [run] is the sequence of the steps below (lemma [run_steps]). *)

(** The publication step of [run]: the check run, then one comment per
    pull request; skipped outside a pull-request context. *)
Definition publish (context : Context) (pulls : list Pull)
  (resultWithRelativePaths : ModularGuardResult) : Action unit :=
  let isInPRContext := (0 <? length pulls)%nat in
  if isInPRContext
  then
    core_info (str "Creating check run with annotations...") ;;
    createCheckRun (owner context) (repo context) (sha context)
      resultWithRelativePaths ;;
    core_info (str "Posting results to pull request(s)...") ;;
    for_of pulls (publishComment context resultWithRelativePaths)
  else
    core_info (str "Skipping PR comments and check runs (not in PR context)").

Definition STATUS (result : ModularGuardResult) : jsstring :=
  if (0 <? errorCount (summary result))%Z
  then str "failure" else str "success".

(** Setting the four outputs of the action. *)
Definition setOutputs (result : ModularGuardResult) : Action unit :=
  core_setOutput (str "violations-count")
    (String_of (Z.of_nat (length (violations result)))) ;;
  core_setOutput (str "error-count")
    (String_of (errorCount (summary result))) ;;
  core_setOutput (str "warning-count")
    (String_of (warningCount (summary result))) ;;
  core_setOutput (str "status") (STATUS result).

Definition FAILURE_MESSAGE (result : ModularGuardResult) : jsstring :=
  let errorCount := errorCount (summary result) in
  let warningCount := warningCount (summary result) in
  str "ModularGuard analysis found "
    ++ String_of (Z.of_nat (length (violations result)))
    ++ str " violation(s): " ++ String_of errorCount
    ++ str " error(s) and " ++ String_of warningCount ++ str " warning(s)".

(** The last statement of [run]: fail the action if violations found. *)
Definition decideOutcome (result : ModularGuardResult) : Action unit :=
  if (0 <? length (violations result))%nat
  then core_setFailed (FAILURE_MESSAGE result)
  else core_info (CHECK_MARK ++ str " No violations found!").

(** The revision of [run] that precedes the one above in [src/run.ts]: it
    stops when the commit has no pull request, prints nothing to the
    console, and fails the action on errors only. *)
Definition run_earlier (inputs : Inputs) (context : Context) : Action unit :=
  core_info (str "Finding associated pull requests...") ;;
  pulls <- await
             (ListPullRequestsAssociatedWithCommit (owner context)
                (repo context) (sha context))
             (repos_listPullRequestsAssociatedWithCommit w (owner context)
                (repo context) (sha context)) ;;
  if (length pulls =? 0)%nat
  then core_info (str "No associated pull requests found. Skipping analysis (PR-only mode).")
  else
    for_of pulls (fun pull =>
      core_info (str "Associated pull request: " ++ html_url pull)) ;;
    core_info (str "Downloading ModularGuard binary...") ;;
    binaryPath <- downloadModularGuard (modularguardVersion inputs) ;;
    core_info (str "Binary downloaded to: " ++ binaryPath) ;;
    core_info (str "Executing ModularGuard analysis...") ;;
    parsed <- executeModularGuard binaryPath (directory inputs)
                (configPath inputs) ;;
    result <- typed parsed ;;
    core_info (str "Analysis complete:") ;;
    core_info (str "  Total modules: "
                 ++ String_of (totalModules (summary result))) ;;
    core_info (str "  Total projects: "
                 ++ String_of (totalProjects (summary result))) ;;
    core_info (str "  Errors: " ++ String_of (errorCount (summary result))) ;;
    core_info (str "  Warnings: "
                 ++ String_of (warningCount (summary result))) ;;
    let resultWithRelativePaths := relativize result in
    core_info (str "Creating check run with annotations...") ;;
    createCheckRun (owner context) (repo context) (sha context)
      resultWithRelativePaths ;;
    core_info (str "Posting results to pull request(s)...") ;;
    for_of pulls (publishComment context resultWithRelativePaths) ;;
    core_setOutput (str "violations-count")
      (String_of (Z.of_nat (length (violations result)))) ;;
    core_setOutput (str "error-count")
      (String_of (errorCount (summary result))) ;;
    core_setOutput (str "warning-count")
      (String_of (warningCount (summary result))) ;;
    core_setOutput (str "status")
      (if (0 <? errorCount (summary result))%Z
       then str "failure" else str "success") ;;
    (* Fail the action if errors found *)
    if (0 <? errorCount (summary result))%Z
    then core_setFailed
           (str "ModularGuard analysis failed: found "
              ++ String_of (errorCount (summary result))
              ++ str " error(s) and "
              ++ String_of (warningCount (summary result))
              ++ str " warning(s)")
    else ret tt.

End Action.

(** ** The platform's [path.relative] on POSIX runners

    Node's [path.posix.resolve] and [path.posix.relative], read by path
    segments: both paths are made absolute against the current directory
    and normalized, the common leading segments are dropped, and every
    remaining segment of [from] is climbed with [..]. *)

Module PosixPath.

Definition DOT : jsstring := str ".".
Definition DOTDOT : jsstring := str "..".

(** [s.split('/')] *)
Fixpoint split (s : jsstring) : list jsstring :=
  match s with
  | [] => [[]]
  | c :: s' =>
      if N.eqb c SLASH then [] :: split s'
      else match split s' with
           | seg :: rest => (c :: seg) :: rest
           | [] => [[c]]
           end
  end.

(** [segments.join('/')] *)
Fixpoint join (segments : list jsstring) : jsstring :=
  match segments with
  | [] => []
  | [seg] => seg
  | seg :: rest => seg ++ SLASH :: join rest
  end.

(** One segment of [normalizeString] below the root: empty and [.]
    segments vanish, [..] drops the last segment kept so far (and is
    itself dropped at the root), any other segment is kept.  The segments
    kept so far are held last first. *)
Definition normalizeStep (kept : list jsstring) (seg : jsstring)
  : list jsstring :=
  if jsstring_eqb seg [] || jsstring_eqb seg DOT then kept
  else if jsstring_eqb seg DOTDOT then tl kept
  else seg :: kept.

Definition normalize (segments : list jsstring) : list jsstring :=
  rev (fold_left normalizeStep segments []).

(** [path.posix.resolve(p)] with current directory [cwd] (an absolute
    path), as the segments after the root. *)
Definition resolve (cwd p : jsstring) : list jsstring :=
  let resolvedPath := if nonempty p then p ++ [SLASH] else [] in
  let resolvedPath :=
    if startsWith [SLASH] p then resolvedPath
    else cwd ++ [SLASH] ++ resolvedPath in
  normalize (split resolvedPath).

(** Dropping the common leading segments of two resolved paths. *)
Fixpoint stripCommon (from to : list jsstring)
  : list jsstring * list jsstring :=
  match from, to with
  | a :: from', b :: to' =>
      if jsstring_eqb a b then stripCommon from' to' else (from, to)
  | _, _ => (from, to)
  end.

(** [path.posix.relative(from, to)] *)
Definition relative (cwd from to : jsstring) : jsstring :=
  if jsstring_eqb from to then []
  else
    let (fromRest, toRest) :=
      stripCommon (resolve cwd from) (resolve cwd to) in
    join (map (fun _ => DOTDOT) fromRest ++ toRest).

End PosixPath.

(** ** Predicates of the statements *)

(** Decimal numerals hold digits and at most a leading minus sign. *)
Definition numeral_char (c : char16) : bool :=
  ((48 <=? c)%N && (c <=? 57)%N) || N.eqb c 45%N.

(** The status line of the comment, by priority. *)
Definition statusBadge (s : ModularGuardSummary) : jsstring :=
  if (0 <? errorCount s)%Z then BADGE_FAILED
  else if (0 <? warningCount s)%Z then BADGE_WARNINGS
  else BADGE_PASSED.

(** The four counter lines of the summary block of the comment. *)
Definition summaryBlock (s : ModularGuardSummary) : jsstring :=
  str "- **Total Modules:** " ++ String_of (totalModules s) ++ nl
    ++ str "- **Total Projects:** " ++ String_of (totalProjects s) ++ nl
    ++ str "- **Errors:** " ++ String_of (errorCount s) ++ nl
    ++ str "- **Warnings:** " ++ String_of (warningCount s) ++ nl.

(** The leading part of every comment. *)
Definition commentHead (s : ModularGuardSummary) : jsstring :=
  MARKER ++ nl ++ nl ++ HEADING ++ nl ++ nl ++ statusBadge s ++ nl ++ nl
    ++ str "### Summary" ++ nl ++ nl ++ summaryBlock s.

(** The arguments that [executeModularGuard] passes to the binary. *)
Definition execArgs (directory : jsstring) (configPath : option jsstring)
  : list jsstring :=
  [str "check"; directory; str "--format"; str "json"; str "--quiet"]
    ++ match configPath with
       | Some c => if nonempty c then [str "--config"; c] else []
       | None => []
       end.

(** The validation gate of [executeModularGuard] as a test on the parsed
    value: not [null], and the three fields truthy. *)
Definition passesGate (value : JSON) : bool :=
  match value with
  | JNull => false
  | _ => truthy (getProp value (str "summary"))
         && truthy (getProp value (str "modules"))
         && truthy (getProp value (str "violations"))
  end.

(** The message of the error raised at the gate. *)
Definition gateMessage (value : JSON) : jsstring :=
  match value with
  | JNull => NULL_PROPERTY
  | _ => MISSING_FIELDS
  end.

(** The analysis result that a run obtains in a world, if it obtains one:
    the binary is acquired, its output passes [executeModularGuard], and the
    parsed value has the type of the schema. *)
Definition analysisResult (w : World)
  (JSON_parse : jsstring -> Response JSON) (inputs : Inputs)
  : option ModularGuardResult :=
  match tool_download w (modularguardVersion inputs) with
  | inl _ => None
  | inr binaryPath =>
      match outcome (executeModularGuard w JSON_parse binaryPath
                       (directory inputs) (configPath inputs)) with
      | Returned parsed => asModularGuardResult parsed
      | _ => None
      end
  end.

(** Every request of the publication step is answered without error. *)
Definition PublicationSucceeds (w : World) (context : Context) : Prop :=
  (forall payload,
      checks_create w (owner context) (repo context) payload = inr tt)
  /\ (forall n body,
        issues_createComment w (owner context) (repo context) n body
        = inr tt)
  /\ (forall i body,
        issues_updateComment w (owner context) (repo context) i body
        = inr tt).

Definition isSetFailed (e : Event) : bool :=
  match e with SetFailed _ => true | _ => false end.

Definition isSetOutput (e : Event) : bool :=
  match e with SetOutput _ _ => true | _ => false end.

(** The requests of the publication step: check run and comments. *)
Definition isPublication (e : Event) : bool :=
  match e with
  | ChecksCreate _ _ _ | ListComments _ _ _
  | UpdateComment _ _ _ _ | CreateComment _ _ _ _ => true
  | _ => false
  end.

(** Events of the steps before publication: logs, and the requests for the
    pull requests, the binary and its execution. *)
Definition isPreparation (e : Event) : bool :=
  match e with
  | LogInfo _ | LogDebug _ | LogWarning _ | LogError _
  | ListPullRequestsAssociatedWithCommit _ _ _
  | DownloadModularGuard _ | Exec _ _ => true
  | _ => false
  end.

(** Events of the publication step: its requests and its logs. *)
Definition isPublishing (e : Event) : bool :=
  match e with
  | LogInfo _ | LogWarning _ => true
  | _ => isPublication e
  end.

(** All events of a computation satisfy a test. *)
Definition onlyEvents {A : Type} (P : Event -> bool) (m : Action A) : Prop :=
  forallb P (trace m) = true.

(** The events of [run] up to the console report, when the analysis gives
    a result. *)
Definition preparation (w : World) (JSON_parse : jsstring -> Response JSON)
  (inputs : Inputs) (context : Context) (pulls : list Pull)
  (binaryPath : jsstring) (result : ModularGuardResult) : list Event :=
  [LogInfo (str "Finding associated pull requests...");
   ListPullRequestsAssociatedWithCommit (owner context) (repo context)
     (sha context)]
    ++ (if (0 <? length pulls)%nat
        then map (fun pull =>
                    LogInfo (str "Associated pull request: "
                               ++ html_url pull)) pulls
        else [LogInfo (str "No associated pull requests found. Running analysis in non-PR mode.")])
    ++ [LogInfo (str "Downloading ModularGuard binary...");
        DownloadModularGuard (modularguardVersion inputs);
        LogInfo (str "Binary downloaded to: " ++ binaryPath);
        LogInfo (str "Executing ModularGuard analysis...")]
    ++ trace (executeModularGuard w JSON_parse binaryPath (directory inputs)
                (configPath inputs))
    ++ [LogInfo (str "Analysis complete:");
        LogInfo (str "  Total modules: "
                   ++ String_of (totalModules (summary result)));
        LogInfo (str "  Total projects: "
                   ++ String_of (totalProjects (summary result)));
        LogInfo (str "  Errors: " ++ String_of (errorCount (summary result)));
        LogInfo (str "  Warnings: "
                   ++ String_of (warningCount (summary result)))].

(** The last event of a run that reaches its last statement. *)
Definition verdict (result : ModularGuardResult) : Event :=
  if (0 <? length (violations result))%nat
  then SetFailed
         (str "ModularGuard analysis found "
            ++ String_of (Z.of_nat (length (violations result)))
            ++ str " violation(s): "
            ++ String_of (errorCount (summary result))
            ++ str " error(s) and "
            ++ String_of (warningCount (summary result))
            ++ str " warning(s)")
  else LogInfo (CHECK_MARK ++ str " No violations found!").

(** Whether an event is a request about the comments of pull request
    [n]. *)
Definition aboutPull (n : Z) (e : Event) : bool :=
  match e with
  | ListComments _ _ m | CreateComment _ _ m _ => (m =? n)%Z
  | _ => false
  end.

(** Whether a path segment survives normalization as it is. *)
Definition isNormal (seg : jsstring) : bool :=
  negb (jsstring_eqb seg [] || jsstring_eqb seg PosixPath.DOT
        || jsstring_eqb seg PosixPath.DOTDOT).

(** ** Sample data *)

(** A JSON string literal: the text between double quotes. *)
Definition quoted (s : string) : jsstring := [DQUOTE] ++ str s ++ [DQUOTE].
Arguments quoted s%_string.

Definition sample_context : Context :=
  {| owner := str "octo-org"; repo := str "shop"; sha := str "4f2a9c1" |}.

Definition sample_inputs : Inputs :=
  {| directory := str "."; token := str "token";
     modularguardVersion := str "latest"; configPath := None |}.

Definition sample_pulls : list Pull :=
  [ {| number := 7;
       html_url := str "https://github.com/octo-org/shop/pull/7" |};
    {| number := 8;
       html_url := str "https://github.com/octo-org/shop/pull/8" |} ].

(** One warning and no error, as in [tests/run.test.ts]. *)
Definition sample_warning : ModularGuardViolation :=
  {| severity := str "Warning";
     projectName := str "Module.App";
     invalidReference := str "Shared.Utilities";
     ruleName := str "ConfigurableRule[app]";
     description := str "Consider using Shared.Core instead";
     suggestion := None;
     documentationUrl := None;
     filePath := str "/ws/src/Module.App/Module.App.csproj";
     lineNumber := 8;
     columnNumber := 5 |}.

Definition sample_result : ModularGuardResult :=
  {| summary := {| totalModules := 2; totalProjects := 10; errorCount := 0;
                   warningCount := 1; isValid := true |};
     modules := [];
     violations := [sample_warning] |}.

(** The text the binary prints for [sample_result], and its parse. *)
Definition sample_stdout : jsstring :=
  str "{" ++ quoted "summary" ++ str ":{"
    ++ quoted "totalModules" ++ str ":2,"
    ++ quoted "totalProjects" ++ str ":10,"
    ++ quoted "errorCount" ++ str ":0,"
    ++ quoted "warningCount" ++ str ":1,"
    ++ quoted "isValid" ++ str ":true},"
    ++ quoted "modules" ++ str ":[],"
    ++ quoted "violations" ++ str ":[{"
    ++ quoted "severity" ++ str ":" ++ quoted "Warning" ++ str ","
    ++ quoted "projectName" ++ str ":" ++ quoted "Module.App" ++ str ","
    ++ quoted "invalidReference" ++ str ":" ++ quoted "Shared.Utilities"
    ++ str ","
    ++ quoted "ruleName" ++ str ":" ++ quoted "ConfigurableRule[app]"
    ++ str ","
    ++ quoted "description" ++ str ":"
    ++ quoted "Consider using Shared.Core instead" ++ str ","
    ++ quoted "filePath" ++ str ":"
    ++ quoted "/ws/src/Module.App/Module.App.csproj" ++ str ","
    ++ quoted "lineNumber" ++ str ":8,"
    ++ quoted "columnNumber" ++ str ":5}]}".

Definition sample_json : JSON :=
  JObject
    [ (str "summary",
       JObject [ (str "totalModules", JNumber 2);
                 (str "totalProjects", JNumber 10);
                 (str "errorCount", JNumber 0);
                 (str "warningCount", JNumber 1);
                 (str "isValid", JBool true) ]);
      (str "modules", JArray []);
      (str "violations",
       JArray
         [ JObject
             [ (str "severity", JString (str "Warning"));
               (str "projectName", JString (str "Module.App"));
               (str "invalidReference", JString (str "Shared.Utilities"));
               (str "ruleName", JString (str "ConfigurableRule[app]"));
               (str "description",
                JString (str "Consider using Shared.Core instead"));
               (str "filePath",
                JString (str "/ws/src/Module.App/Module.App.csproj"));
               (str "lineNumber", JNumber 8);
               (str "columnNumber", JNumber 5) ] ]) ].

(** An output with the three fields present, one of them the number 0. *)
Definition zero_field_stdout : jsstring :=
  str "{" ++ quoted "summary" ++ str ":{}," ++ quoted "modules"
    ++ str ":[]," ++ quoted "violations" ++ str ":0}".

Definition zero_field_json : JSON :=
  JObject [ (str "summary", JObject []);
            (str "modules", JArray []);
            (str "violations", JNumber 0) ].

(** [JSON.parse] on the two sample texts; no other text is parsed in the
    samples. *)
Definition sample_JSON_parse (text : jsstring) : Response JSON :=
  if jsstring_eqb text sample_stdout then inr sample_json
  else if jsstring_eqb text zero_field_stdout then inr zero_field_json
  else inl (str "Unexpected token").

(** A violation whose description holds the column delimiter. *)
Definition delimiter_violation : ModularGuardViolation :=
  {| severity := str "Error";
     projectName := str "TestProject";
     invalidReference := str "InvalidRef";
     ruleName := str "TestRule";
     description := str "Cannot reference A|B";
     suggestion := None;
     documentationUrl := None;
     filePath := str "test/path.csproj";
     lineNumber := 1;
     columnNumber := 1 |}.

(** A violation whose severity is spelled in lower case. *)
Definition lowercase_violation : ModularGuardViolation :=
  {| severity := str "error";
     projectName := str "TestProject";
     invalidReference := str "InvalidRef";
     ruleName := str "TestRule";
     description := str "Test description";
     suggestion := None;
     documentationUrl := None;
     filePath := str "test/path.csproj";
     lineNumber := 42;
     columnNumber := 10 |}.

(** A runner whose workspace is [/ws]: the commit has the given pull
    requests, the binary prints the given text and exits with code 1, and
    creating a comment fails on the pull requests selected by [refused]. *)
Definition sample_world (pulls : list Pull) (out : jsstring)
  (refused : Z -> bool) : World :=
  {| process_env := fun name =>
       if jsstring_eqb name (str "GITHUB_WORKSPACE") then Some (str "/ws")
       else if jsstring_eqb name (str "GITHUB_SERVER_URL")
       then Some (str "https://github.com")
       else if jsstring_eqb name (str "GITHUB_REPOSITORY")
       then Some (str "octo-org/shop")
       else if jsstring_eqb name (str "GITHUB_RUN_ID") then Some (str "42")
       else None;
     process_cwd := str "/ws";
     repos_listPullRequestsAssociatedWithCommit := fun _ _ _ => inr pulls;
     tool_download := fun _ => inr (str "/opt/hostedtoolcache/modularguard");
     exec_exec := fun _ _ =>
       inr {| exitCode := 1; stdout := out; stderr := [] |};
     checks_create := fun _ _ _ => inr tt;
     issues_listComments := fun _ _ _ => inr [];
     issues_updateComment := fun _ _ _ _ => inr tt;
     issues_createComment := fun _ _ n _ =>
       if refused n then inl (str "Resource not accessible by integration")
       else inr tt |}.


(** ** The context of the run ([getEnv], [getRepo], [getContext]) *)

Section Environment.

Variable w : World.
Variable JSON_parse : jsstring -> Response JSON.

(** [fs.readFile(path, 'utf-8')]: the text of the file, or the message of
    the error. *)
Variable fs_readFile : jsstring -> Response jsstring.

(** [assert(process.env[name], `${name} is required`)]: an unset variable
    and an empty one are both falsy. *)
Definition getEnv (name : jsstring) : Action jsstring :=
  match process_env w name with
  | Some value =>
      if nonempty value then ret value
      else throw (name ++ str " is required")
  | None => throw (name ++ str " is required")
  end.

Definition getRepo : Action (jsstring * jsstring) :=
  value <- getEnv (str "GITHUB_REPOSITORY") ;;
  let parts := PosixPath.split value in
  let owner := nth_error parts 0 in
  let repo := nth_error parts 1 in
  match owner with
  | Some owner =>
      if nonempty owner then
        match repo with
        | Some repo =>
            if nonempty repo then ret (owner, repo)
            else throw (str "GITHUB_REPOSITORY must have a repo part")
        | None => throw (str "GITHUB_REPOSITORY must have a repo part")
        end
      else throw (str "GITHUB_REPOSITORY must have an owner part")
  | None => throw (str "GITHUB_REPOSITORY must have an owner part")
  end.

(** [getContext]: the context, and beside it the parsed event payload. *)
Definition getContext : Action (Context * JSON) :=
  repo <- getRepo ;;
  sha <- getEnv (str "GITHUB_SHA") ;;
  eventPath <- getEnv (str "GITHUB_EVENT_PATH") ;;
  text <- await_pure (fs_readFile eventPath) ;;
  payload <- await_pure (JSON_parse text) ;;
  ret ({| owner := fst repo; repo := snd repo; sha := sha |}, payload).

End Environment.

(** ** The entry point ([src/index.ts]) *)

Section Entry.

Variable w : World.
Variable JSON_parse : jsstring -> Response JSON.
Variable path_relative : jsstring -> jsstring -> jsstring.
Variable fs_readFile : jsstring -> Response jsstring.

(** [core.getInput(name, { required })]: the value of the input (empty
    when it is not given), or the message of the error for a required input
    that is not supplied. *)
Variable core_getInput : jsstring -> bool -> Response jsstring.

(** [getOctokit()], that is [new (Octokit.plugin(retry))()]: the client is
    built, or its construction throws (no token in the environment). *)
Variable getOctokit : Response unit.

(** The [inputs] object of the entry point. *)
Definition readInputs : Action Inputs :=
  configPathInput <- await_pure (core_getInput (str "config-path") false) ;;
  directory <- await_pure (core_getInput (str "directory") false) ;;
  token <- await_pure (core_getInput (str "token") true) ;;
  version <-
    await_pure (core_getInput (str "modularguard-version") false) ;;
  ret {| directory := if nonempty directory then directory else str ".";
         token := token;
         modularguardVersion :=
           if nonempty version then version else str "latest";
         configPath :=
           if nonempty configPathInput then Some configPathInput
           else None |}.

(** The whole of [src/index.ts]. *)
Definition entry : Action unit :=
  try_catch
    (inputs <- readInputs ;;
     await_pure getOctokit ;;
     context <- getContext w JSON_parse fs_readFile ;;
     run w JSON_parse path_relative inputs (fst context))
    (fun e => core_setFailed e ;; emit (ConsoleError e)).

End Entry.

(** ** Acquiring the binary ([downloadModularGuard])

    The body of [downloadModularGuard], which [run] awaits as one call: the
    tool cache, the release lookup, the download and the extraction, over
    the events and the answers of the acquisition alone. *)

Module Download.

Inductive Platform := linux | osx | win.

Inductive Arch := x64 | arm64.

Definition platformName (p : Platform) : jsstring :=
  match p with
  | linux => str "linux"
  | osx => str "osx"
  | win => str "win"
  end.

Definition archName (a : Arch) : jsstring :=
  match a with
  | x64 => str "x64"
  | arm64 => str "arm64"
  end.

(** What the acquisition does outside the process, in program order. *)
Inductive ToolEvent :=
| ToolInfo (msg : jsstring)
| TcFind (tool version arch : jsstring)
| GetLatestRelease (owner repo : jsstring)
| DownloadTool (url : jsstring)
| ExtractZip (file : jsstring)
| ExtractTar (file : jsstring)
| Chmod (file : jsstring) (mode : Z)
| CacheDir (dir tool version arch : jsstring).

(** The runner and the services the acquisition talks to. *)
Record Toolbox := {
  process_platform : jsstring;
  process_arch : jsstring;
  (** [tc.find]: the cached directory, or the empty string; it throws
      on an empty version and when the runner has no tool cache *)
  tc_find : jsstring -> jsstring -> jsstring -> Response jsstring;
  (** the [tag_name] of the latest release *)
  repos_getLatestRelease : jsstring -> jsstring -> Response jsstring;
  tc_downloadTool : jsstring -> Response jsstring;
  tc_extractZip : jsstring -> Response jsstring;
  tc_extractTar : jsstring -> Response jsstring;
  fs_chmod : jsstring -> Z -> Response unit;
  tc_cacheDir :
    jsstring -> jsstring -> jsstring -> jsstring -> Response jsstring
}.

(** A computation of the acquisition: the events emitted, and the value
    returned or the message of the error thrown. *)
Definition Step (A : Type) : Type := (list ToolEvent * Response A)%type.

Definition done {A : Type} (a : A) : Step A := ([], inr a).

Definition fail {A : Type} (message : jsstring) : Step A :=
  ([], inl message).

Definition andThen {A B : Type} (m : Step A) (k : A -> Step B) : Step B :=
  match m with
  | (t, inr a) => let r := k a in (t ++ fst r, snd r)
  | (t, inl e) => (t, inl e)
  end.

(** [try { m } catch (error) { h error }] *)
Definition attempt {A : Type} (m : Step A) (h : jsstring -> Step A)
  : Step A :=
  match m with
  | (t, inl e) => let r := h e in (t ++ fst r, snd r)
  | other => other
  end.

Definition call {A : Type} (e : ToolEvent) (response : Response A)
  : Step A := ([e], response).

Definition info (msg : jsstring) : Step unit := ([ToolInfo msg], inr tt).

Declare Scope step_scope.
Delimit Scope step_scope with step.
Notation "x <- c1 ;; c2" := (andThen c1 (fun x => c2))
  (at level 61, c1 at next level, right associativity) : step_scope.
Notation "c1 ;; c2" := (andThen c1 (fun _ => c2))
  (at level 61, right associativity) : step_scope.

Section Acquisition.

Local Open Scope step_scope.

Variable tb : Toolbox.

(** [path.join] of the platform. *)
Variable path_join : jsstring -> jsstring -> jsstring.

Definition getPlatform : Step Platform :=
  if jsstring_eqb (process_platform tb) (str "linux") then done linux
  else if jsstring_eqb (process_platform tb) (str "darwin") then done osx
  else if jsstring_eqb (process_platform tb) (str "win32") then done win
  else fail (str "Unsupported platform: " ++ process_platform tb).

Definition getArch : Step Arch :=
  if jsstring_eqb (process_arch tb) (str "x64") then done x64
  else if jsstring_eqb (process_arch tb) (str "arm64") then done arm64
  else fail (str "Unsupported architecture: " ++ process_arch tb).

(** [tag.replace(/^v/, '')] *)
Definition stripV (tag : jsstring) : jsstring :=
  match tag with
  | c :: rest => if N.eqb c 118%N then rest else tag
  | [] => tag
  end.

(** The answer of [repos_getLatestRelease] stands for the two statements
    of the [try] block that can throw: building the client and the
    request. *)
Definition getLatestVersion : Step jsstring :=
  attempt
    (tag_name <- call (GetLatestRelease (str "n2jsoft-public-org")
                         (str "ModularGuard"))
                   (repos_getLatestRelease tb (str "n2jsoft-public-org")
                      (str "ModularGuard")) ;;
     (* Remove 'v' prefix if present *)
     done (stripV tag_name))
    (fun error =>
       fail (str "Failed to fetch latest ModularGuard version: " ++ error)).

Definition binaryNameOf (platform : Platform) : jsstring :=
  match platform with
  | win => str "modularguard.exe"
  | _ => str "modularguard"
  end.

Definition downloadUrl (platform : Platform) (arch : Arch)
  (resolvedVersion : jsstring) : jsstring :=
  let ext := match platform with win => str "zip" | _ => str "tar.gz" end in
  let filename := str "modularguard-" ++ platformName platform ++ str "-"
                    ++ archName arch ++ str "." ++ ext in
  str "https://github.com/n2jsoft-public-org/ModularGuard/releases/download/v"
    ++ resolvedVersion ++ str "/" ++ filename.

Definition downloadModularGuard (version : jsstring) : Step jsstring :=
  platform <- getPlatform ;;
  arch <- getArch ;;
  (* Check cache first *)
  cachedPath <- call (TcFind (str "modularguard") version (archName arch))
                  (tc_find tb (str "modularguard") version
                     (archName arch)) ;;
  if nonempty cachedPath then
    info (str "Using cached ModularGuard binary from " ++ cachedPath) ;;
    let binaryName := binaryNameOf platform in
    done (path_join cachedPath binaryName)
  else
    (* Resolve version if 'latest' *)
    resolvedVersion <-
      (if jsstring_eqb version (str "latest") then getLatestVersion
       else done version) ;;
    (* Build download URL *)
    let url := downloadUrl platform arch resolvedVersion in
    info (str "Downloading ModularGuard from " ++ url) ;;
    attempt
      ((* Download archive *)
       archivePath <- call (DownloadTool url) (tc_downloadTool tb url) ;;
       (* Extract archive *)
       extractedPath <-
         match platform with
         | win => call (ExtractZip archivePath) (tc_extractZip tb archivePath)
         | _ => call (ExtractTar archivePath) (tc_extractTar tb archivePath)
         end ;;
       (* Make binary executable on Unix *)
       let binaryName := binaryNameOf platform in
       let binaryPath := path_join extractedPath binaryName in
       match platform with
       | win => done tt
       | _ => call (Chmod binaryPath 493) (fs_chmod tb binaryPath 493)
       end ;;
       (* Cache for future use *)
       cachedDir <-
         call (CacheDir extractedPath (str "modularguard") resolvedVersion
                 (archName arch))
           (tc_cacheDir tb extractedPath (str "modularguard")
              resolvedVersion (archName arch)) ;;
       info (str "Cached ModularGuard binary to " ++ cachedDir) ;;
       done (path_join cachedDir binaryName))
      (fun error =>
         fail (str "Failed to download ModularGuard: " ++ error)).

End Acquisition.

End Download.

(** ** More sample data *)

(** A Linux runner on x64 with an empty tool cache; the latest release is
    tagged [v1.4.0]. *)
Definition sample_toolbox : Download.Toolbox :=
  {| Download.process_platform := str "linux";
     Download.process_arch := str "x64";
     Download.tc_find := fun _ _ _ => inr [];
     Download.repos_getLatestRelease := fun _ _ => inr (str "v1.4.0");
     Download.tc_downloadTool := fun _ => inr (str "/tmp/archive");
     Download.tc_extractZip := fun _ => inr (str "/tmp/unzipped");
     Download.tc_extractTar := fun _ => inr (str "/tmp/untarred");
     Download.fs_chmod := fun _ _ => inr tt;
     Download.tc_cacheDir := fun _ _ _ _ =>
       inr (str "/opt/hostedtoolcache/modularguard/1.4.0/x64") |}.

(** The same runner with the binary in the cache. *)
Definition cached_toolbox : Download.Toolbox :=
  {| Download.process_platform := str "linux";
     Download.process_arch := str "x64";
     Download.tc_find := fun _ _ _ =>
       inr (str "/opt/hostedtoolcache/modularguard/1.4.0/x64");
     Download.repos_getLatestRelease := fun _ _ => inr (str "v1.4.0");
     Download.tc_downloadTool := fun _ => inr (str "/tmp/archive");
     Download.tc_extractZip := fun _ => inr (str "/tmp/unzipped");
     Download.tc_extractTar := fun _ => inr (str "/tmp/untarred");
     Download.fs_chmod := fun _ _ => inr tt;
     Download.tc_cacheDir := fun _ _ _ _ =>
       inr (str "/opt/hostedtoolcache/modularguard/1.4.0/x64") |}.

(** [path.join] on two segments without dots or doubled separators. *)
Definition sample_path_join (a b : jsstring) : jsstring :=
  a ++ SLASH :: b.


(** The comments of a pull request on which the action ran before: a
    review remark, the comment of the earlier run, a comment without
    body. *)
Definition sample_comments : list Comment :=
  [ {| id := 11; body := Some (str "Looks good to me") |};
    {| id := 12; body := Some (formatComment sample_result None) |};
    {| id := 13; body := None |} ].

(** The sample runner, the pull requests having [sample_comments]. *)
Definition commented_world (pulls : list Pull) : World :=
  let w := sample_world pulls sample_stdout (fun _ => false) in
  {| process_env := process_env w;
     process_cwd := process_cwd w;
     repos_listPullRequestsAssociatedWithCommit :=
       repos_listPullRequestsAssociatedWithCommit w;
     tool_download := tool_download w;
     exec_exec := exec_exec w;
     checks_create := checks_create w;
     issues_listComments := fun _ _ _ => inr sample_comments;
     issues_updateComment := issues_updateComment w;
     issues_createComment := issues_createComment w |}.

(** The sample runner with a token that may not create check runs. *)
Definition unchecked_world (pulls : list Pull) : World :=
  let w := sample_world pulls sample_stdout (fun _ => false) in
  {| process_env := process_env w;
     process_cwd := process_cwd w;
     repos_listPullRequestsAssociatedWithCommit :=
       repos_listPullRequestsAssociatedWithCommit w;
     tool_download := tool_download w;
     exec_exec := exec_exec w;
     checks_create := fun _ _ _ =>
       inl (str "Resource not accessible by integration");
     issues_listComments := issues_listComments w;
     issues_updateComment := issues_updateComment w;
     issues_createComment := issues_createComment w |}.

(** A runner of a platform for which no binary is released. *)
Definition freebsd_toolbox : Download.Toolbox :=
  {| Download.process_platform := str "freebsd";
     Download.process_arch := str "x64";
     Download.tc_find := Download.tc_find sample_toolbox;
     Download.repos_getLatestRelease :=
       Download.repos_getLatestRelease sample_toolbox;
     Download.tc_downloadTool := Download.tc_downloadTool sample_toolbox;
     Download.tc_extractZip := Download.tc_extractZip sample_toolbox;
     Download.tc_extractTar := Download.tc_extractTar sample_toolbox;
     Download.fs_chmod := Download.fs_chmod sample_toolbox;
     Download.tc_cacheDir := Download.tc_cacheDir sample_toolbox |}.

(** The sample runner with a repository variable that names no
    repository. *)
Definition ownerless_world : World :=
  let w := sample_world [] sample_stdout (fun _ => false) in
  {| process_env := fun name =>
       if jsstring_eqb name (str "GITHUB_REPOSITORY")
       then Some (str "octo-org")
       else process_env w name;
     process_cwd := process_cwd w;
     repos_listPullRequestsAssociatedWithCommit :=
       repos_listPullRequestsAssociatedWithCommit w;
     tool_download := tool_download w;
     exec_exec := exec_exec w;
     checks_create := checks_create w;
     issues_listComments := issues_listComments w;
     issues_updateComment := issues_updateComment w;
     issues_createComment := issues_createComment w |}.

(** A result without violations, the text the binary prints for it, and
    its parse. *)
Definition clean_result : ModularGuardResult :=
  {| summary := {| totalModules := 2; totalProjects := 10; errorCount := 0;
                   warningCount := 0; isValid := true |};
     modules := [];
     violations := [] |}.

Definition clean_stdout : jsstring :=
  str "{" ++ quoted "summary" ++ str ":{"
    ++ quoted "totalModules" ++ str ":2,"
    ++ quoted "totalProjects" ++ str ":10,"
    ++ quoted "errorCount" ++ str ":0,"
    ++ quoted "warningCount" ++ str ":0,"
    ++ quoted "isValid" ++ str ":true},"
    ++ quoted "modules" ++ str ":[],"
    ++ quoted "violations" ++ str ":[]}".

Definition clean_json : JSON :=
  JObject
    [ (str "summary",
       JObject [ (str "totalModules", JNumber 2);
                 (str "totalProjects", JNumber 10);
                 (str "errorCount", JNumber 0);
                 (str "warningCount", JNumber 0);
                 (str "isValid", JBool true) ]);
      (str "modules", JArray []);
      (str "violations", JArray []) ].

Definition clean_JSON_parse (text : jsstring) : Response JSON :=
  if jsstring_eqb text clean_stdout then inr clean_json
  else sample_JSON_parse text.

(** The runner whose token may not create check runs, the binary printing
    the clean result. *)
Definition unchecked_clean_world (pulls : list Pull) : World :=
  let w := unchecked_world pulls in
  {| process_env := process_env w;
     process_cwd := process_cwd w;
     repos_listPullRequestsAssociatedWithCommit :=
       repos_listPullRequestsAssociatedWithCommit w;
     tool_download := tool_download w;
     exec_exec := fun _ _ =>
       inr {| exitCode := 0; stdout := clean_stdout; stderr := [] |};
     checks_create := checks_create w;
     issues_listComments := issues_listComments w;
     issues_updateComment := issues_updateComment w;
     issues_createComment := issues_createComment w |}.

(** The sample runner on which the comments cannot be listed. *)
Definition unlisted_world (pulls : list Pull) : World :=
  let w := sample_world pulls sample_stdout (fun _ => false) in
  {| process_env := process_env w;
     process_cwd := process_cwd w;
     repos_listPullRequestsAssociatedWithCommit :=
       repos_listPullRequestsAssociatedWithCommit w;
     tool_download := tool_download w;
     exec_exec := exec_exec w;
     checks_create := checks_create w;
     issues_listComments := fun _ _ _ => inl (str "Bad gateway");
     issues_updateComment := issues_updateComment w;
     issues_createComment := issues_createComment w |}.

(** A runner whose tool cache rejects an empty version. *)
Definition strict_toolbox : Download.Toolbox :=
  {| Download.process_platform := str "linux";
     Download.process_arch := str "x64";
     Download.tc_find := fun _ version _ =>
       if nonempty version then inr []
       else inl (str "versionSpec parameter is required");
     Download.repos_getLatestRelease :=
       Download.repos_getLatestRelease sample_toolbox;
     Download.tc_downloadTool := Download.tc_downloadTool sample_toolbox;
     Download.tc_extractZip := Download.tc_extractZip sample_toolbox;
     Download.tc_extractTar := Download.tc_extractTar sample_toolbox;
     Download.fs_chmod := Download.fs_chmod sample_toolbox;
     Download.tc_cacheDir := Download.tc_cacheDir sample_toolbox |}.

(** ** Predicates of the further statements *)

(** Whether a comment is one the action wrote: its body holds the
    marker. *)
Definition carriesMarker (comment : Comment) : bool :=
  match body comment with
  | Some b => includes b MARKER
  | None => false
  end.

(** The requests that write a comment. *)
Definition isCommentWrite (e : Event) : bool :=
  match e with
  | UpdateComment _ _ _ _ | CreateComment _ _ _ _ => true
  | _ => false
  end.

(** The requests about comments: the lookup and the two writes. *)
Definition isCommentRequest (e : Event) : bool :=
  match e with
  | ListComments _ _ _ => true
  | _ => isCommentWrite e
  end.

Definition isChecksCreate (e : Event) : bool :=
  match e with ChecksCreate _ _ _ => true | _ => false end.

(** The comment of an earlier run on a pull request, as the lookup sees
    it: the first comment of the list that carries the marker. *)
Definition ownComment (w : World) (context : Context) (pull : Pull)
  : option Comment :=
  match issues_listComments w (owner context) (repo context)
          (number pull) with
  | inr comments => find carriesMarker comments
  | inl _ => None
  end.

(** The one request that writes the comment of a pull request. *)
Definition commentWrite (w : World) (context : Context) (body : jsstring)
  (pull : Pull) : Event :=
  match ownComment w context pull with
  | Some c =>
      if (id c =? 0)%Z
      then CreateComment (owner context) (repo context) (number pull) body
      else UpdateComment (owner context) (repo context) (id c) body
  | None => CreateComment (owner context) (repo context) (number pull) body
  end.

(** The two header lines of the violations table. *)
Definition TABLE_HEADER : jsstring :=
  str "| Severity | File:Line | Project | Invalid Reference | Description |"
    ++ nl
    ++ str "|----------|-----------|---------|-------------------|-------------|"
    ++ nl.

(** The violations section of the comment: present when there is a
    violation, one row per violation. *)
Definition violationsSection (violations : list ModularGuardViolation)
  : jsstring :=
  match violations with
  | [] => []
  | _ :: _ =>
      str "### Violations" ++ nl ++ nl ++ TABLE_HEADER
        ++ concat (map tableRow violations) ++ nl
  end.

(** The violations that have a suggestion to show, each with its text. *)
Definition suggestionsOf (violations : list ModularGuardViolation)
  : list (ModularGuardViolation * jsstring) :=
  flat_map (fun v =>
              match suggestion v with
              | Some s => if nonempty s then [(v, s)] else []
              | None => []
              end) violations.

Definition suggestionText (entry : ModularGuardViolation * jsstring)
  : jsstring :=
  str "**" ++ projectName (fst entry) ++ str " " ++ RIGHT_ARROW ++ str " "
    ++ invalidReference (fst entry) ++ str "**" ++ nl
    ++ snd entry ++ nl ++ nl.

(** The collapsible suggestions section of the comment. *)
Definition suggestionsSection (violations : list ModularGuardViolation)
  : jsstring :=
  match suggestionsOf violations with
  | [] => []
  | entries =>
      str "<details>" ++ nl ++ str "<summary>" ++ LIGHT_BULB
        ++ str " Suggestions</summary>" ++ nl ++ nl
        ++ concat (map suggestionText entries)
        ++ str "</details>" ++ nl ++ nl
  end.

(** The closing link of the comment. *)
Definition linkSection (runUrl : option jsstring) : jsstring :=
  match runUrl with
  | Some url =>
      if nonempty url
      then str "---" ++ nl ++ nl ++ str "[View detailed results](" ++ url
             ++ str ")" ++ nl
      else []
  | None => []
  end.

(** The three error lines logged when the output of the binary is
    rejected. *)
Definition parseDiagnostics (r : ExecResult) : list Event :=
  [LogError (str "Failed to parse ModularGuard output");
   LogError (str "stdout: " ++ stdout r);
   LogError (str "stderr: " ++ stderr r)].

(** Whether [executeModularGuard] accepts the output of the binary. *)
Definition accepted (JSON_parse : jsstring -> Response JSON)
  (r : ExecResult) : bool :=
  match JSON_parse (stdout r) with
  | inr value => passesGate value
  | inl _ => false
  end.

Definition isExec (e : Event) : bool :=
  match e with Exec _ _ => true | _ => false end.

(** The log lines of [run] about the pull requests of the commit. *)
Definition pullLines (pulls : list Pull) : list Event :=
  if (0 <? length pulls)%nat
  then map (fun pull =>
              LogInfo (str "Associated pull request: " ++ html_url pull))
         pulls
  else [LogInfo (str "No associated pull requests found. Running analysis in non-PR mode.")].

(** The events of [run] up to the request for the binary. *)
Definition untilDownload (inputs : Inputs) (context : Context)
  (pulls : list Pull) : list Event :=
  [LogInfo (str "Finding associated pull requests...");
   ListPullRequestsAssociatedWithCommit (owner context) (repo context)
     (sha context)]
    ++ pullLines pulls
    ++ [LogInfo (str "Downloading ModularGuard binary...");
        DownloadModularGuard (modularguardVersion inputs)].

(** The events of [run] up to the end of [executeModularGuard]. *)
Definition untilExecuted (w : World)
  (JSON_parse : jsstring -> Response JSON) (inputs : Inputs)
  (context : Context) (pulls : list Pull) (binaryPath : jsstring)
  : list Event :=
  untilDownload inputs context pulls
    ++ [LogInfo (str "Binary downloaded to: " ++ binaryPath);
        LogInfo (str "Executing ModularGuard analysis...")]
    ++ trace (executeModularGuard w JSON_parse binaryPath (directory inputs)
                (configPath inputs)).


(** What the last statement of the earlier revision of [run] emits: the
    action is failed on errors only. *)
Definition earlierVerdict (result : ModularGuardResult) : list Event :=
  if (0 <? errorCount (summary result))%Z
  then [SetFailed
          (str "ModularGuard analysis failed: found "
             ++ String_of (errorCount (summary result))
             ++ str " error(s) and "
             ++ String_of (warningCount (summary result))
             ++ str " warning(s)")]
  else [].

(** The first line that the console report prints for the violation at
    position [k], counted from 0. *)
Definition violationHeadline (k : nat) (v : ModularGuardViolation)
  : Event :=
  LogInfo (String_of (Z.of_nat k + 1) ++ str ". " ++ severityIcon v
             ++ str " " ++ severity v ++ str ": " ++ ruleName v).

(** The line of the console report that locates a violation. *)
Definition violationLocation (v : ModularGuardViolation) : Event :=
  LogInfo (str "   Location:   " ++ filePath v ++ str ":"
             ++ String_of (lineNumber v) ++ str ":"
             ++ String_of (columnNumber v)).

(** The binary keeps to the schema: every value that [executeModularGuard]
    lets through in this run has the type [ModularGuardResult].  Of a run
    in which it does not, the embedding describes the events up to the cast
    only. *)
Definition SchemaRespected (w : World)
  (JSON_parse : jsstring -> Response JSON) (inputs : Inputs) : Prop :=
  forall binaryPath parsed,
    tool_download w (modularguardVersion inputs) = inr binaryPath ->
    outcome (executeModularGuard w JSON_parse binaryPath (directory inputs)
               (configPath inputs)) = Returned parsed ->
    exists result, asModularGuardResult parsed = Some result.

(** The lines that the console report prints for the violation at
    position [k], counted from 0. *)
Definition violationLines (k : nat) (v : ModularGuardViolation)
  : list Event :=
  [violationHeadline k v;
   LogInfo (str "   Project:    " ++ projectName v);
   LogInfo (str "   Reference:  " ++ invalidReference v);
   violationLocation v;
   LogInfo (str "   Message:    " ++ description v)]
    ++ match suggestion v with
       | Some sg =>
           if nonempty sg
           then [LogInfo (str "   " ++ LIGHT_BULB ++ str " Suggestion: "
                            ++ sg)]
           else []
       | None => []
       end
    ++ match documentationUrl v with
       | Some du =>
           if nonempty du
           then [LogInfo (str "   " ++ OPEN_BOOK ++ str " Documentation: "
                            ++ du)]
           else []
       | None => []
       end
    ++ [LogInfo []].

(** The elements of a list with their positions, counted from [k]. *)
Fixpoint numbered {A : Type} (k : nat) (l : list A) : list (nat * A) :=
  match l with
  | [] => []
  | x :: l' => (k, x) :: numbered (S k) l'
  end.

(** The console report of a result, line by line: the banner, the four
    counters and the status, then either the line that no violation was
    found, or the number of violations and the lines of each violation in
    the order of the result; a rule closes the report. *)
Definition consoleReport (result : ModularGuardResult) : list Event :=
  [LogInfo [];
   LogInfo RULE;
   LogInfo (BAR_CHART ++ str " MODULARGUARD ANALYSIS RESULTS");
   LogInfo RULE;
   LogInfo [];
   LogInfo (str "Total Modules:  "
              ++ String_of (totalModules (summary result)));
   LogInfo (str "Total Projects: "
              ++ String_of (totalProjects (summary result)));
   LogInfo (str "Errors:         "
              ++ String_of (errorCount (summary result)));
   LogInfo (str "Warnings:       "
              ++ String_of (warningCount (summary result)));
   LogInfo (str "Status:         "
              ++ (if isValid (summary result)
                  then CHECK_MARK ++ str " Valid"
                  else CROSS_MARK ++ str " Invalid"));
   LogInfo []]
    ++ match violations result with
       | [] =>
           [LogInfo (CHECK_MARK ++ str " No violations found!");
            LogInfo RULE]
       | _ :: _ =>
           [LogInfo (str "Found "
                       ++ String_of
                            (Z.of_nat (length (violations result)))
                       ++ str " violation(s):");
            LogInfo []]
             ++ flat_map (fun entry => violationLines (fst entry)
                                         (snd entry))
                  (numbered 0 (violations result))
             ++ [LogInfo RULE]
       end.

(** The answer to the one request that writes the comment of a pull
    request. *)
Definition commentWriteAnswer (w : World) (context : Context)
  (body : jsstring) (pull : Pull) : Response unit :=
  match ownComment w context pull with
  | Some c =>
      if (id c =? 0)%Z
      then issues_createComment w (owner context) (repo context)
             (number pull) body
      else issues_updateComment w (owner context) (repo context) (id c)
             body
  | None =>
      issues_createComment w (owner context) (repo context) (number pull)
        body
  end.

(** The verb of the error of a refused write. *)
Definition writeVerb (request : Event) : jsstring :=
  match request with
  | UpdateComment _ _ _ _ => str "update"
  | _ => str "create"
  end.

(** The events of the lookup of the existing comment of a pull request:
    the request, and the warning when it fails. *)
Definition lookupEvents (w : World) (context : Context) (pull : Pull)
  : list Event :=
  ListComments (owner context) (repo context) (number pull)
    :: match issues_listComments w (owner context) (repo context)
               (number pull) with
       | inl e => [LogWarning (str "Failed to find existing comment: " ++ e)]
       | inr _ => []
       end.

(** The line logged after the comment of a pull request is written: it
    says [updated] whenever the lookup found a comment. *)
Definition commentDone (w : World) (context : Context) (pull : Pull)
  : Event :=
  LogInfo (str "Comment "
             ++ (match ownComment w context pull with
                 | Some _ => str "updated"
                 | None => str "created"
                 end)
             ++ str " on PR #" ++ String_of (number pull)).

(** The message with which the last statement of [run] fails the
    action. *)
Definition countsMessage (result : ModularGuardResult) : jsstring :=
  str "ModularGuard analysis found "
    ++ String_of (Z.of_nat (length (violations result)))
    ++ str " violation(s): " ++ String_of (errorCount (summary result))
    ++ str " error(s) and " ++ String_of (warningCount (summary result))
    ++ str " warning(s)".

(** * Properties *)

(** ** Strings *)

Lemma jsstring_eqb_refl (s : jsstring) : jsstring_eqb s s = true.
Proof.
  induction s as [|c s IH]; simpl; [reflexivity|].
  rewrite N.eqb_refl. exact IH.
Qed.

Lemma jsstring_eqb_eq (s t : jsstring) : jsstring_eqb s t = true <-> s = t.
Proof.
  split.
  - revert t. induction s as [|c s IH]; intros [|d t] H; simpl in H;
      try discriminate; [reflexivity|].
    apply andb_true_iff in H. destruct H as [Hc Hs].
    apply N.eqb_eq in Hc. apply IH in Hs. congruence.
  - intros ->. apply jsstring_eqb_refl.
Qed.

Lemma jsstring_eqb_neq (s t : jsstring) : jsstring_eqb s t = false <-> s <> t.
Proof.
  split.
  - intros H E. apply jsstring_eqb_eq in E. congruence.
  - intros H. destruct (jsstring_eqb s t) eqn:E; [|reflexivity].
    apply jsstring_eqb_eq in E. contradiction.
Qed.

Lemma count_char_app (c : char16) (s t : jsstring) :
  count_char c (s ++ t) = count_char c s + count_char c t.
Proof. unfold count_char. rewrite filter_app, length_app. reflexivity. Qed.

Lemma count_char_cons (c d : char16) (s : jsstring) :
  count_char c (d :: s) = (if N.eqb c d then 1 else 0) + count_char c s.
Proof. unfold count_char. simpl. destruct (N.eqb c d); reflexivity. Qed.

Lemma count_char_zero (c : char16) (s : jsstring) :
  count_char c s = 0 <-> ~ In c s.
Proof.
  induction s as [|d s IH]; simpl.
  - split; [intros _ []|reflexivity].
  - rewrite count_char_cons. destruct (N.eqb_spec c d) as [->|Hne].
    + split; [discriminate|]. intros H. exfalso. apply H. now left.
    + simpl. rewrite IH. split.
      * intros H [E|Hin]; [congruence|contradiction].
      * intros H Hin. apply H. now right.
Qed.

Lemma count_char_firstn (c : char16) (n : nat) (s : jsstring) :
  count_char c (firstn n s) <= count_char c s.
Proof.
  revert n. induction s as [|d s IH]; intros [|n]; simpl;
    rewrite ?count_char_cons; try lia.
  - unfold count_char. simpl. lia.
  - specialize (IH n). lia.
Qed.

Lemma replaceAll_removes (c d : char16) (s : jsstring) :
  c <> d -> ~ In c (replaceAll c d s).
Proof.
  intros Hcd Hin. unfold replaceAll in Hin. apply in_map_iff in Hin.
  destruct Hin as [x [Hx _]]. destruct (N.eqb_spec x c); congruence.
Qed.

Lemma replaceAll_length (c d : char16) (s : jsstring) :
  length (replaceAll c d s) = length s.
Proof. apply length_map. Qed.

Lemma replaceAll_absent (c d : char16) (s : jsstring) :
  ~ In c s -> replaceAll c d s = s.
Proof.
  induction s as [|x s IH]; intros H; simpl; [reflexivity|].
  destruct (N.eqb_spec x c) as [->|_].
  - exfalso. apply H. now left.
  - f_equal. apply IH. intros Hin. apply H. now right.
Qed.

Lemma replaceAll_count_other (c d e : char16) (s : jsstring) :
  e <> c -> e <> d -> count_char e (replaceAll c d s) = count_char e s.
Proof.
  intros Hc Hd. induction s as [|x s IH]; [reflexivity|].
  simpl. rewrite !count_char_cons, IH. destruct (N.eqb_spec x c) as [->|Hx].
  - destruct (N.eqb_spec e d); [congruence|].
    destruct (N.eqb_spec e c); [congruence|reflexivity].
  - reflexivity.
Qed.

(** The loops of the formatters append one piece per element. *)
Lemma fold_left_append {A : Type} (f : A -> jsstring) (l : list A)
  (init : jsstring) :
  fold_left (fun acc x => acc ++ f x) l init = init ++ concat (map f l).
Proof.
  revert init. induction l as [|x l IH]; intros init; simpl.
  - now rewrite app_nil_r.
  - rewrite IH. now rewrite <- app_assoc.
Qed.

Lemma string_of_uint_numeral (d : Decimal.uint) :
  forallb numeral_char (str (NilEmpty.string_of_uint d)) = true.
Proof. induction d; simpl; auto. Qed.

Lemma String_of_numeral (n : Z) : forallb numeral_char (String_of n) = true.
Proof.
  unfold String_of, NilZero.string_of_int.
  destruct (Z.to_int n) as [d|d]; unfold NilZero.string_of_uint.
  - destruct d; try apply (string_of_uint_numeral (_ d)); reflexivity.
  - change (forallb numeral_char
              (45%N :: str (match d with
                            | Decimal.Nil => "0"%string
                            | _ => NilEmpty.string_of_uint d
                            end)) = true).
    simpl. destruct d; try apply (string_of_uint_numeral (_ d)); reflexivity.
Qed.

Lemma count_char_numeral (c : char16) (s : jsstring) :
  numeral_char c = false -> forallb numeral_char s = true ->
  count_char c s = 0.
Proof.
  intros Hc Hs. apply count_char_zero. intros Hin.
  rewrite forallb_forall in Hs. apply Hs in Hin. congruence.
Qed.

Lemma String_of_no_pipe (n : Z) : count_char PIPE (String_of n) = 0.
Proof.
  apply count_char_numeral; [reflexivity|apply String_of_numeral].
Qed.

Lemma In_firstn {A : Type} (n : nat) (l : list A) (x : A) :
  In x (firstn n l) -> In x l.
Proof.
  intros H. rewrite <- (firstn_skipn n l). apply in_or_app. now left.
Qed.

(** ** The markdown comment *)

Lemma formatComment_head (result : ModularGuardResult)
  (runUrl : option jsstring) :
  exists rest,
    formatComment result runUrl = commentHead (summary result) ++ rest.
Proof.
  unfold formatComment. cbv zeta.
  match goal with
  | |- context [?h ++ str "### Violations" ++ nl ++ nl] => set (hd := h)
  end.
  assert (Hhd : hd = commentHead (summary result) ++ nl).
  { subst hd. unfold commentHead, statusBadge, summaryBlock.
    destruct (0 <? errorCount (summary result))%Z;
      [|destruct (0 <? warningCount (summary result))%Z];
      repeat rewrite <- app_assoc; reflexivity. }
  clearbody hd. subst hd.
  generalize (commentHead (summary result)). intros H.
  destruct (0 <? length (violations result))%nat.
  - rewrite fold_left_append.
    destruct (0 <? length (filter _ (violations result)))%nat;
      rewrite ?fold_left_append;
      destruct runUrl as [url|];
      [destruct (nonempty url)| |destruct (nonempty url)|];
      repeat rewrite <- app_assoc; eexists; reflexivity.
  - destruct runUrl as [url|]; [destruct (nonempty url)|];
      repeat rewrite <- app_assoc; eexists; reflexivity.
Qed.

(** C6. [formatComment] starts with the hidden marker, then the heading,
    then exactly one status line chosen by priority (failed when
    [errorCount > 0], whatever the warnings; else passed-with-warnings when
    [warningCount > 0]; else passed), then the summary heading and the four
    counter lines; the three status lines are pairwise different. *)
Theorem formatComment_status_line (result : ModularGuardResult)
  (runUrl : option jsstring) :
  let s := summary result in
  (exists rest,
     formatComment result runUrl =
       (MARKER ++ nl ++ nl ++ HEADING ++ nl ++ nl
          ++ statusBadge s ++ nl ++ nl
          ++ str "### Summary" ++ nl ++ nl
          ++ str "- **Total Modules:** " ++ String_of (totalModules s) ++ nl
          ++ str "- **Total Projects:** " ++ String_of (totalProjects s) ++ nl
          ++ str "- **Errors:** " ++ String_of (errorCount s) ++ nl
          ++ str "- **Warnings:** " ++ String_of (warningCount s) ++ nl)
         ++ rest)
  /\ statusBadge s =
       (if (0 <? errorCount s)%Z then BADGE_FAILED
        else if (0 <? warningCount s)%Z then BADGE_WARNINGS
        else BADGE_PASSED)
  /\ BADGE_FAILED <> BADGE_WARNINGS
  /\ BADGE_FAILED <> BADGE_PASSED
  /\ BADGE_WARNINGS <> BADGE_PASSED.
Proof.
  intros s. split; [|repeat split; discriminate].
  destruct (formatComment_head result runUrl) as [rest Hrest].
  exists rest. rewrite Hrest. unfold commentHead, summaryBlock. subst s.
  repeat rewrite <- app_assoc. reflexivity.
Qed.

(** ** The violations table *)

Lemma descriptionCell_length (v : ModularGuardViolation) :
  length (descriptionCell v) <= 100.
Proof. unfold descriptionCell, substring0. apply firstn_le_length. Qed.

Lemma descriptionCell_no_LF (v : ModularGuardViolation) :
  ~ In LF (descriptionCell v).
Proof.
  unfold descriptionCell, substring0. intros Hin.
  apply In_firstn in Hin.
  revert Hin. apply replaceAll_removes. discriminate.
Qed.

Lemma descriptionCell_pipes (v : ModularGuardViolation) :
  count_char PIPE (descriptionCell v) <= count_char PIPE (description v).
Proof.
  unfold descriptionCell, substring0.
  etransitivity; [apply count_char_firstn|].
  rewrite replaceAll_count_other; [lia|discriminate|discriminate].
Qed.

Lemma severityIcon_no_pipe (v : ModularGuardViolation) :
  count_char PIPE (severityIcon v) = 0.
Proof. unfold severityIcon. destruct (jsstring_eqb _ _); reflexivity. Qed.

Lemma tableRow_pipes (v : ModularGuardViolation) :
  count_char PIPE (tableRow v) =
    6 + count_char PIPE (severity v) + count_char PIPE (filePath v)
      + count_char PIPE (projectName v)
      + count_char PIPE (invalidReference v)
      + count_char PIPE (descriptionCell v).
Proof.
  unfold tableRow. cbv zeta.
  repeat rewrite count_char_app.
  rewrite severityIcon_no_pipe, String_of_no_pipe.
  change (count_char PIPE (str "| ")) with 1.
  change (count_char PIPE (str " | ")) with 1.
  change (count_char PIPE (str " |")) with 1.
  change (count_char PIPE (str " ")) with 0.
  change (count_char PIPE (str ":")) with 0.
  change (count_char PIPE [BACKTICK]) with 0.
  change (count_char PIPE nl) with 0.
  lia.
Qed.

(** C7 (as amended). In every row of the violations table the description
    cell has no line feed and at most 100 code units, and holds no more
    column delimiters than the description had; the cell is followed by the
    closing delimiter of the row, which truncation therefore never removes;
    the row has six delimiters (five columns) plus one for every delimiter
    character inside the fields themselves, which are not escaped. *)
Theorem tableRow_description_cell (v : ModularGuardViolation) :
  length (descriptionCell v) <= 100
  /\ ~ In LF (descriptionCell v)
  /\ descriptionCell v =
       substring0 100 (replaceAll LF SPACE (description v))
  /\ count_char PIPE (descriptionCell v) <= count_char PIPE (description v)
  /\ (exists front,
        tableRow v = front ++ descriptionCell v ++ str " |" ++ nl)
  /\ count_char PIPE (tableRow v) =
       6 + count_char PIPE (severity v) + count_char PIPE (filePath v)
         + count_char PIPE (projectName v)
         + count_char PIPE (invalidReference v)
         + count_char PIPE (descriptionCell v).
Proof.
  split; [apply descriptionCell_length|].
  split; [apply descriptionCell_no_LF|].
  split; [reflexivity|].
  split; [apply descriptionCell_pipes|].
  split; [|apply tableRow_pipes].
  unfold tableRow. cbv zeta. eexists.
  repeat rewrite app_assoc. reflexivity.
Qed.

(** With no delimiter character inside its fields, a row has exactly the
    six delimiters of five columns. *)
Corollary tableRow_five_columns (v : ModularGuardViolation) :
  ~ In PIPE (severity v) -> ~ In PIPE (filePath v) ->
  ~ In PIPE (projectName v) -> ~ In PIPE (invalidReference v) ->
  ~ In PIPE (description v) ->
  count_char PIPE (tableRow v) = 6.
Proof.
  intros H1 H2 H3 H4 H5. rewrite tableRow_pipes.
  apply count_char_zero in H1, H2, H3, H4, H5.
  pose proof (descriptionCell_pipes v). lia.
Qed.

(** Every row of the table of [formatComment] is a [tableRow]. *)
Lemma formatComment_rows (result : ModularGuardResult)
  (runUrl : option jsstring) :
  violations result <> [] ->
  exists front back,
    formatComment result runUrl =
      front ++ concat (map tableRow (violations result)) ++ back.
Proof.
  intros Hne. unfold formatComment. cbv zeta.
  destruct (violations result) as [|v vs] eqn:Hvs; [contradiction|].
  change (0 <? length (v :: vs))%nat with true. cbv iota.
  rewrite !fold_left_append.
  match goal with
  | |- context [?i ++ concat (map tableRow _)] => generalize i
  end.
  intros front.
  destruct (0 <? length (filter _ (v :: vs)))%nat;
    rewrite ?fold_left_append;
    destruct runUrl as [url|];
    [destruct (nonempty url)| |destruct (nonempty url)|];
    repeat rewrite <- app_assoc; exists front; eexists; reflexivity.
Qed.

(** ** Severity: icon and annotation level *)

Lemma toLowerCase_idempotent (s : jsstring) :
  toLowerCase (toLowerCase s) = toLowerCase s.
Proof.
  unfold toLowerCase. rewrite map_map. apply map_ext. intros c.
  destruct ((65 <=? c)%N && (c <=? 90)%N) eqn:E; [|now rewrite E].
  apply andb_true_iff in E. destruct E as [E1 E2].
  apply N.leb_le in E1, E2.
  replace ((c + 32 <=? 90)%N) with false; [now rewrite andb_false_r|].
  symmetry. apply N.leb_gt. lia.
Qed.

(** The annotation level depends on the severity up to letter case only. *)
Lemma mapSeverityToLevel_case_insensitive (s t : jsstring) :
  toLowerCase s = toLowerCase t ->
  mapSeverityToLevel s = mapSeverityToLevel t.
Proof. unfold mapSeverityToLevel. cbv zeta. intros ->. reflexivity. Qed.

(** C10. The icon of a violation, in its row of the markdown table and in
    its line of the console report, is chosen by comparing the severity
    with [Error] exactly: the red circle for [Error] and for nothing else,
    the warning sign, which is another symbol, for every other severity.
    The comparison is case-sensitive, so [error] gets the warning sign,
    although its annotation level, which is computed on the lower-cased
    severity, is [failure]. *)
Theorem severity_icon_exact_match (v : ModularGuardViolation) (i : Z) :
  RED_CIRCLE <> WARNING_SIGN
  /\ (severityIcon v = RED_CIRCLE <-> severity v = str "Error")
  /\ (severityIcon v = WARNING_SIGN <-> severity v <> str "Error")
  /\ (exists rest,
        tableRow v =
          str "| " ++ severityIcon v ++ str " " ++ severity v ++ rest)
  /\ (exists rest,
        trace (printViolation v i) =
          LogInfo (String_of (i + 1) ++ str ". " ++ severityIcon v
                     ++ str " " ++ severity v ++ str ": " ++ ruleName v)
            :: rest)
  /\ (severity v = str "Error" ->
      (exists rest,
         tableRow v = str "| " ++ RED_CIRCLE ++ str " Error" ++ rest)
      /\ exists rest,
           trace (printViolation v i) =
             LogInfo (String_of (i + 1) ++ str ". " ++ RED_CIRCLE
                        ++ str " Error: " ++ ruleName v) :: rest)
  /\ (severity v <> str "Error" ->
      (exists rest,
         tableRow v =
           str "| " ++ WARNING_SIGN ++ str " " ++ severity v ++ rest)
      /\ exists rest,
           trace (printViolation v i) =
             LogInfo (String_of (i + 1) ++ str ". " ++ WARNING_SIGN
                        ++ str " " ++ severity v ++ str ": " ++ ruleName v)
               :: rest)
  /\ str "error" <> str "Error"
  /\ str "Warning" <> str "Error"
  /\ str "Info" <> str "Error"
  /\ (forall s, mapSeverityToLevel (toLowerCase s) = mapSeverityToLevel s)
  /\ mapSeverityToLevel (str "Error") = failure
  /\ mapSeverityToLevel (str "error") = failure
  /\ mapSeverityToLevel (str "ERROR") = failure
  /\ mapSeverityToLevel (str "Warning") = warning
  /\ mapSeverityToLevel (str "WARNING") = warning
  /\ mapSeverityToLevel (str "Info") = notice.
Proof.
  assert (Hrow : exists rest,
             tableRow v =
               str "| " ++ severityIcon v ++ str " " ++ severity v ++ rest).
  { unfold tableRow. cbv zeta. eexists.
    repeat rewrite <- app_assoc. reflexivity. }
  assert (Hline : exists rest,
             trace (printViolation v i) =
               LogInfo (String_of (i + 1) ++ str ". " ++ severityIcon v
                          ++ str " " ++ severity v ++ str ": " ++ ruleName v)
                 :: rest).
  { unfold printViolation, severityIcon. cbv zeta.
    unfold core_info at 1. unfold emit, bind, trace at 1.
    eexists. reflexivity. }
  assert (Hred : severityIcon v = RED_CIRCLE <-> severity v = str "Error").
  { unfold severityIcon.
    destruct (jsstring_eqb (severity v) (str "Error")) eqn:E.
    - apply jsstring_eqb_eq in E. tauto.
    - apply jsstring_eqb_neq in E. split; [discriminate|contradiction]. }
  assert (Hwarning :
            severityIcon v = WARNING_SIGN <-> severity v <> str "Error").
  { unfold severityIcon.
    destruct (jsstring_eqb (severity v) (str "Error")) eqn:E.
    - apply jsstring_eqb_eq in E. split; [discriminate|contradiction].
    - apply jsstring_eqb_neq in E. tauto. }
  split; [discriminate|].
  split; [exact Hred|]. split; [exact Hwarning|].
  split; [exact Hrow|]. split; [exact Hline|].
  split.
  { intros Herror. apply Hred in Herror as Hicon.
    rewrite Hicon, Herror in Hrow, Hline.
    destruct Hrow as [rest1 Hrow]. destruct Hline as [rest2 Hline].
    split; [exists rest1|exists rest2].
    - rewrite Hrow. repeat rewrite <- app_assoc. reflexivity.
    - rewrite Hline. repeat rewrite <- app_assoc. reflexivity. }
  split.
  { intros Hother. apply Hwarning in Hother as Hicon.
    rewrite Hicon in Hrow, Hline. split; assumption. }
  split; [discriminate|]. split; [discriminate|]. split; [discriminate|].
  split.
  { intros s. apply mapSeverityToLevel_case_insensitive.
    apply toLowerCase_idempotent. }
  repeat split; reflexivity.
Qed.

(** ** The check run *)

Lemma createCheckRun_trace (w : World) (owner repo headSha : jsstring)
  (result : ModularGuardResult) :
  trace (createCheckRun w owner repo headSha result) =
    [ChecksCreate owner repo (checkRunPayload headSha result)].
Proof.
  unfold createCheckRun, await, try_catch, trace. cbv zeta.
  destruct (checks_create w owner repo _); reflexivity.
Qed.

(** C4. [createCheckRun] sends one request whose annotation list holds the
    first 50 violations, so [min (number of violations) 50] annotations;
    its summary text is the text for all results followed, when there are
    more than 50 violations and only then, by the one sentence that gives
    the number of violations beyond 50. *)
Theorem createCheckRun_annotation_cap (w : World)
  (owner repo headSha : jsstring) (result : ModularGuardResult) :
  let n := length (violations result) in
  exists payload,
    trace (createCheckRun w owner repo headSha result) =
      [ChecksCreate owner repo payload]
    /\ output_annotations payload =
         map toAnnotation (firstn 50 (violations result))
    /\ length (output_annotations payload) = Nat.min n 50
    /\ output_summary payload =
         checkRunSummaryBase result
           ++ (if (50 <? n)%nat
               then nl ++ nl ++ WARNING_SIGN
                      ++ str " Note: Only showing the first 50 annotations. "
                      ++ String_of (Z.of_nat n - 50)
                      ++ str " additional violation(s) not shown."
               else []).
Proof.
  intros n. exists (checkRunPayload headSha result).
  split; [apply createCheckRun_trace|].
  split; [reflexivity|].
  split.
  - change (output_annotations (checkRunPayload headSha result))
      with (map toAnnotation (firstn 50 (violations result))).
    rewrite length_map, length_firstn. subst n. lia.
  - unfold checkRunPayload, output_summary. cbv zeta. subst n.
    destruct (50 <? length (violations result))%nat.
    + reflexivity.
    + now rewrite app_nil_r.
Qed.

(** ** Computations *)

Lemma action_eta {A : Type} (m : Action A) : m = (trace m, outcome m).
Proof. now destruct m. Qed.

Lemma trace_bind {A B : Type} (m : Action A) (k : A -> Action B) :
  trace (bind m k) =
    trace m ++ match outcome m with
               | Returned a => trace (k a)
               | _ => []
               end.
Proof.
  destruct m as [t [a|e|]]; simpl; [reflexivity| |];
    now rewrite app_nil_r.
Qed.

Lemma outcome_bind {A B : Type} (m : Action A) (k : A -> Action B) :
  outcome (bind m k) =
    match outcome m with
    | Returned a => outcome (k a)
    | Thrown e => Thrown e
    | OutsideSchema => OutsideSchema
    end.
Proof. destruct m as [t [a|e|]]; reflexivity. Qed.

Lemma bind_Returned {A B : Type} (m : Action A) (k : A -> Action B)
  (t : list Event) (a : A) :
  m = (t, Returned a) -> bind m k = (t ++ trace (k a), outcome (k a)).
Proof. intros ->. reflexivity. Qed.

Lemma bind_Thrown {A B : Type} (m : Action A) (k : A -> Action B)
  (t : list Event) (e : jsstring) :
  m = (t, Thrown e) -> bind m k = (t, Thrown e).
Proof. intros ->. reflexivity. Qed.

Lemma bind_emit {B : Type} (e : Event) (k : unit -> Action B) :
  bind (emit e) k = (e :: trace (k tt), outcome (k tt)).
Proof. reflexivity. Qed.

Lemma bind_core_info {B : Type} (msg : jsstring) (k : unit -> Action B) :
  bind (core_info msg) k = (LogInfo msg :: trace (k tt), outcome (k tt)).
Proof. reflexivity. Qed.

Lemma trace_pair {A : Type} (t : list Event) (o : Outcome A) :
  trace (t, o) = t.
Proof. reflexivity. Qed.

Lemma outcome_pair {A : Type} (t : list Event) (o : Outcome A) :
  outcome (t, o) = o.
Proof. reflexivity. Qed.

(** *** Which events a computation can emit *)

Lemma onlyEvents_ret {A : Type} (P : Event -> bool) (a : A) :
  onlyEvents P (ret a).
Proof. reflexivity. Qed.

Lemma onlyEvents_throw {A : Type} (P : Event -> bool) (msg : jsstring) :
  onlyEvents P (@throw A msg).
Proof. reflexivity. Qed.

Lemma onlyEvents_emit (P : Event -> bool) (e : Event) :
  P e = true -> onlyEvents P (emit e).
Proof. unfold onlyEvents. simpl. now intros ->. Qed.

Lemma onlyEvents_await {A : Type} (P : Event -> bool) (call : Event)
  (response : Response A) :
  P call = true -> onlyEvents P (await call response).
Proof. unfold onlyEvents. simpl. now intros ->. Qed.

Lemma onlyEvents_await_pure {A : Type} (P : Event -> bool)
  (response : Response A) :
  onlyEvents P (await_pure response).
Proof. reflexivity. Qed.

Lemma onlyEvents_bind {A B : Type} (P : Event -> bool) (m : Action A)
  (k : A -> Action B) :
  onlyEvents P m -> (forall a, onlyEvents P (k a)) -> onlyEvents P (bind m k).
Proof.
  unfold onlyEvents. intros Hm Hk. rewrite trace_bind, forallb_app, Hm.
  destruct (outcome m); [apply Hk|reflexivity|reflexivity].
Qed.

Lemma onlyEvents_try_catch {A : Type} (P : Event -> bool) (m : Action A)
  (h : jsstring -> Action A) :
  onlyEvents P m -> (forall e, onlyEvents P (h e)) ->
  onlyEvents P (try_catch m h).
Proof.
  unfold onlyEvents. intros Hm Hh. destruct m as [t [a|e|]]; simpl in *;
    try exact Hm.
  rewrite forallb_app, Hm. apply Hh.
Qed.

Lemma onlyEvents_for_of {A : Type} (P : Event -> bool) (l : list A)
  (body : A -> Action unit) :
  (forall x, onlyEvents P (body x)) -> onlyEvents P (for_of l body).
Proof.
  intros Hb. induction l as [|x l IH]; simpl.
  - reflexivity.
  - apply onlyEvents_bind; [apply Hb|intros _; exact IH].
Qed.

Lemma onlyEvents_forEach_from {A : Type} (P : Event -> bool) (l : list A)
  (body : A -> Z -> Action unit) (i : Z) :
  (forall x j, onlyEvents P (body x j)) ->
  onlyEvents P (forEach_from i l body).
Proof.
  intros Hb. revert i. induction l as [|x l IH]; intros i; simpl.
  - reflexivity.
  - apply onlyEvents_bind; [apply Hb|intros _; apply IH].
Qed.

Lemma onlyEvents_weaken {A : Type} (P Q : Event -> bool) (m : Action A) :
  (forall e, P e = true -> Q e = true) -> onlyEvents P m -> onlyEvents Q m.
Proof.
  unfold onlyEvents. intros HPQ H. rewrite forallb_forall in *.
  intros e He. apply HPQ, H, He.
Qed.

Create HintDb events.
#[export] Hint Resolve onlyEvents_ret onlyEvents_throw onlyEvents_await_pure
  : events.

(** Decomposes a computation into its emissions and calls. *)
Ltac only_events :=
  repeat
    (cbv zeta;
     match goal with
     | |- onlyEvents _ (bind _ _) => apply onlyEvents_bind; [|intros ?]
     | |- onlyEvents _ (try_catch _ _) =>
         apply onlyEvents_try_catch; [|intros ?]
     | |- onlyEvents _ (for_of _ _) => apply onlyEvents_for_of; intros ?
     | |- onlyEvents _ (forEach_from _ _ _) =>
         apply onlyEvents_forEach_from; intros ? ?
     | |- onlyEvents _ (emit _) => apply onlyEvents_emit; reflexivity
     | |- onlyEvents _ (core_info _) => apply onlyEvents_emit; reflexivity
     | |- onlyEvents _ (core_debug _) => apply onlyEvents_emit; reflexivity
     | |- onlyEvents _ (core_warning _) => apply onlyEvents_emit; reflexivity
     | |- onlyEvents _ (core_error _) => apply onlyEvents_emit; reflexivity
     | |- onlyEvents _ (core_setOutput _ _) =>
         apply onlyEvents_emit; reflexivity
     | |- onlyEvents _ (core_setFailed _) =>
         apply onlyEvents_emit; reflexivity
     | |- onlyEvents _ (await _ _) => apply onlyEvents_await; reflexivity
     | |- onlyEvents _ (if ?c then _ else _) => destruct c
     | |- onlyEvents _ (match ?x with _ => _ end) => destruct x
     | |- _ => solve [auto with events]
     end).

(** *** Always-returning computations *)

Lemma for_of_info {A : Type} (f : A -> jsstring) (l : list A) :
  for_of l (fun x => core_info (f x)) =
    (map (fun x => LogInfo (f x)) l, Returned tt).
Proof.
  induction l as [|x l IH]; [reflexivity|].
  cbn [for_of map]. rewrite bind_core_info, IH. reflexivity.
Qed.

Lemma printViolation_returns (v : ModularGuardViolation) (i : Z) :
  outcome (printViolation v i) = Returned tt.
Proof.
  unfold printViolation. cbv zeta.
  repeat (rewrite outcome_bind; simpl).
  destruct (suggestion v) as [sg|]; [destruct (nonempty sg)|];
    destruct (documentationUrl v) as [du|]; try destruct (nonempty du);
    reflexivity.
Qed.

Lemma forEach_printViolation_returns (vs : list ModularGuardViolation)
  (i : Z) :
  outcome (forEach_from i vs printViolation) = Returned tt.
Proof.
  revert i. induction vs as [|v vs IH]; intros i; [reflexivity|].
  cbn [forEach_from]. rewrite outcome_bind, printViolation_returns. apply IH.
Qed.

Lemma printViolationsToConsole_returns (result : ModularGuardResult) :
  outcome (printViolationsToConsole result) = Returned tt.
Proof.
  unfold printViolationsToConsole. cbv zeta.
  repeat (rewrite outcome_bind; simpl).
  destruct (length (violations result) =? 0)%nat.
  - reflexivity.
  - repeat (rewrite outcome_bind; simpl).
    now rewrite forEach_printViolation_returns.
Qed.

Lemma printViolationsToConsole_logs (result : ModularGuardResult) :
  onlyEvents (fun e => match e with LogInfo _ => true | _ => false end)
    (printViolationsToConsole result).
Proof. unfold printViolationsToConsole, printViolation. only_events. Qed.

Lemma trace_try_catch {A : Type} (m : Action A) (h : jsstring -> Action A) :
  trace (try_catch m h) =
    trace m ++ match outcome m with
               | Thrown e => trace (h e)
               | _ => []
               end.
Proof.
  destruct m as [t [a|e|]]; simpl; [|reflexivity|];
    now rewrite app_nil_r.
Qed.

Lemma outcome_try_catch {A : Type} (m : Action A)
  (h : jsstring -> Action A) :
  outcome (try_catch m h) =
    match outcome m with
    | Thrown e => outcome (h e)
    | other => other
    end.
Proof. destruct m as [t [a|e|]]; reflexivity. Qed.

(** ** Executing the binary and validating its output *)

Section ExecuteModularGuard.

Variable w : World.
Variable JSON_parse : jsstring -> Response JSON.
Variables binaryPath directory : jsstring.
Variable configPath : option jsstring.

Lemma parseAndValidate_outcome (out : jsstring) :
  parseAndValidate JSON_parse out =
    ([], match JSON_parse out with
         | inl e => Thrown e
         | inr value =>
             if passesGate value then Returned value
             else Thrown (gateMessage value)
         end).
Proof.
  unfold parseAndValidate, await_pure, passesGate, gateMessage.
  destruct (JSON_parse out) as [e|value]; [reflexivity|].
  unfold bind, trace, outcome. cbn [fst snd app].
  destruct value; try reflexivity;
    destruct (truthy (getProp _ (str "summary")));
    destruct (truthy (getProp _ (str "modules")));
    destruct (truthy (getProp _ (str "violations")));
    reflexivity.
Qed.

(** How [executeModularGuard] ends, case by case. *)
Lemma executeModularGuard_outcome :
  outcome (executeModularGuard w JSON_parse binaryPath directory configPath) =
    match exec_exec w binaryPath (execArgs directory configPath) with
    | inl e => Thrown (str "Failed to execute ModularGuard: " ++ e)
    | inr r =>
        if negb (nonempty (stdout r))
        then Thrown (str "ModularGuard produced no output")
        else
          match JSON_parse (stdout r) with
          | inl e => Thrown (str "Failed to parse ModularGuard output: " ++ e)
          | inr value =>
              if passesGate value then Returned value
              else Thrown (str "Failed to parse ModularGuard output: "
                             ++ gateMessage value)
          end
    end.
Proof.
  unfold executeModularGuard. cbv zeta.
  assert (Hargs :
            match configPath with
            | Some c =>
                if nonempty c
                then [str "check"; directory; str "--format"; str "json";
                      str "--quiet"] ++ [str "--config"; c]
                else [str "check"; directory; str "--format"; str "json";
                      str "--quiet"]
            | None => [str "check"; directory; str "--format"; str "json";
                       str "--quiet"]
            end = execArgs directory configPath).
  { unfold execArgs. destruct configPath as [c|]; [destruct (nonempty c)|];
      reflexivity. }
  rewrite Hargs. clear Hargs.
  destruct (exec_exec w binaryPath (execArgs directory configPath))
    as [e|r]; [reflexivity|].
  rewrite outcome_bind.
  assert (Hfirst :
            outcome
              (try_catch
                 (r0 <- await (Exec binaryPath (execArgs directory configPath))
                          (inr r) ;;
                  core_debug (str "ModularGuard exit code: "
                                ++ String_of (exitCode r0)) ;;
                  (if nonempty (stderr r0)
                   then core_debug (str "ModularGuard stderr: " ++ stderr r0)
                   else ret tt) ;;
                  ret r0)
                 (fun error =>
                    throw (str "Failed to execute ModularGuard: " ++ error)))
            = Returned r).
  { unfold await, bind, core_debug, emit, ret, try_catch, trace, outcome.
    cbn [fst snd]. destruct (nonempty (stderr r)); reflexivity. }
  rewrite Hfirst.
  destruct (nonempty (stdout r)); [|reflexivity].
  cbn [negb]. rewrite parseAndValidate_outcome.
  unfold try_catch, outcome.
  destruct (JSON_parse (stdout r)) as [e|value]; [reflexivity|].
  destruct (passesGate value); reflexivity.
Qed.

(** [executeModularGuard] emits the subprocess call and log lines only. *)
Lemma executeModularGuard_events :
  onlyEvents isPreparation
    (executeModularGuard w JSON_parse binaryPath directory configPath).
Proof.
  unfold executeModularGuard. only_events.
  rewrite parseAndValidate_outcome. reflexivity.
Qed.

End ExecuteModularGuard.

Example sample_json_typed : asModularGuardResult sample_json = Some sample_result.
Proof. vm_compute. reflexivity. Qed.

Example sample_stdout_parsed :
  sample_JSON_parse sample_stdout = inr sample_json
  /\ sample_JSON_parse zero_field_stdout = inr zero_field_json.
Proof. split; vm_compute; reflexivity. Qed.

Lemma passesGate_false_iff (value : JSON) :
  passesGate value = false <->
  value = JNull
  \/ truthy (getProp value (str "summary")) = false
  \/ truthy (getProp value (str "modules")) = false
  \/ truthy (getProp value (str "violations")) = false.
Proof.
  unfold passesGate. split.
  - destruct value; auto;
      intros H; apply andb_false_iff in H; destruct H as [H|H]; auto;
      apply andb_false_iff in H; destruct H as [H|H]; auto.
  - intros [->|[H|[H|H]]]; [reflexivity| | |]; destruct value;
      try reflexivity; rewrite H; now rewrite ?andb_false_r.
Qed.

(** C3 (as amended). [executeModularGuard] throws if and only if the
    subprocess cannot be executed, or its stdout is empty, or its stdout is
    not parseable as JSON, or the parsed value is [null], or one of the
    fields [summary], [modules], [violations] is missing or falsy ([null],
    [false], [0], the empty string); in every other case it returns the
    parsed value.  The exit code plays no part. *)
Theorem executeModularGuard_throws_iff (w : World)
  (JSON_parse : jsstring -> Response JSON) (binaryPath directory : jsstring)
  (configPath : option jsstring) :
  let call := executeModularGuard w JSON_parse binaryPath directory
                configPath in
  let answer := exec_exec w binaryPath (execArgs directory configPath) in
  ((exists message, outcome call = Thrown message) <->
     (exists e, answer = inl e)
     \/ (exists r, answer = inr r
           /\ (stdout r = []
               \/ (exists e, JSON_parse (stdout r) = inl e)
               \/ (exists value, JSON_parse (stdout r) = inr value
                     /\ (value = JNull
                         \/ truthy (getProp value (str "summary")) = false
                         \/ truthy (getProp value (str "modules")) = false
                         \/ truthy (getProp value (str "violations"))
                            = false)))))
  /\ (forall r value,
        answer = inr r -> stdout r <> [] ->
        JSON_parse (stdout r) = inr value ->
        value <> JNull ->
        truthy (getProp value (str "summary")) = true ->
        truthy (getProp value (str "modules")) = true ->
        truthy (getProp value (str "violations")) = true ->
        outcome call = Returned value)
  /\ outcome call <> OutsideSchema.
Proof.
  intros call answer. subst call.
  rewrite executeModularGuard_outcome. fold answer.
  destruct answer as [e|r].
  { split; [|split].
    - split; [intros _; left; now exists e|intros _; eexists; reflexivity].
    - intros r value H. discriminate.
    - discriminate. }
  destruct (stdout r) as [|c out] eqn:Hout.
  { split; [|split].
    - split; [|intros _; eexists; reflexivity].
      intros _. right. exists r. rewrite Hout. auto.
    - intros r' value H. injection H as <-. rewrite Hout. congruence.
    - discriminate. }
  cbn [nonempty negb].
  destruct (JSON_parse (c :: out)) as [e|value] eqn:Hparse.
  { split; [|split].
    - split; [|intros _; eexists; reflexivity].
      intros _. right. exists r. split; [reflexivity|].
      rewrite Hout. right. left. now exists e.
    - intros r' value H. injection H as <-. rewrite Hout, Hparse.
      discriminate.
    - discriminate. }
  destruct (passesGate value) eqn:Hgate.
  - split; [|split].
    + split; [intros [m Hm]; discriminate|].
      intros [[e He]|[r' [Hr' H]]]; [discriminate|].
      injection Hr' as <-. rewrite Hout, Hparse in H.
      destruct H as [H|[[e He]|[value' [Hv H]]]]; try discriminate.
      injection Hv as <-. apply passesGate_false_iff in H. congruence.
    + intros r' value' H. injection H as <-. rewrite Hout, Hparse.
      intros _ Hv. injection Hv as <-. reflexivity.
    + discriminate.
  - split; [|split].
    + split; [|intros _; eexists; reflexivity].
      intros _. right. exists r. split; [reflexivity|].
      rewrite Hout. right. right. exists value. split; [exact Hparse|].
      now apply passesGate_false_iff.
    + intros r' value' H. injection H as <-. rewrite Hout, Hparse.
      intros _ Hv. injection Hv as <-. intros Hn H1 H2 H3.
      assert (Hfalse : passesGate value = true).
      { unfold passesGate. rewrite H1, H2, H3.
        destruct value; [congruence|reflexivity..]. }
      congruence.
    + discriminate.
Qed.

(** C3, counterexample.  The binary prints a JSON object in which
    [summary], [modules] and [violations] are all present, [violations]
    being the number 0: the text is not empty, it parses, no field is
    lacking, and [executeModularGuard] throws. *)
Lemma executeModularGuard_present_fields_rejected :
  let w := sample_world [] zero_field_stdout (fun _ => false) in
  exec_exec w (str "/opt/hostedtoolcache/modularguard")
    (execArgs (str ".") None)
  = inr {| exitCode := 1; stdout := zero_field_stdout; stderr := [] |}
  /\ zero_field_stdout <> []
  /\ sample_JSON_parse zero_field_stdout = inr zero_field_json
  /\ getProp zero_field_json (str "summary") = Some (JObject [])
  /\ getProp zero_field_json (str "modules") = Some (JArray [])
  /\ getProp zero_field_json (str "violations") = Some (JNumber 0)
  /\ outcome (executeModularGuard w sample_JSON_parse
                (str "/opt/hostedtoolcache/modularguard") (str ".") None)
     = Thrown (str "Failed to parse ModularGuard output: Invalid ModularGuard output: missing required fields").
Proof.
  cbv zeta. repeat split; try discriminate; vm_compute; reflexivity.
Qed.

(** ** Publication *)

Section Publication.

Variable w : World.
Variable context : Context.
Variable result : ModularGuardResult.

Lemma findExistingComment_returns (owner repo : jsstring) (n : Z) :
  exists found,
    outcome (findExistingComment w owner repo n) = Returned found.
Proof.
  unfold findExistingComment, await, try_catch, bind, outcome. cbv zeta.
  destruct (issues_listComments w owner repo n) as [e|comments];
    cbn [snd]; eexists; reflexivity.
Qed.

Lemma findExistingComment_lookup_failure (owner repo : jsstring) (n : Z)
  (e : jsstring) :
  issues_listComments w owner repo n = inl e ->
  findExistingComment w owner repo n =
    ([ListComments owner repo n;
      LogWarning (str "Failed to find existing comment: " ++ e)],
     Returned None).
Proof. intros H. unfold findExistingComment. rewrite H. reflexivity. Qed.

Lemma findExistingComment_events (owner repo : jsstring) (n : Z) :
  onlyEvents isPublishing (findExistingComment w owner repo n).
Proof. unfold findExistingComment. only_events. Qed.

Lemma createOrUpdateComment_events (owner repo : jsstring) (n : Z)
  (body : jsstring) (existing : option Z) :
  onlyEvents isPublishing
    (createOrUpdateComment w owner repo n body existing).
Proof. unfold createOrUpdateComment. only_events. Qed.

(** What [createOrUpdateComment] does, by the answer to its one request. *)
Lemma createOrUpdateComment_cases (owner repo : jsstring) (n : Z)
  (body : jsstring) (existing : option Z) :
  createOrUpdateComment w owner repo n body existing =
    match existing with
    | Some i =>
        if negb (i =? 0)%Z
        then ([UpdateComment owner repo i body],
              match issues_updateComment w owner repo i body with
              | inl e => Thrown (str "Failed to update comment: " ++ e)
              | inr u => Returned u
              end)
        else ([CreateComment owner repo n body],
              match issues_createComment w owner repo n body with
              | inl e => Thrown (str "Failed to create comment: " ++ e)
              | inr u => Returned u
              end)
    | None =>
        ([CreateComment owner repo n body],
         match issues_createComment w owner repo n body with
         | inl e => Thrown (str "Failed to create comment: " ++ e)
         | inr u => Returned u
         end)
    end.
Proof.
  unfold createOrUpdateComment, truthy_id.
  destruct existing as [i|]; [destruct (negb (i =? 0)%Z)|];
    unfold await, try_catch;
    match goal with
    | |- context [match ?r with inl _ => _ | inr _ => _ end] => destruct r
    end; reflexivity.
Qed.

Lemma publishComment_events (pull : Pull) :
  onlyEvents isPublishing (publishComment w context result pull).
Proof.
  unfold publishComment. only_events.
  - apply findExistingComment_events.
  - apply createOrUpdateComment_events.
Qed.

Lemma createCheckRun_events (owner repo headSha : jsstring) :
  onlyEvents isPublishing (createCheckRun w owner repo headSha result).
Proof. unfold createCheckRun. only_events. Qed.

Lemma publish_events (pulls : list Pull) :
  onlyEvents isPublishing (publish w context pulls result).
Proof.
  unfold publish. only_events.
  - apply createCheckRun_events.
  - apply publishComment_events.
Qed.

(** Outside a pull-request context the publication step only logs. *)
Lemma publish_no_pull_request :
  publish w context [] result =
    ([LogInfo (str "Skipping PR comments and check runs (not in PR context)")],
     Returned tt).
Proof. reflexivity. Qed.

Hypothesis Hok : PublicationSucceeds w context.

Lemma createCheckRun_succeeds (headSha : jsstring) :
  outcome (createCheckRun w (owner context) (repo context) headSha result)
  = Returned tt.
Proof.
  destruct Hok as [Hc _]. unfold createCheckRun. cbv zeta. rewrite Hc.
  reflexivity.
Qed.

Lemma publishComment_succeeds (pull : Pull) :
  outcome (publishComment w context result pull) = Returned tt.
Proof.
  destruct Hok as [_ [Hcreate Hupdate]]. unfold publishComment.
  rewrite outcome_bind.
  destruct (findExistingComment_returns (owner context) (repo context)
              (number pull)) as [found ->].
  cbv zeta. rewrite outcome_bind, createOrUpdateComment_cases.
  destruct found as [i|]; [destruct (negb (i =? 0)%Z)|];
    rewrite ?Hcreate, ?Hupdate; reflexivity.
Qed.

Lemma for_of_publishComment_succeeds (pulls : list Pull) :
  outcome (for_of pulls (publishComment w context result))
  = Returned tt.
Proof.
  induction pulls as [|pull pulls IH]; [reflexivity|].
  cbn [for_of]. rewrite outcome_bind, publishComment_succeeds. exact IH.
Qed.

Lemma publish_succeeds (pulls : list Pull) :
  outcome (publish w context pulls result) = Returned tt.
Proof.
  unfold publish. cbv zeta. destruct (0 <? length pulls)%nat; [|reflexivity].
  rewrite outcome_bind. cbn [core_info emit outcome snd].
  rewrite outcome_bind, createCheckRun_succeeds.
  rewrite outcome_bind. cbn [core_info emit outcome snd].
  apply for_of_publishComment_succeeds.
Qed.

End Publication.

(** ** The run *)

Section Run.

Variable w : World.
Variable JSON_parse : jsstring -> Response JSON.
Variable path_relative : jsstring -> jsstring -> jsstring.
Variable inputs : Inputs.
Variable context : Context.

(** [run] is the sequence of its named steps. *)
Lemma run_steps :
  run w JSON_parse path_relative inputs context =
    (core_info (str "Finding associated pull requests...") ;;
     pulls <- await
                (ListPullRequestsAssociatedWithCommit (owner context)
                   (repo context) (sha context))
                (repos_listPullRequestsAssociatedWithCommit w (owner context)
                   (repo context) (sha context)) ;;
     (if (0 <? length pulls)%nat
      then for_of pulls (fun pull =>
             core_info (str "Associated pull request: " ++ html_url pull))
      else core_info (str "No associated pull requests found. Running analysis in non-PR mode.")) ;;
     core_info (str "Downloading ModularGuard binary...") ;;
     binaryPath <- downloadModularGuard w (modularguardVersion inputs) ;;
     core_info (str "Binary downloaded to: " ++ binaryPath) ;;
     core_info (str "Executing ModularGuard analysis...") ;;
     parsed <- executeModularGuard w JSON_parse binaryPath (directory inputs)
                 (configPath inputs) ;;
     result <- typed parsed ;;
     core_info (str "Analysis complete:") ;;
     core_info (str "  Total modules: "
                  ++ String_of (totalModules (summary result))) ;;
     core_info (str "  Total projects: "
                  ++ String_of (totalProjects (summary result))) ;;
     core_info (str "  Errors: " ++ String_of (errorCount (summary result))) ;;
     core_info (str "  Warnings: "
                  ++ String_of (warningCount (summary result))) ;;
     printViolationsToConsole (relativize w path_relative result) ;;
     publish w context pulls (relativize w path_relative result) ;;
     setOutputs result ;;
     decideOutcome result).
Proof. reflexivity. Qed.

Variable pulls : list Pull.
Variable result : ModularGuardResult.

Hypothesis Hpulls :
  repos_listPullRequestsAssociatedWithCommit w (owner context)
    (repo context) (sha context) = inr pulls.
Hypothesis Hresult : analysisResult w JSON_parse inputs = Some result.

Lemma run_after_analysis :
  exists binaryPath,
    tool_download w (modularguardVersion inputs) = inr binaryPath
    /\ run w JSON_parse path_relative inputs context =
         bind (preparation w JSON_parse inputs context pulls binaryPath result, Returned tt)
           (fun _ =>
              printViolationsToConsole (relativize w path_relative result) ;;
              publish w context pulls (relativize w path_relative result) ;;
              setOutputs result ;;
              decideOutcome result).
Proof.
  unfold analysisResult in Hresult.
  destruct (tool_download w (modularguardVersion inputs))
    as [e|binaryPath] eqn:Hdl; [discriminate|].
  destruct (outcome (executeModularGuard w JSON_parse binaryPath
                       (directory inputs) (configPath inputs)))
    as [parsed|e|] eqn:Hexec; try discriminate.
  exists binaryPath. split; [reflexivity|].
  rewrite run_steps.
  unfold downloadModularGuard, await. rewrite Hpulls, Hdl.
  unfold preparation.
  cbn [bind core_info emit trace outcome fst snd].
  destruct (0 <? length pulls)%nat; rewrite ?for_of_info;
    cbn [bind core_info emit trace outcome fst snd];
    rewrite trace_bind, outcome_bind, Hexec;
    unfold typed; rewrite Hresult;
    cbn [bind ret core_info emit trace outcome fst snd];
    repeat first [rewrite <- app_assoc | rewrite <- app_comm_cons];
    cbn [app]; reflexivity.
Qed.

Lemma preparation_events (binaryPath : jsstring) :
  forallb isPreparation
    (preparation w JSON_parse inputs context pulls binaryPath result) = true.
Proof.
  unfold preparation. rewrite !forallb_app.
  rewrite (executeModularGuard_events w JSON_parse binaryPath
             (directory inputs) (configPath inputs)).
  destruct (0 <? length pulls)%nat; [|reflexivity].
  cbn [forallb isPreparation andb].
  rewrite andb_true_r. apply forallb_forall. intros e He.
  apply in_map_iff in He. destruct He as [pull [<- _]]. reflexivity.
Qed.

(** A run whose analysis gives a result and whose publication step returns
    goes through all its steps and returns. *)
Lemma run_returns :
  outcome (publish w context pulls (relativize w path_relative result))
  = Returned tt ->
  exists binaryPath,
    tool_download w (modularguardVersion inputs) = inr binaryPath
    /\ run w JSON_parse path_relative inputs context =
         (preparation w JSON_parse inputs context pulls binaryPath result
            ++ trace (printViolationsToConsole
                        (relativize w path_relative result))
            ++ trace (publish w context pulls
                        (relativize w path_relative result))
            ++ trace (setOutputs result)
            ++ [verdict result],
          Returned tt).
Proof.
  intros Hpub. destruct run_after_analysis as [binaryPath [Hdl Hrun]].
  exists binaryPath. split; [exact Hdl|]. rewrite Hrun.
  rewrite (bind_Returned _ _ _ tt eq_refl). f_equal.
  - f_equal.
    rewrite trace_bind, printViolationsToConsole_returns. f_equal.
    rewrite trace_bind, Hpub. f_equal.
    rewrite trace_bind. f_equal.
    unfold decideOutcome, verdict, FAILURE_MESSAGE.
    destruct (0 <? length (violations result))%nat; reflexivity.
  - rewrite outcome_bind, printViolationsToConsole_returns.
    rewrite outcome_bind, Hpub. rewrite outcome_bind.
    unfold decideOutcome.
    destruct (0 <? length (violations result))%nat; reflexivity.
Qed.

End Run.

Lemma forallb_weaken {A : Type} (P Q : A -> bool) (l : list A) :
  (forall x, P x = true -> Q x = true) ->
  forallb P l = true -> forallb Q l = true.
Proof.
  intros HPQ H. rewrite forallb_forall in *. intros x Hx. apply HPQ, H, Hx.
Qed.

Lemma setOutputs_trace (result : ModularGuardResult) :
  trace (setOutputs result) =
    [SetOutput (str "violations-count")
       (String_of (Z.of_nat (length (violations result))));
     SetOutput (str "error-count") (String_of (errorCount (summary result)));
     SetOutput (str "warning-count")
       (String_of (warningCount (summary result)));
     SetOutput (str "status")
       (if (0 <? errorCount (summary result))%Z
        then str "failure" else str "success")].
Proof. reflexivity. Qed.

(** The sample runner obtains [sample_result]. *)
Example sample_analysis (pulls : list Pull) (refused : Z -> bool) :
  analysisResult (sample_world pulls sample_stdout refused) sample_JSON_parse
    sample_inputs = Some sample_result.
Proof. vm_compute. reflexivity. Qed.

Example sample_publication (pulls : list Pull) (out : jsstring) :
  PublicationSucceeds (sample_world pulls out (fun _ => false))
    sample_context.
Proof. repeat split. Qed.

(** The publication step returns or throws. *)
Lemma publish_outcome_cases (w : World) (context : Context)
  (pulls : list Pull) (result : ModularGuardResult) :
  outcome (publish w context pulls result) = Returned tt
  \/ exists e, outcome (publish w context pulls result) = Thrown e.
Proof.
  assert (Hcomment : forall pull,
             outcome (publishComment w context result pull) = Returned tt
             \/ exists e,
                 outcome (publishComment w context result pull) = Thrown e).
  { intros pull. unfold publishComment. rewrite outcome_bind.
    destruct (findExistingComment_returns w (owner context) (repo context)
                (number pull)) as [found ->].
    cbv zeta. rewrite outcome_bind, createOrUpdateComment_cases.
    destruct found as [i|]; [destruct (negb (i =? 0)%Z)|];
      cbn [outcome snd];
      match goal with
      | |- context [match ?r with inl _ => _ | inr _ => _ end] =>
          destruct r as [e|[]]
      end; eauto. }
  assert (Hloop : forall l,
             outcome (for_of l (publishComment w context result))
             = Returned tt
             \/ exists e,
                 outcome (for_of l (publishComment w context result))
                 = Thrown e).
  { induction l as [|pull l IH]; [now left|].
    cbn [for_of]. rewrite outcome_bind.
    destruct (Hcomment pull) as [->|[e ->]]; [exact IH|eauto]. }
  unfold publish. cbv zeta.
  destruct (0 <? length pulls)%nat; [|now left].
  rewrite outcome_bind. cbn [core_info emit outcome snd].
  rewrite outcome_bind.
  assert (Hcheck :
            outcome (createCheckRun w (owner context) (repo context)
                       (sha context) result)
            = match checks_create w (owner context) (repo context)
                      (checkRunPayload (sha context) result) with
              | inl e => Thrown (str "Failed to create check run: " ++ e)
              | inr u => Returned u
              end).
  { unfold createCheckRun, await, try_catch. cbv zeta.
    destruct (checks_create w (owner context) (repo context)
                (checkRunPayload (sha context) result)); reflexivity. }
  rewrite Hcheck.
  destruct (checks_create w (owner context) (repo context)
              (checkRunPayload (sha context) result)) as [e|[]].
  - right. eexists. reflexivity.
  - rewrite outcome_bind. cbn [core_info emit outcome snd]. apply Hloop.
Qed.


Lemma publish_check_run (w : World) (context : Context) (pulls : list Pull)
  (result : ModularGuardResult) :
  pulls <> [] ->
  In (ChecksCreate (owner context) (repo context)
        (checkRunPayload (sha context) result))
    (trace (publish w context pulls result)).
Proof.
  intros Hne. unfold publish. cbv zeta.
  destruct pulls as [|pull pulls]; [contradiction|].
  cbn [length Nat.ltb Nat.leb].
  rewrite bind_core_info. cbn [trace fst].
  right. rewrite trace_bind, createCheckRun_trace. left. reflexivity.
Qed.

(** C5. The conclusion of the check run and the [status] output depend on
    the error count alone: in a run that obtains an analysis result and
    completes its publication step, the check run (sent when the commit has
    a pull request) concludes [failure] when [errorCount > 0] and [success]
    otherwise, and the one [status] output of the run is [failure] when
    [errorCount > 0] and [success] otherwise; the warning count enters
    neither. *)
Theorem conclusion_and_status_by_error_count (w : World)
  (JSON_parse : jsstring -> Response JSON)
  (path_relative : jsstring -> jsstring -> jsstring)
  (inputs : Inputs) (context : Context) (pulls : list Pull)
  (result : ModularGuardResult) :
  repos_listPullRequestsAssociatedWithCommit w (owner context)
    (repo context) (sha context) = inr pulls ->
  analysisResult w JSON_parse inputs = Some result ->
  PublicationSucceeds w context ->
  let events := trace (run w JSON_parse path_relative inputs context) in
  let payload :=
    checkRunPayload (sha context) (relativize w path_relative result) in
  (pulls <> [] -> In (ChecksCreate (owner context) (repo context) payload)
                    events)
  /\ conclusion payload =
       (if (0 <? errorCount (summary result))%Z
        then conclusion_failure else conclusion_success)
  /\ In (SetOutput (str "status")
           (if (0 <? errorCount (summary result))%Z
            then str "failure" else str "success")) events
  /\ (forall value,
        In (SetOutput (str "status") value) events ->
        value = (if (0 <? errorCount (summary result))%Z
                 then str "failure" else str "success")).
Proof.
  intros Hpulls Hresult Hok events payload.
  destruct (run_returns w JSON_parse path_relative inputs context pulls
              result Hpulls Hresult) as [binaryPath [_ Hrun]].
  { apply publish_succeeds, Hok. }
  subst events. rewrite Hrun. unfold trace at 1 3 5. cbn [fst].
  split; [|split; [reflexivity|split]].
  - intros Hne. do 2 (apply in_or_app; right). apply in_or_app. left.
    apply publish_check_run, Hne.
  - do 3 (apply in_or_app; right). apply in_or_app. left.
    rewrite setOutputs_trace. do 3 right. left. reflexivity.
  - intros value Hin.
    apply in_app_or in Hin. destruct Hin as [Hin|Hin].
    { pose proof (preparation_events w JSON_parse inputs context pulls
                    result binaryPath) as H.
      rewrite forallb_forall in H. apply H in Hin. discriminate. }
    apply in_app_or in Hin. destruct Hin as [Hin|Hin].
    { pose proof (printViolationsToConsole_logs
                    (relativize w path_relative result)) as H.
      unfold onlyEvents in H.
      rewrite forallb_forall in H. apply H in Hin. discriminate. }
    apply in_app_or in Hin. destruct Hin as [Hin|Hin].
    { pose proof (publish_events w context
                    (relativize w path_relative result) pulls) as H.
      unfold onlyEvents in H.
      rewrite forallb_forall in H. apply H in Hin. discriminate. }
    apply in_app_or in Hin. destruct Hin as [Hin|Hin].
    { rewrite setOutputs_trace in Hin.
      destruct Hin as [H|[H|[H|[H|[]]]]]; try discriminate.
      injection H as <-. reflexivity. }
    unfold verdict in Hin.
    destruct (0 <? length (violations result))%nat;
      destruct Hin as [H|[]]; discriminate.
Qed.

(** C5, witness: two pull requests, one warning and no error: the check
    run concludes [success] and the [status] output is [success]. *)
Lemma conclusion_and_status_by_error_count_witness :
  let w := sample_world sample_pulls sample_stdout (fun _ => false) in
  let events :=
    trace (run w sample_JSON_parse (PosixPath.relative (str "/ws"))
             sample_inputs sample_context) in
  let payload :=
    checkRunPayload (sha sample_context)
      (relativize w (PosixPath.relative (str "/ws")) sample_result) in
  repos_listPullRequestsAssociatedWithCommit w (owner sample_context)
    (repo sample_context) (sha sample_context) = inr sample_pulls
  /\ analysisResult w sample_JSON_parse sample_inputs = Some sample_result
  /\ PublicationSucceeds w sample_context
  /\ warningCount (summary sample_result) = 1%Z
  /\ In (ChecksCreate (owner sample_context) (repo sample_context) payload)
       events
  /\ conclusion payload = conclusion_success
  /\ In (SetOutput (str "status") (str "success")) events
  /\ (forall value,
        In (SetOutput (str "status") value) events ->
        value = str "success").
Proof.
  intros w events payload.
  split; [reflexivity|].
  split; [apply sample_analysis|].
  split; [apply sample_publication|].
  split; [reflexivity|].
  destruct (conclusion_and_status_by_error_count w sample_JSON_parse
              (PosixPath.relative (str "/ws")) sample_inputs sample_context
              sample_pulls sample_result eq_refl
              (sample_analysis sample_pulls (fun _ => false))
              (sample_publication sample_pulls sample_stdout))
    as [Hcheck [Hconclusion [Hstatus Honly]]].
  split; [apply Hcheck; discriminate|].
  split; [exact Hconclusion|].
  split; [exact Hstatus|exact Honly].
Defined.

(** ** The comment loop *)

(** When [publishComment] throws, it is the create or update request that
    was refused, and the request is the last event. *)
Lemma publishComment_throws (w : World) (context : Context)
  (result : ModularGuardResult) (pull : Pull) (message : jsstring) :
  outcome (publishComment w context result pull) = Thrown message ->
  exists e,
    (message = str "Failed to create comment: " ++ e
     \/ message = str "Failed to update comment: " ++ e)
    /\ exists front request,
         trace (publishComment w context result pull) = front ++ [request]
         /\ isPublication request = true.
Proof.
  unfold publishComment. rewrite outcome_bind, trace_bind.
  destruct (findExistingComment_returns w (owner context) (repo context)
              (number pull)) as [found ->].
  cbv zeta. rewrite outcome_bind, trace_bind, createOrUpdateComment_cases.
  set (front := trace (findExistingComment w (owner context) (repo context)
                         (number pull))).
  destruct found as [i|]; [destruct (negb (i =? 0)%Z)|];
    cbn [outcome trace fst snd];
    match goal with
    | |- context [match ?r with inl _ => _ | inr _ => _ end] =>
        destruct r as [e|[]]
    end;
    intros H; try discriminate; injection H as <-;
    exists e; (split; [auto|]);
    exists front; eexists; (split; [reflexivity|reflexivity]).
Qed.

(** C9, counterexample.  The commit has the pull requests 7 and 8, and the
    request that creates the comment on 7 is refused.  The error is not
    caught: the run throws it, no request is ever made about the comments of
    pull request 8, and the outputs of the action are not set. *)
Lemma comment_failure_stops_loop :
  let w := sample_world sample_pulls sample_stdout (fun n => (n =? 7)%Z) in
  let r := run w sample_JSON_parse (PosixPath.relative (str "/ws"))
             sample_inputs sample_context in
  map number sample_pulls = [7%Z; 8%Z]
  /\ existsb (aboutPull 7) (trace r) = true
  /\ existsb (aboutPull 8) (trace r) = false
  /\ existsb isSetOutput (trace r) = false
  /\ outcome r =
       Thrown (str "Failed to create comment: Resource not accessible by integration").
Proof. cbv zeta. repeat split; vm_compute; reflexivity. Qed.

(** ** Path rewriting *)

Lemma toWorkspaceRelativePath_no_backslash
  (path_relative : jsstring -> jsstring -> jsstring)
  (absolutePath workspaceRoot : jsstring) :
  ~ In BACKSLASH
      (toWorkspaceRelativePath path_relative absolutePath workspaceRoot).
Proof.
  unfold toWorkspaceRelativePath. cbv zeta. apply replaceAll_removes.
  discriminate.
Qed.

(** *** Segments *)

Lemma split_not_nil (s : jsstring) : PosixPath.split s <> [].
Proof.
  destruct s as [|c s]; cbn [PosixPath.split]; [discriminate|].
  destruct (N.eqb c SLASH); [discriminate|].
  destruct (PosixPath.split s); discriminate.
Qed.

Lemma split_app_slash (a b : jsstring) :
  PosixPath.split (a ++ SLASH :: b) = PosixPath.split a ++ PosixPath.split b.
Proof.
  induction a as [|c a IH]; cbn [app PosixPath.split].
  - rewrite N.eqb_refl. reflexivity.
  - destruct (N.eqb c SLASH).
    + rewrite IH. reflexivity.
    + rewrite IH. pose proof (split_not_nil a) as Hne.
      destruct (PosixPath.split a) as [|seg rest]; [contradiction|].
      reflexivity.
Qed.

Lemma split_slash_free (s : jsstring) :
  Forall (fun seg => ~ In SLASH seg) (PosixPath.split s).
Proof.
  induction s as [|c s IH]; cbn [PosixPath.split].
  - constructor; [intros []|constructor].
  - destruct (N.eqb_spec c SLASH) as [->|Hc].
    + constructor; [intros []|exact IH].
    + destruct (PosixPath.split s) as [|seg rest].
      * constructor; [|constructor]. intros [H|[]]. congruence.
      * inversion IH as [|? ? Hseg Hrest]; subst.
        constructor; [|exact Hrest].
        intros [H|H]; [congruence|contradiction].
Qed.

Lemma split_segment (seg : jsstring) :
  ~ In SLASH seg -> PosixPath.split seg = [seg].
Proof.
  induction seg as [|c seg IH]; intros H; cbn [PosixPath.split].
  - reflexivity.
  - destruct (N.eqb_spec c SLASH) as [->|_].
    + exfalso. apply H. now left.
    + rewrite IH; [reflexivity|]. intros Hin. apply H. now right.
Qed.

Lemma split_join (segments : list jsstring) :
  segments <> [] ->
  Forall (fun seg => ~ In SLASH seg) segments ->
  PosixPath.split (PosixPath.join segments) = segments.
Proof.
  induction segments as [|seg rest IH]; intros Hne Hfree; [contradiction|].
  inversion Hfree as [|? ? Hseg Hrest]; subst.
  destruct rest as [|seg' rest].
  - cbn [PosixPath.join]. now apply split_segment.
  - change (PosixPath.join (seg :: seg' :: rest))
      with (seg ++ SLASH :: PosixPath.join (seg' :: rest)).
    rewrite split_app_slash, split_segment by exact Hseg.
    rewrite IH; [reflexivity|discriminate|exact Hrest].
Qed.

(** *** Normalization *)

Lemma normalizeStep_normal (kept : list jsstring) (seg : jsstring) :
  isNormal seg = true -> PosixPath.normalizeStep kept seg = seg :: kept.
Proof.
  unfold isNormal, PosixPath.normalizeStep. intros H.
  apply negb_true_iff in H. apply orb_false_iff in H. destruct H as [H ->].
  now rewrite H.
Qed.

Lemma normalize_normal_segments (segments kept : list jsstring) :
  forallb isNormal segments = true ->
  fold_left PosixPath.normalizeStep segments kept = rev segments ++ kept.
Proof.
  revert kept. induction segments as [|seg rest IH]; intros kept H;
    cbn [fold_left rev app]; [reflexivity|].
  cbn [forallb] in H. apply andb_true_iff in H. destruct H as [Hseg Hrest].
  rewrite normalizeStep_normal by exact Hseg.
  rewrite IH by exact Hrest. rewrite <- app_assoc. reflexivity.
Qed.

Lemma normalize_climbs {A : Type} (l : list A) (kept : list jsstring) :
  fold_left PosixPath.normalizeStep (map (fun _ => PosixPath.DOTDOT) l) kept
  = skipn (length l) kept.
Proof.
  revert kept. induction l as [|x l IH]; intros kept;
    cbn [map fold_left length skipn]; [reflexivity|].
  change (PosixPath.normalizeStep kept PosixPath.DOTDOT) with (tl kept).
  rewrite IH. destruct kept as [|k kept]; cbn [tl skipn];
    [now rewrite skipn_nil|reflexivity].
Qed.

(** The segments kept by normalization are normal and come from the
    input. *)
Lemma normalize_invariant (P : jsstring -> Prop)
  (segments kept : list jsstring) :
  Forall P segments ->
  Forall (fun seg => isNormal seg = true /\ P seg) kept ->
  Forall (fun seg => isNormal seg = true /\ P seg)
    (fold_left PosixPath.normalizeStep segments kept).
Proof.
  revert kept. induction segments as [|seg rest IH]; intros kept Hs Hk;
    cbn [fold_left]; [exact Hk|].
  inversion Hs as [|? ? Hseg Hrest]; subst.
  apply IH; [exact Hrest|].
  unfold PosixPath.normalizeStep.
  destruct (jsstring_eqb seg [] || jsstring_eqb seg PosixPath.DOT) eqn:E1;
    [exact Hk|].
  destruct (jsstring_eqb seg PosixPath.DOTDOT) eqn:E2.
  - destruct kept as [|k kept]; [constructor|].
    inversion Hk; subst. assumption.
  - constructor; [|exact Hk]. split; [|exact Hseg].
    unfold isNormal. now rewrite E1, E2.
Qed.

Lemma resolve_segments (cwd p : jsstring) :
  Forall (fun seg => isNormal seg = true /\ ~ In SLASH seg)
    (PosixPath.resolve cwd p).
Proof.
  unfold PosixPath.resolve, PosixPath.normalize. cbv zeta.
  apply Forall_rev.
  apply (normalize_invariant (fun seg => ~ In SLASH seg));
    [apply split_slash_free|constructor].
Qed.

(** *** Common leading segments *)

Lemma stripCommon_app (common from to : list jsstring) :
  PosixPath.stripCommon (common ++ from) (common ++ to)
  = PosixPath.stripCommon from to.
Proof.
  induction common as [|seg common IH]; cbn [app PosixPath.stripCommon];
    [reflexivity|].
  now rewrite jsstring_eqb_refl.
Qed.

Lemma stripCommon_spec (from to : list jsstring) :
  exists common,
    from = common ++ fst (PosixPath.stripCommon from to)
    /\ to = common ++ snd (PosixPath.stripCommon from to).
Proof.
  revert to. induction from as [|a from IH]; intros to.
  - exists []. split; reflexivity.
  - destruct to as [|b to]; [exists []; split; reflexivity|].
    cbn [PosixPath.stripCommon].
    destruct (jsstring_eqb a b) eqn:E.
    + apply jsstring_eqb_eq in E. subst b.
      destruct (IH to) as [common [Hf Ht]].
      exists (a :: common). cbn [app]. split; congruence.
    + exists []. split; reflexivity.
Qed.

Lemma stripCommon_fixed (from to : list jsstring) :
  PosixPath.stripCommon (fst (PosixPath.stripCommon from to))
    (snd (PosixPath.stripCommon from to))
  = PosixPath.stripCommon from to.
Proof.
  revert to. induction from as [|a from IH]; intros to; [reflexivity|].
  destruct to as [|b to]; [reflexivity|].
  cbn [PosixPath.stripCommon].
  destruct (jsstring_eqb a b) eqn:E; [apply IH|].
  cbn [fst snd PosixPath.stripCommon]. now rewrite E.
Qed.

Lemma stripCommon_same (l : list jsstring) :
  PosixPath.stripCommon l l = ([], []).
Proof.
  induction l as [|a l IH]; cbn [PosixPath.stripCommon]; [reflexivity|].
  now rewrite jsstring_eqb_refl.
Qed.

(** What remains of two paths after their common part is never the same,
    unless nothing remains. *)
Lemma stripCommon_differ (from to : list jsstring) :
  fst (PosixPath.stripCommon from to) = snd (PosixPath.stripCommon from to) ->
  PosixPath.stripCommon from to = ([], []).
Proof.
  intros H. rewrite <- stripCommon_fixed.
  rewrite H. apply stripCommon_same.
Qed.

(** *** Resolving the output of [relative] against the current directory *)

Lemma resolve_current_directory (cwd : jsstring) :
  PosixPath.resolve cwd []
  = rev (fold_left PosixPath.normalizeStep (PosixPath.split cwd) []).
Proof.
  unfold PosixPath.resolve, PosixPath.normalize. cbv zeta.
  cbn [nonempty startsWith app].
  rewrite split_app_slash, fold_left_app. reflexivity.
Qed.

Lemma join_cons_shape (seg : jsstring) (rest : list jsstring) :
  exists tail, PosixPath.join (seg :: rest) = seg ++ tail.
Proof.
  destruct rest as [|seg' rest].
  - exists []. cbn [PosixPath.join]. now rewrite app_nil_r.
  - eexists. reflexivity.
Qed.

(** A relative path made of the climbing segments and normal segments
    resolves to the current directory, climbed and then extended. *)
Lemma resolve_joined (cwd : jsstring) (climb rest : list jsstring) :
  Forall (fun seg => isNormal seg = true /\ ~ In SLASH seg) rest ->
  climb ++ rest <> [] ->
  PosixPath.resolve cwd
    (PosixPath.join (map (fun _ => PosixPath.DOTDOT) climb ++ rest))
  = rev (skipn (length climb)
           (fold_left PosixPath.normalizeStep (PosixPath.split cwd) []))
      ++ rest.
Proof.
  intros Hrest Hne.
  set (segments := map (fun _ => PosixPath.DOTDOT) climb ++ rest).
  assert (Hfree : Forall (fun seg => ~ In SLASH seg) segments).
  { apply Forall_app. split.
    - apply Forall_forall. intros seg Hin. apply in_map_iff in Hin.
      destruct Hin as [x [<- _]]. intros [H|[H|[]]]; discriminate.
    - eapply Forall_impl; [|exact Hrest]. intros seg [_ H]. exact H. }
  assert (Hsegments : segments <> []).
  { subst segments. destruct climb; [exact Hne|discriminate]. }
  assert (Hhead : exists c tail,
             PosixPath.join segments = c :: tail /\ c <> SLASH).
  { destruct segments as [|seg segs] eqn:E; [contradiction|].
    assert (Hseg : seg <> [] /\ ~ In SLASH seg).
    { inversion Hfree as [|? ? Hs _]; subst. split; [|exact Hs].
      subst segments. destruct climb as [|x climb]; cbn [map app] in E.
      - destruct rest as [|r rest]; [discriminate|].
        injection E as <- _. inversion Hrest as [|? ? [Hn _] _]; subst.
        intros ->. discriminate.
      - injection E as <- _. discriminate. }
    destruct Hseg as [Hnonempty Hslash].
    destruct (join_cons_shape seg segs) as [tail ->].
    destruct seg as [|c seg]; [contradiction|].
    exists c, (seg ++ tail). split; [reflexivity|].
    intros ->. apply Hslash. now left. }
  destruct Hhead as [c [tail [Hjoin Hc]]].
  unfold PosixPath.resolve, PosixPath.normalize. cbv zeta.
  rewrite Hjoin. cbn [nonempty startsWith].
  apply N.eqb_neq in Hc. rewrite N.eqb_sym in Hc.
  change (N.eqb SLASH c) with (SLASH =? c)%N. rewrite Hc. cbn [andb].
  rewrite <- Hjoin.
  change (cwd ++ [SLASH] ++ PosixPath.join segments ++ [SLASH])
    with (cwd ++ SLASH :: (PosixPath.join segments ++ SLASH :: [])).
  rewrite !split_app_slash, (split_join segments Hsegments Hfree).
  rewrite !fold_left_app. cbn [PosixPath.split fold_left].
  change (PosixPath.normalizeStep ?k []) with k.
  subst segments. rewrite fold_left_app, normalize_climbs.
  rewrite normalize_normal_segments.
  - rewrite rev_app_distr, rev_involutive. reflexivity.
  - apply forallb_forall. intros seg Hin.
    rewrite Forall_forall in Hrest. apply Hrest, Hin.
Qed.

(** [relative] returns its own output unchanged when the path it starts
    from is the current directory. *)
Lemma relative_idempotent (cwd root p : jsstring) :
  PosixPath.resolve cwd root = PosixPath.resolve cwd [] ->
  PosixPath.relative cwd root (PosixPath.relative cwd root p)
  = PosixPath.relative cwd root p.
Proof.
  intros Hroot.
  assert (Hempty : PosixPath.relative cwd root [] = []).
  { unfold PosixPath.relative. destruct (jsstring_eqb root []);
      [reflexivity|].
    rewrite Hroot, stripCommon_same. reflexivity. }
  unfold PosixPath.relative at 2 3.
  destruct (jsstring_eqb root p); [exact Hempty|].
  destruct (PosixPath.stripCommon (PosixPath.resolve cwd root)
              (PosixPath.resolve cwd p)) as [climb rest] eqn:Hstrip.
  destruct (stripCommon_spec (PosixPath.resolve cwd root)
              (PosixPath.resolve cwd p)) as [common [Hfrom Hto]].
  rewrite Hstrip in Hfrom, Hto. cbn [fst snd] in Hfrom, Hto.
  destruct (climb ++ rest) as [|s0 l0] eqn:Hnil.
  { apply app_eq_nil in Hnil. destruct Hnil as [-> ->]. exact Hempty. }
  assert (Hne : climb ++ rest <> []) by (rewrite Hnil; discriminate).
  clear Hnil s0 l0.
  assert (Hrest : Forall (fun seg => isNormal seg = true /\ ~ In SLASH seg)
                    rest).
  { pose proof (resolve_segments cwd p) as H. rewrite Hto in H.
    apply Forall_app in H. apply H. }
  pose proof (resolve_joined cwd climb rest Hrest Hne) as Hresolve.
  assert (Hkept : fold_left PosixPath.normalizeStep (PosixPath.split cwd) []
                  = rev climb ++ rev common).
  { rewrite <- rev_app_distr, <- Hfrom, Hroot, resolve_current_directory.
    now rewrite rev_involutive. }
  rewrite Hkept, <- (length_rev climb), skipn_app, skipn_all in Hresolve.
  rewrite Nat.sub_diag in Hresolve. cbn [skipn app] in Hresolve.
  rewrite rev_involutive in Hresolve.
  set (o := PosixPath.join (map (fun _ => PosixPath.DOTDOT) climb ++ rest))
    in *.
  unfold PosixPath.relative.
  destruct (jsstring_eqb root o) eqn:Heq.
  - apply jsstring_eqb_eq in Heq. exfalso.
    rewrite <- Heq, Hfrom in Hresolve. apply app_inv_head in Hresolve.
    pose proof (stripCommon_differ (PosixPath.resolve cwd root)
                  (PosixPath.resolve cwd p)) as H.
    rewrite Hstrip in H. cbn [fst snd] in H. specialize (H Hresolve).
    injection H as -> ->. contradiction.
  - rewrite Hresolve. rewrite Hfrom at 1. rewrite stripCommon_app.
    pose proof (stripCommon_fixed (PosixPath.resolve cwd root)
                  (PosixPath.resolve cwd p)) as H.
    rewrite Hstrip in H. cbn [fst snd] in H. rewrite H. reflexivity.
Qed.

(** *** Where the code units of a relative path come from *)

Lemma split_without (c : char16) (s : jsstring) :
  ~ In c s -> Forall (fun seg => ~ In c seg) (PosixPath.split s).
Proof.
  induction s as [|d s IH]; intros H; cbn [PosixPath.split].
  - constructor; [intros []|constructor].
  - assert (Hs : ~ In c s) by (intros Hin; apply H; now right).
    assert (Hd : d <> c) by (intros ->; apply H; now left).
    specialize (IH Hs).
    destruct (N.eqb d SLASH).
    + constructor; [intros []|exact IH].
    + destruct (PosixPath.split s) as [|seg rest].
      * constructor; [|constructor]. intros [E|[]]. congruence.
      * inversion IH as [|? ? Hseg Hrest]; subst.
        constructor; [|exact Hrest].
        intros [E|Hin]; [congruence|contradiction].
Qed.

Lemma join_without (c : char16) (segments : list jsstring) :
  c <> SLASH -> Forall (fun seg => ~ In c seg) segments ->
  ~ In c (PosixPath.join segments).
Proof.
  intros Hc. induction segments as [|seg rest IH]; intros H;
    [intros []|].
  inversion H as [|? ? Hseg Hrest]; subst.
  destruct rest as [|seg' rest]; [exact Hseg|].
  change (PosixPath.join (seg :: seg' :: rest))
    with (seg ++ SLASH :: PosixPath.join (seg' :: rest)).
  intros Hin. apply in_app_or in Hin.
  destruct Hin as [Hin|[E|Hin]]; [contradiction|congruence|].
  revert Hin. apply IH, Hrest.
Qed.

Lemma resolve_without (c : char16) (cwd p : jsstring) :
  c <> SLASH -> ~ In c cwd -> ~ In c p ->
  Forall (fun seg => ~ In c seg) (PosixPath.resolve cwd p).
Proof.
  intros Hc Hcwd Hp.
  assert (H : Forall (fun seg => isNormal seg = true /\ ~ In c seg)
                (PosixPath.resolve cwd p)).
  { unfold PosixPath.resolve, PosixPath.normalize. cbv zeta.
    apply Forall_rev. apply normalize_invariant; [|constructor].
    apply split_without. intros Hin.
    destruct (startsWith [SLASH] p); destruct (nonempty p);
      repeat (apply in_app_or in Hin; destruct Hin as [Hin|Hin]);
      try contradiction;
      try (destruct Hin as [E|[]]; congruence);
      try (destruct Hin as []). }
  eapply Forall_impl; [|exact H]. intros seg [_ Hseg]. exact Hseg.
Qed.

Lemma relative_without_backslash (cwd root p : jsstring) :
  ~ In BACKSLASH cwd -> ~ In BACKSLASH p ->
  ~ In BACKSLASH (PosixPath.relative cwd root p).
Proof.
  intros Hcwd Hp. unfold PosixPath.relative.
  destruct (jsstring_eqb root p); [intros []|].
  destruct (PosixPath.stripCommon (PosixPath.resolve cwd root)
              (PosixPath.resolve cwd p)) as [climb rest] eqn:Hstrip.
  destruct (stripCommon_spec (PosixPath.resolve cwd root)
              (PosixPath.resolve cwd p)) as [common [_ Hto]].
  rewrite Hstrip in Hto. cbn [snd] in Hto.
  apply join_without; [discriminate|].
  apply Forall_app. split.
  - apply Forall_forall. intros seg Hin. apply in_map_iff in Hin.
    destruct Hin as [x [<- _]]. intros [H|[H|[]]]; discriminate.
  - pose proof (resolve_without BACKSLASH cwd p) as H.
    rewrite Hto in H. apply Forall_app in H; [apply H|..];
      [discriminate|exact Hcwd|exact Hp].
Qed.

(** C8 (as amended). The result of [toWorkspaceRelativePath] never holds a
    backslash, whatever the platform's [path.relative] returns, so rewriting
    its separators again changes nothing.  On a POSIX runner, applying
    [toWorkspaceRelativePath] to its own output returns that output when the
    workspace root is the current directory and neither the current
    directory nor the path holds a backslash. *)
Theorem toWorkspaceRelativePath_separators
  (path_relative : jsstring -> jsstring -> jsstring)
  (cwd root p : jsstring) :
  ~ In BACKSLASH (toWorkspaceRelativePath path_relative p root)
  /\ replaceAll BACKSLASH SLASH
       (toWorkspaceRelativePath path_relative p root)
     = toWorkspaceRelativePath path_relative p root
  /\ (PosixPath.resolve cwd root = PosixPath.resolve cwd [] ->
      ~ In BACKSLASH cwd -> ~ In BACKSLASH p ->
      toWorkspaceRelativePath (PosixPath.relative cwd)
        (toWorkspaceRelativePath (PosixPath.relative cwd) p root) root
      = toWorkspaceRelativePath (PosixPath.relative cwd) p root).
Proof.
  split; [apply toWorkspaceRelativePath_no_backslash|].
  split.
  { apply replaceAll_absent, toWorkspaceRelativePath_no_backslash. }
  intros Hroot Hcwd Hp. unfold toWorkspaceRelativePath. cbv zeta.
  pose proof (relative_without_backslash cwd root p Hcwd Hp) as Hfree.
  rewrite (replaceAll_absent _ _ _ Hfree).
  rewrite (relative_idempotent cwd root p Hroot).
  apply replaceAll_absent, Hfree.
Qed.

(** The workspace root is the current directory when it is that very
    path. *)
Lemma resolve_current_directory_itself (cwd : jsstring) :
  startsWith [SLASH] cwd = true ->
  PosixPath.resolve cwd cwd = PosixPath.resolve cwd [].
Proof.
  intros H. unfold PosixPath.resolve. cbv zeta. rewrite H.
  destruct cwd as [|c cwd]; [discriminate|].
  cbn [nonempty startsWith app].
  change ((c :: cwd) ++ [SLASH]) with ((c :: cwd) ++ SLASH :: []).
  change (c :: cwd ++ [SLASH]) with ((c :: cwd) ++ SLASH :: []).
  reflexivity.
Qed.

(** C8, counterexample.  The tests call the function with a workspace
    root that is not the current directory; there its output, given back to
    it, comes out different. *)
Lemma toWorkspaceRelativePath_not_idempotent :
  let f :=
    toWorkspaceRelativePath (PosixPath.relative (str "/home/runner/work")) in
  f (str "/ws/src/File.cs") (str "/ws") = str "src/File.cs"
  /\ f (str "src/File.cs") (str "/ws")
     = str "../home/runner/work/src/File.cs"
  /\ f (f (str "/ws/src/File.cs") (str "/ws")) (str "/ws")
     <> f (str "/ws/src/File.cs") (str "/ws").
Proof.
  cbv zeta. split; [vm_compute; reflexivity|].
  split; [vm_compute; reflexivity|].
  vm_compute. discriminate.
Qed.

(** C7, counterexample.  A description of 20 code units that holds the
    delimiter: the row has seven delimiters, that is six columns. *)
Lemma description_delimiter_adds_column :
  length (description delimiter_violation) = 20
  /\ count_char PIPE (severity delimiter_violation) = 0
  /\ count_char PIPE (filePath delimiter_violation) = 0
  /\ count_char PIPE (projectName delimiter_violation) = 0
  /\ count_char PIPE (invalidReference delimiter_violation) = 0
  /\ tableRow delimiter_violation =
       str "| " ++ RED_CIRCLE
         ++ str " Error | `test/path.csproj:1` | TestProject | InvalidRef | Cannot reference A|B |"
         ++ nl
  /\ count_char PIPE (tableRow delimiter_violation) = 7.
Proof. repeat split; vm_compute; reflexivity. Qed.

(** C10, witness: the severity [error], in lower case, gets the warning
    sign and the level [failure]; the severity [Error] gets the red
    circle. *)
Lemma severity_icon_exact_match_witness :
  severity lowercase_violation = str "error"
  /\ severityIcon lowercase_violation = WARNING_SIGN
  /\ mapSeverityToLevel (severity lowercase_violation) = failure
  /\ severity delimiter_violation = str "Error"
  /\ severityIcon delimiter_violation = RED_CIRCLE.
Proof.
  split; [reflexivity|].
  split.
  { apply (proj2 (proj2 (severity_icon_exact_match lowercase_violation 0))).
    discriminate. }
  split; [reflexivity|].
  split; [reflexivity|].
  apply (proj1 (proj2 (severity_icon_exact_match delimiter_violation 0))).
  reflexivity.
Defined.

(** ** The earlier revision of [run]

    [src/run.ts] holds two revisions of [run]; the properties above are
    those of the later one.  The earlier one differs on both points
    below. *)

Example run_earlier_stops_without_pull_request :
  run_earlier (sample_world [] sample_stdout (fun _ => false))
    sample_JSON_parse (PosixPath.relative (str "/ws")) sample_inputs
    sample_context
  = ([LogInfo (str "Finding associated pull requests...");
      ListPullRequestsAssociatedWithCommit (str "octo-org") (str "shop")
        (str "4f2a9c1");
      LogInfo (str "No associated pull requests found. Skipping analysis (PR-only mode).")],
     Returned tt).
Proof. vm_compute. reflexivity. Qed.

Example run_earlier_passes_on_warnings :
  let r := run_earlier (sample_world sample_pulls sample_stdout
                          (fun _ => false))
             sample_JSON_parse (PosixPath.relative (str "/ws"))
             sample_inputs sample_context in
  existsb isSetFailed (trace r) = false /\ outcome r = Returned tt.
Proof. cbv zeta. split; vm_compute; reflexivity. Qed.

(** The path of the sample violation as the run publishes it. *)
Example sample_relative_path :
  map filePath
    (violations
       (relativize (sample_world [] sample_stdout (fun _ => false))
          (PosixPath.relative (str "/ws")) sample_result))
  = [str "src/Module.App/Module.App.csproj"].
Proof. vm_compute. reflexivity. Qed.

(** Given 75 violations, 50 annotations are sent and the summary says that
    25 are not shown. *)
Example seventy_five_violations :
  let result := with_violations sample_result (repeat sample_warning 75) in
  let payload := checkRunPayload (str "4f2a9c1") result in
  length (output_annotations payload) = 50
  /\ includes (output_summary payload)
       (str " Note: Only showing the first 50 annotations. 25 additional violation(s) not shown.")
     = true.
Proof. cbv zeta. split; vm_compute; reflexivity. Qed.

(** The four cases of [tests/run.test.ts] for [toWorkspaceRelativePath]. *)
Example test_converts_absolute_path :
  toWorkspaceRelativePath (PosixPath.relative (str "/repo"))
    (str "/Users/test/dev/project/src/module/File.cs")
    (str "/Users/test/dev/project")
  = str "src/module/File.cs".
Proof. vm_compute. reflexivity. Qed.

Example test_handles_windows_style_paths :
  toWorkspaceRelativePath (PosixPath.relative (str "/repo"))
    (str "/Users/test/dev/project/src\module\File.cs")
    (str "/Users/test/dev/project")
  = str "src/module/File.cs".
Proof. vm_compute. reflexivity. Qed.

Example test_normalizes_separators :
  toWorkspaceRelativePath (PosixPath.relative (str "/repo"))
    (str "/Users/test/dev/project/src/nested/deep/File.cs")
    (str "/Users/test/dev/project")
  = str "src/nested/deep/File.cs".
Proof. vm_compute. reflexivity. Qed.

Example test_path_at_workspace_root :
  toWorkspaceRelativePath (PosixPath.relative (str "/repo"))
    (str "/Users/test/dev/project/File.cs")
    (str "/Users/test/dev/project")
  = str "File.cs".
Proof. vm_compute. reflexivity. Qed.

(** * Properties of the whole action *)

(** ** The context of the run *)

Lemma join_split (s : jsstring) : PosixPath.join (PosixPath.split s) = s.
Proof.
  induction s as [|c s IH]; [reflexivity|].
  cbn [PosixPath.split].
  pose proof (split_not_nil s) as Hne.
  destruct (PosixPath.split s) as [|seg rest] eqn:E; [contradiction|].
  destruct (N.eqb_spec c SLASH) as [->|_].
  - change (PosixPath.join ([] :: seg :: rest))
      with ([] ++ SLASH :: PosixPath.join (seg :: rest)).
    rewrite IH. reflexivity.
  - destruct rest as [|seg' rest].
    + cbn [PosixPath.join] in *. now rewrite IH.
    + change (PosixPath.join ((c :: seg) :: seg' :: rest))
        with (c :: (seg ++ SLASH :: PosixPath.join (seg' :: rest))).
      change (PosixPath.join (seg :: seg' :: rest))
        with (seg ++ SLASH :: PosixPath.join (seg' :: rest)) in IH.
      now rewrite IH.
Qed.

Lemma getEnv_outcome (w : World) (name : jsstring) :
  getEnv w name =
    ([], match process_env w name with
         | Some (c :: value) => Returned (c :: value)
         | _ => Thrown (name ++ str " is required")
         end).
Proof.
  unfold getEnv. destruct (process_env w name) as [[|c value]|];
    reflexivity.
Qed.

(** [getRepo] by the first two parts of the variable. *)
Lemma getRepo_outcome (w : World) :
  getRepo w =
    ([], match process_env w (str "GITHUB_REPOSITORY") with
         | Some (c :: value) =>
             match PosixPath.split (c :: value) with
             | [] | [] :: _ =>
                 Thrown (str "GITHUB_REPOSITORY must have an owner part")
             | [_] | _ :: [] :: _ =>
                 Thrown (str "GITHUB_REPOSITORY must have a repo part")
             | owner :: repo :: _ => Returned (owner, repo)
             end
         | _ => Thrown (str "GITHUB_REPOSITORY is required")
         end).
Proof.
  unfold getRepo. rewrite getEnv_outcome.
  destruct (process_env w (str "GITHUB_REPOSITORY")) as [[|c value]|];
    try reflexivity.
  cbn [bind]. cbv zeta.
  destruct (PosixPath.split (c :: value)) as [|[|a owner] [|[|b repo] rest]];
    reflexivity.
Qed.

(** X1. [getRepo] returns the pair (owner, repo) exactly when
    [GITHUB_REPOSITORY] is an owner, a slash and a repository name, both
    non-empty and without slash, possibly followed by a slash and more
    text, which is ignored; it emits nothing. *)
Theorem getRepo_accepts (w : World) (owner repo : jsstring) :
  getRepo w = ([], Returned (owner, repo)) <->
  owner <> [] /\ repo <> [] /\ ~ In SLASH owner /\ ~ In SLASH repo
  /\ exists tail,
       (tail = [] \/ exists more, tail = SLASH :: more)
       /\ process_env w (str "GITHUB_REPOSITORY")
          = Some (owner ++ SLASH :: repo ++ tail).
Proof.
  rewrite getRepo_outcome. split.
  - intros H.
    destruct (process_env w (str "GITHUB_REPOSITORY")) as [[|c value]|];
      try discriminate.
    pose proof (join_split (c :: value)) as Hjoin.
    pose proof (split_slash_free (c :: value)) as Hfree.
    remember (PosixPath.split (c :: value)) as parts eqn:Hparts.
    clear Hparts.
    destruct parts as [|[|a o] [|[|b r] rest]]; try discriminate.
    injection H as <- <-.
    inversion Hfree as [|? ? Ho Hfree']; subst.
    inversion Hfree' as [|? ? Hr _]; subst.
    split; [discriminate|]. split; [discriminate|].
    split; [exact Ho|]. split; [exact Hr|].
    rewrite <- Hjoin.
    change (PosixPath.join ((a :: o) :: (b :: r) :: rest))
      with ((a :: o) ++ SLASH :: PosixPath.join ((b :: r) :: rest)).
    destruct rest as [|seg rest].
    + exists []. split; [now left|]. cbn [PosixPath.join].
      now rewrite app_nil_r.
    + exists (SLASH :: PosixPath.join (seg :: rest)).
      split; [right; eexists; reflexivity|reflexivity].
  - intros [Ho [Hr [Hso [Hsr [tail [Htail ->]]]]]].
    destruct owner as [|a o]; [contradiction|].
    destruct repo as [|b r]; [contradiction|].
    cbn [app]. change (a :: o ++ SLASH :: b :: r ++ tail)
      with ((a :: o) ++ SLASH :: ((b :: r) ++ tail)).
    rewrite split_app_slash, (split_segment (a :: o) Hso).
    destruct Htail as [->|[more ->]].
    + rewrite app_nil_r, (split_segment (b :: r) Hsr). reflexivity.
    + rewrite split_app_slash, (split_segment (b :: r) Hsr).
      pose proof (split_not_nil more) as Hne.
      destruct (PosixPath.split more); [contradiction|reflexivity].
Qed.

(** X2. [getRepo] names what is missing: the variable itself when it is
    unset or empty, the owner part when the value starts with a slash, the
    repo part when the value has no slash or nothing between its first
    slash and the next one (or the end). *)
Theorem getRepo_rejects (w : World) :
  let value := process_env w (str "GITHUB_REPOSITORY") in
  ((value = None \/ value = Some []) ->
   outcome (getRepo w) = Thrown (str "GITHUB_REPOSITORY is required"))
  /\ (forall rest,
        value = Some (SLASH :: rest) ->
        outcome (getRepo w)
        = Thrown (str "GITHUB_REPOSITORY must have an owner part"))
  /\ (forall owner tail,
        owner <> [] -> ~ In SLASH owner ->
        tail = [] \/ tail = [SLASH] \/ (exists more,
                                         tail = SLASH :: SLASH :: more) ->
        value = Some (owner ++ tail) ->
        outcome (getRepo w)
        = Thrown (str "GITHUB_REPOSITORY must have a repo part")).
Proof.
  intros value. subst value. rewrite getRepo_outcome. cbn [outcome snd].
  split; [|split].
  - intros [->| ->]; reflexivity.
  - intros rest ->. cbn [PosixPath.split].
    change (N.eqb SLASH SLASH) with true. cbv iota. reflexivity.
  - intros owner tail Ho Hso Htail ->.
    destruct owner as [|a o]; [contradiction|].
    destruct Htail as [->|[->|[more ->]]].
    + rewrite app_nil_r, (split_segment (a :: o) Hso). reflexivity.
    + change ((a :: o) ++ [SLASH]) with ((a :: o) ++ SLASH :: []).
      cbn [app]. change (a :: o ++ SLASH :: [])
        with ((a :: o) ++ SLASH :: []).
      rewrite split_app_slash, (split_segment (a :: o) Hso). reflexivity.
    + cbn [app]. change (a :: o ++ SLASH :: SLASH :: more)
        with ((a :: o) ++ SLASH :: (SLASH :: more)).
      rewrite split_app_slash, (split_segment (a :: o) Hso).
      cbn [PosixPath.split]. change (N.eqb SLASH SLASH) with true.
      cbv iota. reflexivity.
Qed.

(** A check that no segment holds the separator. *)
Lemma slash_free_segments (l : list jsstring) :
  forallb (fun seg => negb (existsb (N.eqb SLASH) seg)) l = true ->
  Forall (fun seg => ~ In SLASH seg) l.
Proof.
  intros H. apply Forall_forall. intros seg Hseg Hin.
  rewrite forallb_forall in H. specialize (H seg Hseg).
  apply negb_true_iff in H.
  assert (Hex : existsb (N.eqb SLASH) seg = true).
  { apply existsb_exists. exists SLASH. split; [exact Hin|reflexivity]. }
  congruence.
Defined.

(** X1, witness: the repository [octo-org/shop] of the sample runner. *)
Lemma getRepo_accepts_witness :
  getRepo (sample_world [] sample_stdout (fun _ => false))
  = ([], Returned (str "octo-org", str "shop")).
Proof.
  apply (proj2 (getRepo_accepts
                  (sample_world [] sample_stdout (fun _ => false))
                  (str "octo-org") (str "shop"))).
  split; [discriminate|]. split; [discriminate|].
  split; [exact (Forall_inv (slash_free_segments [str "octo-org"] eq_refl))|].
  split; [exact (Forall_inv (slash_free_segments [str "shop"] eq_refl))|].
  exists []. split; [now left|reflexivity].
Defined.

(** X2, witness: a value without slash has no repo part. *)
Lemma getRepo_rejects_witness :
  outcome (getRepo ownerless_world)
  = Thrown (str "GITHUB_REPOSITORY must have a repo part").
Proof.
  apply (proj2 (proj2 (getRepo_rejects ownerless_world))
           (str "octo-org") []).
  - discriminate.
  - exact (Forall_inv (slash_free_segments [str "octo-org"] eq_refl)).
  - now left.
  - reflexivity.
Defined.

(** ** The entry point *)

Lemma silent_trace {A : Type} (m : Action A) :
  onlyEvents (fun _ => false) m -> trace m = [].
Proof.
  unfold onlyEvents. destruct (trace m) as [|e t]; [reflexivity|].
  discriminate.
Qed.

Lemma readInputs_silent (core_getInput : jsstring -> bool -> Response jsstring) :
  trace (readInputs core_getInput) = [].
Proof. apply silent_trace. unfold readInputs. only_events. Qed.

Lemma getContext_silent (w : World)
  (JSON_parse : jsstring -> Response JSON)
  (fs_readFile : jsstring -> Response jsstring) :
  trace (getContext w JSON_parse fs_readFile) = [].
Proof.
  apply silent_trace. unfold getContext, getRepo, getEnv. only_events.
Qed.

(** X3. The entry point reads the inputs, builds the client and reads the
    context, in this order, without a request or a log line.  When one of
    the three fails (a required input that is not supplied, a client that
    cannot be built, a variable that is unset or empty, an event file that
    cannot be read or parsed), the action is failed with that error, the
    error is printed and nothing else happens; otherwise the entry point is
    the run on those inputs and that context, under the same handler. *)
Theorem entry_setup (w : World) (JSON_parse : jsstring -> Response JSON)
  (path_relative : jsstring -> jsstring -> jsstring)
  (fs_readFile : jsstring -> Response jsstring)
  (core_getInput : jsstring -> bool -> Response jsstring)
  (getOctokit : Response unit) :
  let whole :=
    entry w JSON_parse path_relative fs_readFile core_getInput getOctokit in
  match outcome (readInputs core_getInput) with
  | Thrown e => whole = ([SetFailed e; ConsoleError e], Returned tt)
  | OutsideSchema => False
  | Returned inputs =>
      match getOctokit with
      | inl e => whole = ([SetFailed e; ConsoleError e], Returned tt)
      | inr _ =>
          match outcome (getContext w JSON_parse fs_readFile) with
          | Thrown e => whole = ([SetFailed e; ConsoleError e], Returned tt)
          | OutsideSchema => False
          | Returned context =>
              whole = main w JSON_parse path_relative inputs (fst context)
          end
      end
  end.
Proof.
  intros whole. subst whole. unfold entry, main, await_pure.
  rewrite (action_eta (readInputs core_getInput)), readInputs_silent.
  rewrite (action_eta (getContext w JSON_parse fs_readFile)),
    getContext_silent.
  assert (Hinputs : outcome (readInputs core_getInput) <> OutsideSchema).
  { unfold readInputs, await_pure.
    destruct (core_getInput (str "config-path") false);
      destruct (core_getInput (str "directory") false);
      destruct (core_getInput (str "token") true);
      destruct (core_getInput (str "modularguard-version") false);
      discriminate. }
  assert (Hcontext :
            outcome (getContext w JSON_parse fs_readFile) <> OutsideSchema).
  { unfold getContext. rewrite getRepo_outcome, !getEnv_outcome.
    unfold await_pure.
    destruct (process_env w (str "GITHUB_REPOSITORY")) as [[|c v]|];
      try discriminate.
    destruct (PosixPath.split (c :: v)) as [|[|a o] [|[|b r] rest]];
      try discriminate.
    destruct (process_env w (str "GITHUB_SHA")) as [[|c1 v1]|];
      try discriminate.
    destruct (process_env w (str "GITHUB_EVENT_PATH")) as [[|c2 v2]|];
      try discriminate.
    cbn [bind trace outcome fst snd].
    destruct (fs_readFile (c2 :: v2)) as [e|text]; [discriminate|].
    destruct (JSON_parse text); discriminate. }
  destruct (outcome (readInputs core_getInput)) as [inputs|e|];
    [|reflexivity|contradiction].
  destruct getOctokit as [e|[]]; [reflexivity|].
  destruct (outcome (getContext w JSON_parse fs_readFile))
    as [context|e|]; [|reflexivity|contradiction].
  cbn [bind app]. cbv zeta. unfold trace, outcome. cbn [fst snd].
  rewrite <- !surjective_pairing. reflexivity.
Qed.

(** ** Acquiring the binary *)

Section AcquisitionFacts.

Import Download.

Variable tb : Toolbox.
Variable path_join : jsstring -> jsstring -> jsstring.

(** The platform is one of the three supported ones, or the function
    fails without an event. *)
Lemma getPlatform_cases :
  (exists p, getPlatform tb = ([], inr p))
  \/ getPlatform tb
     = ([], inl (str "Unsupported platform: " ++ process_platform tb)).
Proof.
  unfold getPlatform, done, fail.
  destruct (jsstring_eqb (process_platform tb) (str "linux"));
    [left; eexists; reflexivity|].
  destruct (jsstring_eqb (process_platform tb) (str "darwin"));
    [left; eexists; reflexivity|].
  destruct (jsstring_eqb (process_platform tb) (str "win32"));
    [left; eexists; reflexivity|].
  now right.
Qed.

Lemma getArch_cases :
  (exists a, getArch tb = ([], inr a))
  \/ getArch tb
     = ([], inl (str "Unsupported architecture: " ++ process_arch tb)).
Proof.
  unfold getArch, done, fail.
  destruct (jsstring_eqb (process_arch tb) (str "x64"));
    [left; eexists; reflexivity|].
  destruct (jsstring_eqb (process_arch tb) (str "arm64"));
    [left; eexists; reflexivity|].
  now right.
Qed.

(** X4. On a platform other than linux, darwin and win32, or an
    architecture other than x64 and arm64, [downloadModularGuard] throws
    before it looks into the cache or makes any request, the platform being
    checked first. *)
Theorem download_unsupported_runner (version : jsstring) :
  (process_platform tb <> str "linux" ->
   process_platform tb <> str "darwin" ->
   process_platform tb <> str "win32" ->
   downloadModularGuard tb path_join version
   = ([], inl (str "Unsupported platform: " ++ process_platform tb)))
  /\ ((exists p, getPlatform tb = ([], inr p)) ->
      process_arch tb <> str "x64" ->
      process_arch tb <> str "arm64" ->
      downloadModularGuard tb path_join version
      = ([], inl (str "Unsupported architecture: " ++ process_arch tb))).
Proof.
  split.
  - intros H1 H2 H3. apply jsstring_eqb_neq in H1, H2, H3.
    unfold downloadModularGuard, getPlatform. rewrite H1, H2, H3.
    reflexivity.
  - intros [p Hp] H1 H2. apply jsstring_eqb_neq in H1, H2.
    unfold downloadModularGuard. rewrite Hp.
    unfold getArch. rewrite H1, H2. reflexivity.
Qed.

End AcquisitionFacts.

(** X4, witness: a FreeBSD runner. *)
Lemma download_unsupported_runner_witness :
  Download.downloadModularGuard freebsd_toolbox sample_path_join
    (str "latest")
  = ([], inl (str "Unsupported platform: freebsd")).
Proof.
  apply (proj1 (download_unsupported_runner freebsd_toolbox
                  sample_path_join (str "latest")));
    discriminate.
Defined.

(** X5. With a binary in the tool cache under the requested version and
    architecture, [downloadModularGuard] returns the cached binary's path
    right after the lookup: no release is looked up, nothing is downloaded,
    extracted or cached.  The binary is [modularguard.exe] on Windows and
    [modularguard] elsewhere. *)
Theorem download_cache_hit (tb : Download.Toolbox)
  (path_join : jsstring -> jsstring -> jsstring)
  (platform : Download.Platform) (arch : Download.Arch)
  (version cached : jsstring) :
  Download.getPlatform tb = ([], inr platform) ->
  Download.getArch tb = ([], inr arch) ->
  Download.tc_find tb (str "modularguard") version (Download.archName arch)
  = inr cached ->
  cached <> [] ->
  Download.downloadModularGuard tb path_join version
  = ([Download.TcFind (str "modularguard") version
        (Download.archName arch);
      Download.ToolInfo
        (str "Using cached ModularGuard binary from " ++ cached)],
     inr (path_join cached
            (match platform with
             | Download.win => str "modularguard.exe"
             | _ => str "modularguard"
             end))).
Proof.
  intros Hplatform Harch Hfind Hne. unfold Download.downloadModularGuard.
  rewrite Hplatform, Harch. unfold Download.call.
  cbn [Download.andThen fst snd app]. cbv zeta. rewrite Hfind.
  destruct cached as [|c cached]; [contradiction|].
  destruct platform; reflexivity.
Qed.

(** X5, witness: a Linux x64 runner with the binary cached. *)
Lemma download_cache_hit_witness :
  Download.downloadModularGuard cached_toolbox sample_path_join
    (str "latest")
  = ([Download.TcFind (str "modularguard") (str "latest") (str "x64");
      Download.ToolInfo
        (str "Using cached ModularGuard binary from /opt/hostedtoolcache/modularguard/1.4.0/x64")],
     inr (str "/opt/hostedtoolcache/modularguard/1.4.0/x64/modularguard")).
Proof.
  exact (download_cache_hit cached_toolbox sample_path_join Download.linux
           Download.x64 (str "latest")
           (str "/opt/hostedtoolcache/modularguard/1.4.0/x64")
           eq_refl eq_refl eq_refl ltac:(discriminate)).
Defined.

(** X6. On a cache miss with every request answered, the binary is
    downloaded from
    [.../releases/download/v<version>/modularguard-<platform>-<arch>.<ext>],
    a zip archive on Windows and a tar.gz archive elsewhere, where the
    version is the requested one or, for [latest], the tag of the latest
    release without its leading [v].  The archive is extracted, the binary
    is made executable (mode 755) except on Windows, and the directory is
    cached under the resolved version, while the lookup was made under the
    requested one. *)
Theorem download_fresh (tb : Download.Toolbox)
  (path_join : jsstring -> jsstring -> jsstring)
  (platform : Download.Platform) (arch : Download.Arch)
  (version resolved archive dir cachedDir : jsstring) :
  Download.getPlatform tb = ([], inr platform) ->
  Download.getArch tb = ([], inr arch) ->
  Download.tc_find tb (str "modularguard") version (Download.archName arch)
  = inr [] ->
  (if jsstring_eqb version (str "latest")
   then exists tag,
       Download.repos_getLatestRelease tb (str "n2jsoft-public-org")
         (str "ModularGuard") = inr tag
       /\ resolved = Download.stripV tag
   else resolved = version) ->
  let ext :=
    match platform with
    | Download.win => str "zip"
    | _ => str "tar.gz"
    end in
  let url :=
    str "https://github.com/n2jsoft-public-org/ModularGuard/releases/download/v"
      ++ resolved ++ str "/" ++ str "modularguard-"
      ++ Download.platformName platform ++ str "-"
      ++ Download.archName arch ++ str "." ++ ext in
  let binaryName :=
    match platform with
    | Download.win => str "modularguard.exe"
    | _ => str "modularguard"
    end in
  Download.tc_downloadTool tb url = inr archive ->
  match platform with
  | Download.win => Download.tc_extractZip tb archive
  | _ => Download.tc_extractTar tb archive
  end = inr dir ->
  (platform <> Download.win ->
   Download.fs_chmod tb (path_join dir binaryName) 493 = inr tt) ->
  Download.tc_cacheDir tb dir (str "modularguard") resolved
    (Download.archName arch) = inr cachedDir ->
  Download.downloadModularGuard tb path_join version
  = ([Download.TcFind (str "modularguard") version
        (Download.archName arch)]
       ++ (if jsstring_eqb version (str "latest")
           then [Download.GetLatestRelease (str "n2jsoft-public-org")
                   (str "ModularGuard")]
           else [])
       ++ [Download.ToolInfo (str "Downloading ModularGuard from " ++ url);
           Download.DownloadTool url;
           match platform with
           | Download.win => Download.ExtractZip archive
           | _ => Download.ExtractTar archive
           end]
       ++ match platform with
          | Download.win => []
          | _ => [Download.Chmod (path_join dir binaryName) 493]
          end
       ++ [Download.CacheDir dir (str "modularguard") resolved
             (Download.archName arch);
           Download.ToolInfo
             (str "Cached ModularGuard binary to " ++ cachedDir)],
     inr (path_join cachedDir binaryName)).
Proof.
  intros Hplatform Harch Hfind Hresolved ext url binaryName
    Harchive Hdir Hchmod Hcache.
  unfold Download.downloadModularGuard.
  rewrite Hplatform, Harch. unfold Download.call.
  cbn [Download.andThen fst snd app]. cbv zeta. rewrite Hfind.
  cbn [nonempty].
  assert (Hversion :
            (if jsstring_eqb version (str "latest")
             then Download.getLatestVersion tb
             else Download.done version)
            = ((if jsstring_eqb version (str "latest")
                then [Download.GetLatestRelease (str "n2jsoft-public-org")
                        (str "ModularGuard")]
                else []),
               inr resolved)).
  { destruct (jsstring_eqb version (str "latest")).
    - destruct Hresolved as [tag [Htag ->]].
      unfold Download.getLatestVersion, Download.call. rewrite Htag.
      reflexivity.
    - subst resolved. reflexivity. }
  rewrite Hversion. cbn [Download.andThen fst snd].
  assert (Hurl : Download.downloadUrl platform arch resolved = url).
  { subst url ext. unfold Download.downloadUrl. cbv zeta.
    repeat rewrite <- app_assoc. destruct platform; reflexivity. }
  rewrite Hurl. unfold Download.info.
  cbn [Download.andThen fst snd]. rewrite Harchive.
  cbn [Download.andThen Download.attempt fst snd].
  destruct platform; subst binaryName;
    cbn [Download.binaryNameOf] in *;
    rewrite Hdir; cbn [Download.andThen Download.attempt fst snd];
    rewrite ?Hchmod by discriminate;
    cbn [Download.andThen Download.attempt Download.done fst snd];
    rewrite Hcache;
    cbn [Download.andThen Download.attempt Download.done fst snd app];
    destruct (jsstring_eqb version (str "latest")); reflexivity.
Qed.

(** X6, witness: [latest] on a Linux x64 runner with an empty cache; the
    latest release is tagged [v1.4.0]. *)
Lemma download_fresh_witness :
  Download.downloadModularGuard sample_toolbox sample_path_join
    (str "latest")
  = ([Download.TcFind (str "modularguard") (str "latest") (str "x64");
      Download.GetLatestRelease (str "n2jsoft-public-org")
        (str "ModularGuard");
      Download.ToolInfo
        (str "Downloading ModularGuard from https://github.com/n2jsoft-public-org/ModularGuard/releases/download/v1.4.0/modularguard-linux-x64.tar.gz");
      Download.DownloadTool
        (str "https://github.com/n2jsoft-public-org/ModularGuard/releases/download/v1.4.0/modularguard-linux-x64.tar.gz");
      Download.ExtractTar (str "/tmp/archive");
      Download.Chmod (str "/tmp/untarred/modularguard") 493;
      Download.CacheDir (str "/tmp/untarred") (str "modularguard")
        (str "1.4.0") (str "x64");
      Download.ToolInfo
        (str "Cached ModularGuard binary to /opt/hostedtoolcache/modularguard/1.4.0/x64")],
     inr (str "/opt/hostedtoolcache/modularguard/1.4.0/x64/modularguard")).
Proof.
  exact (download_fresh sample_toolbox sample_path_join Download.linux
           Download.x64 (str "latest") (str "1.4.0") (str "/tmp/archive")
           (str "/tmp/untarred")
           (str "/opt/hostedtoolcache/modularguard/1.4.0/x64")
           eq_refl eq_refl eq_refl
           (ex_intro _ (str "v1.4.0") (conj eq_refl eq_refl))
           eq_refl eq_refl (fun _ => eq_refl) eq_refl).
Defined.

(** X7. Every error of [downloadModularGuard] is of one of five kinds:
    an unsupported platform, an unsupported architecture, the error of the
    cache lookup, thrown as it is since the lookup stands outside the [try]
    block, a failed lookup of the latest release, or a failed download
    (download, extraction, chmod or caching).  After an error of the cache
    lookup nothing else happens; a failed lookup of the latest release is
    not reported as a failed download, and nothing is downloaded after
    it; a failed download is reported after the download request only. *)
Theorem download_errors (tb : Download.Toolbox)
  (path_join : jsstring -> jsstring -> jsstring) (version : jsstring) :
  let result := Download.downloadModularGuard tb path_join version in
  match snd result with
  | inr _ => True
  | inl message =>
      message
      = str "Unsupported platform: " ++ Download.process_platform tb
      \/ message
         = str "Unsupported architecture: " ++ Download.process_arch tb
      \/ (exists arch,
            Download.tc_find tb (str "modularguard") version
              (Download.archName arch) = inl message
            /\ fst result
               = [Download.TcFind (str "modularguard") version
                    (Download.archName arch)])
      \/ (exists e,
            message
            = str "Failed to fetch latest ModularGuard version: " ++ e
            /\ Download.repos_getLatestRelease tb
                 (str "n2jsoft-public-org") (str "ModularGuard") = inl e
            /\ forall url, ~ In (Download.DownloadTool url) (fst result))
      \/ (exists e,
            message = str "Failed to download ModularGuard: " ++ e
            /\ exists url, In (Download.DownloadTool url) (fst result))
  end.
Proof.
  intros result. subst result. unfold Download.downloadModularGuard.
  destruct (getPlatform_cases tb) as [[platform ->]| ->];
    [|now left].
  destruct (getArch_cases tb) as [[arch ->]| ->];
    [|right; now left].
  unfold Download.call. cbn [Download.andThen fst snd app]. cbv zeta.
  destruct (Download.tc_find tb (str "modularguard") version
              (Download.archName arch)) as [e|cachedPath] eqn:Hfind.
  { cbn [fst snd]. right. right. left. exists arch. rewrite Hfind.
    split; reflexivity. }
  cbn [fst snd app].
  destruct (nonempty cachedPath); [exact I|].
  destruct (jsstring_eqb version (str "latest")).
  - unfold Download.getLatestVersion, Download.call.
    destruct (Download.repos_getLatestRelease tb (str "n2jsoft-public-org")
                (str "ModularGuard")) as [e|tag] eqn:Hrelease.
    + cbn [Download.andThen Download.attempt Download.fail fst snd app].
      do 3 right. left. exists e. split; [reflexivity|].
      split; [reflexivity|].
      intros url [H|[H|[]]]; discriminate.
    + cbn [Download.andThen Download.attempt Download.done Download.info
             fst snd app].
      destruct (Download.tc_downloadTool tb _) as [e|archive];
        cbn [Download.andThen Download.attempt Download.fail fst snd app].
      { do 4 right. exists e. split; [reflexivity|].
        eexists. do 3 right. left. reflexivity. }
      destruct platform;
        match goal with
        | |- context [Download.tc_extractTar tb ?a] =>
            destruct (Download.tc_extractTar tb a) as [e|dir]
        | |- context [Download.tc_extractZip tb ?a] =>
            destruct (Download.tc_extractZip tb a) as [e|dir]
        end;
        cbn [Download.andThen Download.attempt Download.fail Download.done
               fst snd app];
        try (do 4 right; exists e; split; [reflexivity|];
             eexists; do 3 right; left; reflexivity);
        try (destruct (Download.fs_chmod tb _ 493) as [e|[]];
             cbn [Download.andThen Download.attempt Download.fail
                    Download.done fst snd app];
             [do 4 right; exists e; split; [reflexivity|];
              eexists; do 3 right; left; reflexivity|]);
        (destruct (Download.tc_cacheDir tb _ _ _ _) as [e|cachedDir];
         cbn [Download.andThen Download.attempt Download.fail
                Download.done fst snd app];
         [do 4 right; exists e; split; [reflexivity|];
          eexists; do 3 right; left; reflexivity|exact I]).
  - cbn [Download.andThen Download.attempt Download.done Download.info
           fst snd app].
    destruct (Download.tc_downloadTool tb _) as [e|archive];
      cbn [Download.andThen Download.attempt Download.fail fst snd app].
    { do 4 right. exists e. split; [reflexivity|].
      eexists. do 2 right. left. reflexivity. }
    destruct platform;
      match goal with
      | |- context [Download.tc_extractTar tb ?a] =>
          destruct (Download.tc_extractTar tb a) as [e|dir]
      | |- context [Download.tc_extractZip tb ?a] =>
          destruct (Download.tc_extractZip tb a) as [e|dir]
      end;
      cbn [Download.andThen Download.attempt Download.fail Download.done
             fst snd app];
      try (do 4 right; exists e; split; [reflexivity|];
           eexists; do 2 right; left; reflexivity);
      try (destruct (Download.fs_chmod tb _ 493) as [e|[]];
           cbn [Download.andThen Download.attempt Download.fail
                  Download.done fst snd app];
           [do 4 right; exists e; split; [reflexivity|];
            eexists; do 2 right; left; reflexivity|]);
      (destruct (Download.tc_cacheDir tb _ _ _ _) as [e|cachedDir];
       cbn [Download.andThen Download.attempt Download.fail
              Download.done fst snd app];
       [do 4 right; exists e; split; [reflexivity|];
        eexists; do 2 right; left; reflexivity|exact I]).
Qed.

(** An empty version is refused by the tool cache, and the error is thrown
    as it is. *)
Example download_cache_lookup_throws :
  Download.downloadModularGuard strict_toolbox sample_path_join []
  = ([Download.TcFind (str "modularguard") [] (str "x64")],
     inl (str "versionSpec parameter is required")).
Proof. reflexivity. Qed.

(** ** Comments of earlier runs *)

Lemma startsWith_app (p s : jsstring) : startsWith p (p ++ s) = true.
Proof.
  induction p as [|c p IH]; [reflexivity|].
  cbn [app startsWith]. now rewrite N.eqb_refl, IH.
Qed.

Lemma includes_prefix (p s : jsstring) : includes (p ++ s) p = true.
Proof.
  destruct (p ++ s) as [|c t] eqn:E; cbn [includes];
    rewrite <- E, startsWith_app; reflexivity.
Qed.

(** Every comment that [formatComment] writes carries the marker. *)
Lemma formatComment_carries_marker (result : ModularGuardResult)
  (runUrl : option jsstring) (i : Z) :
  carriesMarker {| id := i; body := Some (formatComment result runUrl) |}
  = true.
Proof.
  unfold carriesMarker. cbn [body].
  destruct (formatComment_head result runUrl) as [rest ->].
  unfold commentHead. rewrite <- !app_assoc. apply includes_prefix.
Qed.

Lemma find_first {A : Type} (f : A -> bool) (l : list A) (x : A) :
  find f l = Some x <->
  exists before after,
    l = before ++ x :: after
    /\ forallb (fun y => negb (f y)) before = true
    /\ f x = true.
Proof.
  split.
  - induction l as [|y l IH]; [discriminate|].
    cbn [find]. destruct (f y) eqn:Hy.
    + intros H. injection H as <-. exists [], l. auto.
    + intros H. destruct (IH H) as [before [after [-> [Hb Hx]]]].
      exists (y :: before), after. cbn [forallb app].
      rewrite Hy, Hb. auto.
  - intros [before [after [-> [Hb Hx]]]].
    induction before as [|y before IH]; cbn [app find].
    + now rewrite Hx.
    + cbn [forallb] in Hb. apply andb_true_iff in Hb.
      destruct Hb as [Hy Hb]. apply negb_true_iff in Hy. rewrite Hy.
      apply IH, Hb.
Qed.

Lemma find_none_iff {A : Type} (f : A -> bool) (l : list A) :
  find f l = None <-> forallb (fun y => negb (f y)) l = true.
Proof.
  induction l as [|y l IH]; [split; reflexivity|].
  cbn [find forallb]. destruct (f y); cbn [negb andb].
  - split; discriminate.
  - exact IH.
Qed.

Lemma findExistingComment_found (w : World) (owner repo : jsstring)
  (n : Z) (comments : list Comment) :
  issues_listComments w owner repo n = inr comments ->
  findExistingComment w owner repo n =
    ([ListComments owner repo n],
     Returned (match find carriesMarker comments with
               | Some c => Some (id c)
               | None => None
               end)).
Proof. intros H. unfold findExistingComment. rewrite H. reflexivity. Qed.

(** X8. When the comments of the pull request can be listed,
    [findExistingComment] makes that one request, logs nothing, and returns
    the id of the first comment of the list whose body holds the marker;
    comments without a body are passed over; it returns nothing exactly
    when no comment of the list holds the marker. *)
Theorem findExistingComment_first_match (w : World) (owner repo : jsstring)
  (n : Z) (comments : list Comment) :
  issues_listComments w owner repo n = inr comments ->
  let lookup := findExistingComment w owner repo n in
  trace lookup = [ListComments owner repo n]
  /\ (forall i,
        outcome lookup = Returned (Some i) <->
        exists before c after,
          comments = before ++ c :: after
          /\ forallb (fun c' => negb (carriesMarker c')) before = true
          /\ carriesMarker c = true
          /\ id c = i)
  /\ (outcome lookup = Returned None <->
      forallb (fun c => negb (carriesMarker c)) comments = true)
  /\ (forall c, body c = None -> carriesMarker c = false).
Proof.
  intros H lookup. subst lookup.
  rewrite (findExistingComment_found w owner repo n comments H).
  cbn [trace outcome fst snd].
  split; [reflexivity|]. split; [|split].
  - intros i. split.
    + destruct (find carriesMarker comments) as [c|] eqn:Hfind;
        [|discriminate].
      intros Hi. injection Hi as <-.
      apply find_first in Hfind.
      destruct Hfind as [before [after [Hc [Hb Hm]]]].
      exists before, c, after. auto.
    + intros [before [c [after [Hc [Hb [Hm <-]]]]]].
      assert (Hfind : find carriesMarker comments = Some c).
      { apply find_first. exists before, after. auto. }
      now rewrite Hfind.
  - rewrite <- find_none_iff.
    destruct (find carriesMarker comments); split; congruence.
  - intros c Hc. unfold carriesMarker. now rewrite Hc.
Qed.

(** X8, witness: the second of three comments is the one of the earlier
    run. *)
Lemma findExistingComment_first_match_witness :
  outcome (findExistingComment (commented_world sample_pulls)
             (str "octo-org") (str "shop") 7)
  = Returned (Some 12%Z).
Proof.
  pose proof (findExistingComment_first_match
                (commented_world sample_pulls) (str "octo-org")
                (str "shop") 7 sample_comments eq_refl) as H.
  cbv zeta in H. destruct H as [_ [H _]]. apply H.
  exists [ {| id := 11; body := Some (str "Looks good to me") |} ],
    {| id := 12; body := Some (formatComment sample_result None) |},
    [ {| id := 13; body := None |} ].
  split; [reflexivity|]. split; [vm_compute; reflexivity|].
  split; [apply formatComment_carries_marker|reflexivity].
Defined.

(** X9. The action finds its own comment again.  When the comments of a
    pull request hold a comment that [formatComment] wrote, for whatever
    result and link, with no comment carrying the marker before it, the
    comment of the present run replaces it: after the lookup the one
    request is the update of that comment with the present body, no
    comment is created, and a success is logged as an update. *)
Theorem publishComment_updates_own_comment (w : World) (context : Context)
  (result earlier : ModularGuardResult) (link : option jsstring)
  (pull : Pull) (i : Z) (before after : list Comment) :
  issues_listComments w (owner context) (repo context) (number pull)
  = inr (before
           ++ {| id := i; body := Some (formatComment earlier link) |}
           :: after) ->
  forallb (fun c => negb (carriesMarker c)) before = true ->
  i <> 0%Z ->
  let body := formatComment result (Some (runUrl w)) in
  publishComment w context result pull =
    match issues_updateComment w (owner context) (repo context) i body with
    | inr _ =>
        ([ListComments (owner context) (repo context) (number pull);
          UpdateComment (owner context) (repo context) i body;
          LogInfo (str "Comment updated on PR #"
                     ++ String_of (number pull))],
         Returned tt)
    | inl e =>
        ([ListComments (owner context) (repo context) (number pull);
          UpdateComment (owner context) (repo context) i body],
         Thrown (str "Failed to update comment: " ++ e))
    end.
Proof.
  intros Hlist Hbefore Hi body. unfold publishComment.
  rewrite (findExistingComment_found w _ _ _ _ Hlist).
  assert (Hfind :
            find carriesMarker
              (before
                 ++ {| id := i; body := Some (formatComment earlier link) |}
                 :: after)
            = Some {| id := i;
                      body := Some (formatComment earlier link) |}).
  { apply find_first. exists before, after.
    split; [reflexivity|]. split; [exact Hbefore|].
    apply formatComment_carries_marker. }
  rewrite Hfind. cbn [id]. cbv zeta.
  unfold bind at 1. cbn [app trace outcome fst snd].
  rewrite createOrUpdateComment_cases.
  assert (Hz : (i =? 0)%Z = false) by now apply Z.eqb_neq.
  rewrite Hz. cbn [negb]. fold body.
  destruct (issues_updateComment w (owner context) (repo context) i body)
    as [e|[]]; reflexivity.
Qed.

(** X9, witness: the pull request 7 of the sample holds the comment of an
    earlier run, with id 12. *)
Lemma publishComment_updates_own_comment_witness :
  let w := commented_world sample_pulls in
  let pull := {| number := 7;
                 html_url := str "https://github.com/octo-org/shop/pull/7" |} in
  publishComment w sample_context sample_result pull =
    ([ListComments (str "octo-org") (str "shop") 7;
      UpdateComment (str "octo-org") (str "shop") 12
        (formatComment sample_result (Some (runUrl w)));
      LogInfo (str "Comment updated on PR #7")],
     Returned tt).
Proof.
  intros w pull.
  exact (publishComment_updates_own_comment w sample_context sample_result
           sample_result None pull 12
           [ {| id := 11; body := Some (str "Looks good to me") |} ]
           [ {| id := 13; body := None |} ]
           eq_refl eq_refl ltac:(discriminate)).
Defined.

(** ** The sections of the comment *)

Lemma suggestions_filtered (violations : list ModularGuardViolation) :
  concat (map suggestionEntry
            (filter (fun v => truthy_opt (suggestion v)) violations))
  = concat (map suggestionText (suggestionsOf violations))
  /\ length (filter (fun v => truthy_opt (suggestion v)) violations)
     = length (suggestionsOf violations).
Proof.
  induction violations as [|v vs [IHtext IHlength]]; [split; reflexivity|].
  unfold suggestionsOf in *. cbn [filter flat_map].
  assert (Hv : truthy_opt (suggestion v)
               = match suggestion v with
                 | Some s => nonempty s
                 | None => false
                 end) by reflexivity.
  rewrite Hv. clear Hv.
  destruct (suggestion v) as [s|] eqn:Hs; [destruct (nonempty s)|];
    cbn [app map concat length]; try (split; assumption).
  split; [|now rewrite IHlength].
  rewrite IHtext. f_equal.
  unfold suggestionEntry, suggestionText. cbn [fst snd]. now rewrite Hs.
Qed.

Lemma formatComment_layout (result : ModularGuardResult)
  (runUrl : option jsstring) :
  formatComment result runUrl =
    commentHead (summary result) ++ nl
      ++ violationsSection (violations result)
      ++ suggestionsSection (violations result)
      ++ linkSection runUrl.
Proof.
  unfold formatComment. cbv zeta.
  match goal with
  | |- context [?h ++ str "### Violations" ++ nl ++ nl] => set (hd := h)
  end.
  assert (Hhd : hd = commentHead (summary result) ++ nl).
  { subst hd. unfold commentHead, statusBadge, summaryBlock.
    destruct (0 <? errorCount (summary result))%Z;
      [|destruct (0 <? warningCount (summary result))%Z];
      repeat rewrite <- app_assoc; reflexivity. }
  clearbody hd. subst hd.
  generalize (commentHead (summary result)). intros head.
  unfold suggestionsSection.
  destruct (suggestions_filtered (violations result)) as [Htext Hlength].
  destruct (violations result) as [|v vs] eqn:Hvs.
  - cbn [length Nat.ltb Nat.leb violationsSection suggestionsOf flat_map
           app].
    unfold linkSection.
    destruct runUrl as [url|]; [destruct (nonempty url)|];
      repeat rewrite <- app_assoc; rewrite ?app_nil_r; reflexivity.
  - change (0 <? length (v :: vs))%nat with true. cbv iota.
    rewrite !fold_left_append, Hlength, Htext.
    unfold violationsSection, TABLE_HEADER, linkSection.
    destruct (suggestionsOf (v :: vs)) as [|entry entries];
      cbn [length Nat.ltb Nat.leb];
      destruct runUrl as [url|]; try destruct (nonempty url);
      repeat rewrite <- app_assoc; rewrite ?app_nil_r; reflexivity.
Qed.

(** X10. The layout of the comment.  [formatComment] is the head (marker,
    heading, status line, summary), then, only when there is a violation,
    the table with one row per violation in the order of the result, then,
    only when a violation has a non-empty suggestion, the collapsible block
    with one entry per such violation, in order, each showing its own
    suggestion (a violation whose suggestion is absent or empty has no
    entry), then, only when a non-empty link is given, the link to the
    run.  A result without violations gives the head and the link
    alone. *)
Theorem formatComment_sections (result : ModularGuardResult)
  (runUrl : option jsstring) :
  formatComment result runUrl =
    commentHead (summary result) ++ nl
      ++ violationsSection (violations result)
      ++ suggestionsSection (violations result)
      ++ linkSection runUrl
  /\ (violations result = [] ->
      formatComment result runUrl =
        commentHead (summary result) ++ nl ++ linkSection runUrl)
  /\ (forall v s,
        In (v, s) (suggestionsOf (violations result)) <->
        In v (violations result) /\ suggestion v = Some s /\ s <> []).
Proof.
  split; [apply formatComment_layout|]. split.
  - intros Hnone. rewrite formatComment_layout, Hnone. reflexivity.
  - intros v s. unfold suggestionsOf. rewrite in_flat_map. split.
    + intros [v' [Hin Hentry]].
      destruct (suggestion v') as [s'|] eqn:Hs; [|destruct Hentry].
      destruct s' as [|c s']; [destruct Hentry|].
      destruct Hentry as [Hentry|[]]. injection Hentry as <- <-.
      split; [exact Hin|]. split; [exact Hs|discriminate].
    + intros [Hin [Hs Hne]]. exists v. split; [exact Hin|].
      rewrite Hs. destruct s as [|c s]; [contradiction|]. now left.
Qed.

(** ** What [executeModularGuard] logs *)

(** X11. [executeModularGuard] starts the binary once, as its first event,
    with the arguments [check <directory> --format json --quiet], followed
    by [--config <path>] exactly when a non-empty configuration path is
    given.  When the binary cannot be started nothing else happens.
    Otherwise the exit code is logged for debugging, then the standard
    error output when it is not empty; and the three error lines with the
    raw standard output and standard error are logged exactly when the
    output is not empty and is rejected (not parseable, or not passing the
    gate): an empty output is reported by the error alone. *)
Theorem executeModularGuard_diagnostics (w : World)
  (JSON_parse : jsstring -> Response JSON) (binaryPath directory : jsstring)
  (configPath : option jsstring) :
  trace (executeModularGuard w JSON_parse binaryPath directory configPath) =
    Exec binaryPath (execArgs directory configPath)
      :: match exec_exec w binaryPath (execArgs directory configPath) with
         | inl _ => []
         | inr r =>
             [LogDebug (str "ModularGuard exit code: "
                          ++ String_of (exitCode r))]
               ++ (if nonempty (stderr r)
                   then [LogDebug (str "ModularGuard stderr: " ++ stderr r)]
                   else [])
               ++ (if nonempty (stdout r) && negb (accepted JSON_parse r)
                   then parseDiagnostics r
                   else [])
         end
  /\ execArgs directory configPath =
       [str "check"; directory; str "--format"; str "json"; str "--quiet"]
         ++ match configPath with
            | Some c => if nonempty c then [str "--config"; c] else []
            | None => []
            end.
Proof.
  split; [|reflexivity].
  unfold executeModularGuard. cbv zeta.
  assert (Hargs :
            match configPath with
            | Some c =>
                if nonempty c
                then [str "check"; directory; str "--format"; str "json";
                      str "--quiet"] ++ [str "--config"; c]
                else [str "check"; directory; str "--format"; str "json";
                      str "--quiet"]
            | None => [str "check"; directory; str "--format"; str "json";
                       str "--quiet"]
            end = execArgs directory configPath).
  { unfold execArgs. destruct configPath as [c|]; [destruct (nonempty c)|];
      reflexivity. }
  rewrite Hargs. clear Hargs.
  destruct (exec_exec w binaryPath (execArgs directory configPath))
    as [e|r]; [reflexivity|].
  unfold await, core_debug, emit, ret.
  unfold accepted, parseDiagnostics.
  cbn [bind try_catch trace outcome fst snd app].
  destruct (nonempty (stderr r));
    cbn [bind try_catch trace outcome fst snd app];
    (destruct (nonempty (stdout r)); cbn [negb andb app];
     [|reflexivity]);
    rewrite parseAndValidate_outcome;
    (destruct (JSON_parse (stdout r)) as [e|value];
     [reflexivity|]);
    destruct (passesGate value); reflexivity.
Qed.

(** ** Where a run stops *)

Section RunStops.

Variable w : World.
Variable JSON_parse : jsstring -> Response JSON.
Variable path_relative : jsstring -> jsstring -> jsstring.
Variable inputs : Inputs.
Variable context : Context.

Lemma run_lookup_failure (e : jsstring) :
  repos_listPullRequestsAssociatedWithCommit w (owner context)
    (repo context) (sha context) = inl e ->
  run w JSON_parse path_relative inputs context =
    ([LogInfo (str "Finding associated pull requests...");
      ListPullRequestsAssociatedWithCommit (owner context) (repo context)
        (sha context)],
     Thrown e).
Proof. intros H. unfold run, await. rewrite H. reflexivity. Qed.

Variable pulls : list Pull.

Hypothesis Hpulls :
  repos_listPullRequestsAssociatedWithCommit w (owner context)
    (repo context) (sha context) = inr pulls.

Lemma run_download_failure (e : jsstring) :
  tool_download w (modularguardVersion inputs) = inl e ->
  run w JSON_parse path_relative inputs context =
    (untilDownload inputs context pulls, Thrown e).
Proof.
  intros Hdl. rewrite run_steps.
  unfold downloadModularGuard, await. rewrite Hpulls, Hdl.
  unfold untilDownload, pullLines.
  cbn [bind core_info emit trace outcome fst snd].
  destruct (0 <? length pulls)%nat; rewrite ?for_of_info;
    cbn [bind core_info emit trace outcome fst snd app];
    repeat first [rewrite <- app_assoc | rewrite <- app_comm_cons];
    reflexivity.
Qed.

Variable binaryPath : jsstring.

Hypothesis Hdownload :
  tool_download w (modularguardVersion inputs) = inr binaryPath.

(** After the binary is obtained, [run] goes as [executeModularGuard]
    ends. *)
Lemma run_after_download :
  run w JSON_parse path_relative inputs context =
    bind (untilExecuted w JSON_parse inputs context pulls binaryPath,
          outcome (executeModularGuard w JSON_parse binaryPath
                     (directory inputs) (configPath inputs)))
      (fun parsed =>
         result <- typed parsed ;;
         core_info (str "Analysis complete:") ;;
         core_info (str "  Total modules: "
                      ++ String_of (totalModules (summary result))) ;;
         core_info (str "  Total projects: "
                      ++ String_of (totalProjects (summary result))) ;;
         core_info (str "  Errors: "
                      ++ String_of (errorCount (summary result))) ;;
         core_info (str "  Warnings: "
                      ++ String_of (warningCount (summary result))) ;;
         printViolationsToConsole (relativize w path_relative result) ;;
         publish w context pulls (relativize w path_relative result) ;;
         setOutputs result ;;
         decideOutcome result)%action.
Proof.
  rewrite run_steps.
  unfold downloadModularGuard, await. rewrite Hpulls, Hdownload.
  unfold untilExecuted, untilDownload, pullLines.
  cbn [bind core_info emit trace outcome fst snd].
  destruct (executeModularGuard w JSON_parse binaryPath (directory inputs)
              (configPath inputs)) as [t [parsed|e|]];
    destruct (0 <? length pulls)%nat; rewrite ?for_of_info;
    cbn [bind core_info emit trace outcome fst snd app];
    repeat first [rewrite <- app_assoc | rewrite <- app_comm_cons];
    cbn [app]; reflexivity.
Qed.

Lemma run_execution_failure (e : jsstring) :
  outcome (executeModularGuard w JSON_parse binaryPath (directory inputs)
             (configPath inputs)) = Thrown e ->
  run w JSON_parse path_relative inputs context =
    (untilExecuted w JSON_parse inputs context pulls binaryPath, Thrown e).
Proof. intros H. rewrite run_after_download, H. reflexivity. Qed.

Lemma run_outside_schema (parsed : JSON) :
  outcome (executeModularGuard w JSON_parse binaryPath (directory inputs)
             (configPath inputs)) = Returned parsed ->
  asModularGuardResult parsed = None ->
  run w JSON_parse path_relative inputs context =
    (untilExecuted w JSON_parse inputs context pulls binaryPath,
     OutsideSchema).
Proof.
  intros H Hty. rewrite run_after_download, H.
  unfold bind at 1. unfold typed. rewrite Hty.
  cbn [bind trace outcome fst snd]. now rewrite app_nil_r.
Qed.

End RunStops.

Lemma untilDownload_events (inputs : Inputs) (context : Context)
  (pulls : list Pull) :
  forallb isPreparation (untilDownload inputs context pulls) = true
  /\ filter isExec (untilDownload inputs context pulls) = [].
Proof.
  unfold untilDownload, pullLines.
  destruct (0 <? length pulls)%nat; [|split; reflexivity].
  rewrite forallb_app, filter_app, forallb_app, filter_app.
  cbn [forallb isPreparation andb filter isExec app].
  induction pulls as [|pull pulls [IH1 IH2]]; [split; reflexivity|].
  cbn [map forallb filter isPreparation isExec andb].
  split; assumption.
Qed.

Lemma untilExecuted_events (w : World)
  (JSON_parse : jsstring -> Response JSON) (inputs : Inputs)
  (context : Context) (pulls : list Pull) (binaryPath : jsstring) :
  forallb isPreparation
    (untilExecuted w JSON_parse inputs context pulls binaryPath) = true.
Proof.
  unfold untilExecuted. rewrite !forallb_app.
  destruct (untilDownload_events inputs context pulls) as [-> _].
  rewrite (executeModularGuard_events w JSON_parse binaryPath
             (directory inputs) (configPath inputs)).
  reflexivity.
Qed.

Lemma filter_none {A : Type} (P Q : A -> bool) (l : list A) :
  (forall x, P x = true -> Q x = false) ->
  forallb P l = true -> filter Q l = [].
Proof.
  intros HPQ H. induction l as [|x l IH]; [reflexivity|].
  cbn [forallb] in H. apply andb_true_iff in H. destruct H as [Hx Hl].
  cbn [filter]. rewrite (HPQ x Hx). apply IH, Hl.
Qed.

Lemma preparation_no_publication (e : Event) :
  isPreparation e = true -> isPublication e = false.
Proof. destruct e; (discriminate || reflexivity). Qed.

Lemma preparation_no_output (e : Event) :
  isPreparation e = true -> isSetOutput e = false.
Proof. destruct e; (discriminate || reflexivity). Qed.

Lemma preparation_no_failure (e : Event) :
  isPreparation e = true -> isSetFailed e = false.
Proof. destruct e; (discriminate || reflexivity). Qed.

Lemma publishing_no_output (e : Event) :
  isPublishing e = true -> isSetOutput e = false.
Proof. destruct e; (discriminate || reflexivity). Qed.

Lemma publishing_no_failure (e : Event) :
  isPublishing e = true -> isSetFailed e = false.
Proof. destruct e; (discriminate || reflexivity). Qed.

(** The analysis gives no result exactly when the binary is not obtained,
    [executeModularGuard] does not return, or the parsed value is outside
    the schema. *)
Lemma analysisResult_none (w : World)
  (JSON_parse : jsstring -> Response JSON) (inputs : Inputs) :
  analysisResult w JSON_parse inputs = None ->
  (exists e, tool_download w (modularguardVersion inputs) = inl e)
  \/ exists binaryPath,
       tool_download w (modularguardVersion inputs) = inr binaryPath
       /\ ((exists e,
              outcome (executeModularGuard w JSON_parse binaryPath
                         (directory inputs) (configPath inputs)) = Thrown e)
           \/ exists parsed,
                outcome (executeModularGuard w JSON_parse binaryPath
                           (directory inputs) (configPath inputs))
                = Returned parsed
                /\ asModularGuardResult parsed = None).
Proof.
  unfold analysisResult.
  destruct (tool_download w (modularguardVersion inputs))
    as [e|binaryPath]; [intros _; left; now exists e|].
  intros H. right. exists binaryPath. split; [reflexivity|].
  pose proof (executeModularGuard_outcome w JSON_parse binaryPath
                (directory inputs) (configPath inputs)) as Hout.
  destruct (outcome (executeModularGuard w JSON_parse binaryPath
                       (directory inputs) (configPath inputs)))
    as [parsed|e|].
  - right. now exists parsed.
  - left. now exists e.
  - exfalso.
    destruct (exec_exec w binaryPath _) as [e|r]; [discriminate|].
    destruct (negb (nonempty (stdout r))); [discriminate|].
    destruct (JSON_parse (stdout r)) as [e|value]; [discriminate|].
    destruct (passesGate value); discriminate.
Qed.

(** A run without an analysis result does not return, and its events are
    those of the preparation. *)
Lemma run_without_result (w : World)
  (JSON_parse : jsstring -> Response JSON)
  (path_relative : jsstring -> jsstring -> jsstring)
  (inputs : Inputs) (context : Context) :
  (forall pulls,
      repos_listPullRequestsAssociatedWithCommit w (owner context)
        (repo context) (sha context) = inr pulls ->
      analysisResult w JSON_parse inputs = None) ->
  forallb isPreparation
    (trace (run w JSON_parse path_relative inputs context)) = true
  /\ forall u,
       outcome (run w JSON_parse path_relative inputs context)
       <> Returned u.
Proof.
  intros Hnone.
  destruct (repos_listPullRequestsAssociatedWithCommit w (owner context)
              (repo context) (sha context)) as [e|pulls] eqn:Hpulls.
  { rewrite (run_lookup_failure w JSON_parse path_relative inputs context
               e Hpulls).
    split; [reflexivity|discriminate]. }
  specialize (Hnone pulls eq_refl).
  destruct (analysisResult_none w JSON_parse inputs Hnone)
    as [[e Hdl]|[binaryPath [Hdl [[e Hexec]|[parsed [Hexec Hty]]]]]].
  - rewrite (run_download_failure w JSON_parse path_relative inputs context
               pulls Hpulls e Hdl).
    split; [apply untilDownload_events|discriminate].
  - rewrite (run_execution_failure w JSON_parse path_relative inputs context
               pulls Hpulls binaryPath Hdl e Hexec).
    split; [apply untilExecuted_events|discriminate].
  - rewrite (run_outside_schema w JSON_parse path_relative inputs context
               pulls Hpulls binaryPath Hdl parsed Hexec Hty).
    split; [apply untilExecuted_events|discriminate].
Qed.

Lemma existsb_filter {A : Type} (Q : A -> bool) (l : list A) :
  filter Q l = [] -> existsb Q l = false.
Proof.
  induction l as [|x l IH]; [reflexivity|].
  cbn [filter existsb]. destruct (Q x); [discriminate|exact IH].
Qed.

(** A run that obtains an analysis result: its events, and how it ends. *)
Lemma run_with_result (w : World) (JSON_parse : jsstring -> Response JSON)
  (path_relative : jsstring -> jsstring -> jsstring)
  (inputs : Inputs) (context : Context) (pulls : list Pull)
  (result : ModularGuardResult) :
  repos_listPullRequestsAssociatedWithCommit w (owner context)
    (repo context) (sha context) = inr pulls ->
  analysisResult w JSON_parse inputs = Some result ->
  exists binaryPath,
    tool_download w (modularguardVersion inputs) = inr binaryPath
    /\ run w JSON_parse path_relative inputs context =
         (preparation w JSON_parse inputs context pulls binaryPath result
            ++ trace (printViolationsToConsole
                        (relativize w path_relative result))
            ++ trace (publish w context pulls
                        (relativize w path_relative result))
            ++ match outcome (publish w context pulls
                                (relativize w path_relative result)) with
               | Returned _ => trace (setOutputs result) ++ [verdict result]
               | _ => []
               end,
          outcome (publish w context pulls
                     (relativize w path_relative result))).
Proof.
  intros Hpulls Hresult.
  destruct (run_after_analysis w JSON_parse path_relative inputs context
              pulls result Hpulls Hresult) as [binaryPath [Hdl Hrun]].
  exists binaryPath. split; [exact Hdl|]. rewrite Hrun.
  rewrite (bind_Returned _ _ _ tt eq_refl).
  destruct (publish_outcome_cases w context pulls
              (relativize w path_relative result)) as [Hpub|[e Hpub]].
  - rewrite Hpub. f_equal.
    + cbn [trace fst]. f_equal.
      rewrite trace_bind, printViolationsToConsole_returns. f_equal.
      rewrite trace_bind, Hpub. f_equal.
      rewrite trace_bind. f_equal.
      unfold decideOutcome, verdict, FAILURE_MESSAGE.
      destruct (0 <? length (violations result))%nat; reflexivity.
    + rewrite outcome_bind, printViolationsToConsole_returns.
      rewrite outcome_bind, Hpub. rewrite outcome_bind.
      unfold decideOutcome.
      destruct (0 <? length (violations result))%nat; reflexivity.
  - rewrite Hpub. f_equal.
    + cbn [trace fst]. f_equal.
      rewrite trace_bind, printViolationsToConsole_returns. f_equal.
      rewrite trace_bind, Hpub. reflexivity.
    + rewrite outcome_bind, printViolationsToConsole_returns.
      now rewrite outcome_bind, Hpub.
Qed.

(** With a binary that keeps to the schema, a run returns or throws. *)
Lemma run_within_schema (w : World)
  (JSON_parse : jsstring -> Response JSON)
  (path_relative : jsstring -> jsstring -> jsstring)
  (inputs : Inputs) (context : Context) :
  SchemaRespected w JSON_parse inputs ->
  outcome (run w JSON_parse path_relative inputs context) <> OutsideSchema.
Proof.
  intros Hschema.
  destruct (repos_listPullRequestsAssociatedWithCommit w (owner context)
              (repo context) (sha context)) as [e|pulls] eqn:Hpulls.
  { rewrite (run_lookup_failure w JSON_parse path_relative inputs context
               e Hpulls).
    discriminate. }
  destruct (analysisResult w JSON_parse inputs) as [result|] eqn:Hresult.
  - destruct (run_with_result w JSON_parse path_relative inputs context
                pulls result Hpulls Hresult) as [binaryPath [_ ->]].
    cbn [outcome snd].
    destruct (publish_outcome_cases w context pulls
                (relativize w path_relative result)) as [->|[e ->]];
      discriminate.
  - destruct (analysisResult_none w JSON_parse inputs Hresult)
      as [[e Hdl]|[binaryPath [Hdl [[e Hexec]|[parsed [Hexec Hty]]]]]].
    + rewrite (run_download_failure w JSON_parse path_relative inputs
                 context pulls Hpulls e Hdl).
      discriminate.
    + rewrite (run_execution_failure w JSON_parse path_relative inputs
                 context pulls Hpulls binaryPath Hdl e Hexec).
      discriminate.
    + destruct (Hschema binaryPath parsed Hdl Hexec) as [result Hsome].
      congruence.
Qed.

(** The sample binary keeps to the schema. *)
Lemma sample_schema_respected (pulls : list Pull) (refused : Z -> bool) :
  SchemaRespected (sample_world pulls sample_stdout refused)
    sample_JSON_parse sample_inputs.
Proof.
  intros binaryPath parsed _ Hexec.
  rewrite executeModularGuard_outcome in Hexec.
  vm_compute in Hexec. injection Hexec as <-.
  exists sample_result. vm_compute. reflexivity.
Qed.

(** X12. A failure before publication ends the run at once, with the
    error as it is.  When the pull requests of the commit cannot be listed,
    the run throws after that one request: nothing is downloaded or
    executed.  When the binary cannot be obtained, the run throws the
    error of the download and the binary is never started.  When
    [executeModularGuard] throws, the run throws its error, and there is
    no check run, no comment and no output. *)
Theorem run_stops_at_first_failure (w : World)
  (JSON_parse : jsstring -> Response JSON)
  (path_relative : jsstring -> jsstring -> jsstring)
  (inputs : Inputs) (context : Context) :
  let r := run w JSON_parse path_relative inputs context in
  match repos_listPullRequestsAssociatedWithCommit w (owner context)
          (repo context) (sha context) with
  | inl e =>
      r = ([LogInfo (str "Finding associated pull requests...");
            ListPullRequestsAssociatedWithCommit (owner context)
              (repo context) (sha context)],
           Thrown e)
  | inr pulls =>
      match tool_download w (modularguardVersion inputs) with
      | inl e =>
          r = (untilDownload inputs context pulls, Thrown e)
          /\ filter isExec (trace r) = []
          /\ filter isPublication (trace r) = []
          /\ filter isSetOutput (trace r) = []
      | inr binaryPath =>
          match outcome (executeModularGuard w JSON_parse binaryPath
                           (directory inputs) (configPath inputs)) with
          | Thrown e =>
              r = (untilExecuted w JSON_parse inputs context pulls
                     binaryPath,
                   Thrown e)
              /\ filter isPublication (trace r) = []
              /\ filter isSetOutput (trace r) = []
          | _ => True
          end
      end
  end.
Proof.
  intros r. subst r.
  destruct (repos_listPullRequestsAssociatedWithCommit w (owner context)
              (repo context) (sha context)) as [e|pulls] eqn:Hpulls.
  { apply run_lookup_failure, Hpulls. }
  destruct (tool_download w (modularguardVersion inputs))
    as [e|binaryPath] eqn:Hdl.
  { rewrite (run_download_failure w JSON_parse path_relative inputs context
               pulls Hpulls e Hdl).
    cbn [trace fst].
    destruct (untilDownload_events inputs context pulls) as [Hprep Hexec].
    split; [reflexivity|]. split; [exact Hexec|].
    split; [exact (filter_none _ _ _ preparation_no_publication Hprep)
           |exact (filter_none _ _ _ preparation_no_output Hprep)]. }
  destruct (outcome (executeModularGuard w JSON_parse binaryPath
                       (directory inputs) (configPath inputs)))
    as [parsed|e|] eqn:Hexec; [exact I| |exact I].
  rewrite (run_execution_failure w JSON_parse path_relative inputs context
             pulls Hpulls binaryPath Hdl e Hexec).
  cbn [trace fst].
  pose proof (untilExecuted_events w JSON_parse inputs context pulls
                binaryPath) as Hprep.
  split; [reflexivity|].
  split; [exact (filter_none _ _ _ preparation_no_publication Hprep)
         |exact (filter_none _ _ _ preparation_no_output Hprep)].
Qed.

Lemma console_filter (Q : Event -> bool) (result : ModularGuardResult) :
  (forall msg, Q (LogInfo msg) = false) ->
  filter Q (trace (printViolationsToConsole result)) = [].
Proof.
  intros HQ.
  apply (filter_none
           (fun e => match e with LogInfo _ => true | _ => false end)).
  - intros [msg| | | | | | | | | | | | | ] H; try discriminate. apply HQ.
  - apply printViolationsToConsole_logs.
Qed.

(** X13. Nothing is published without a pull request and a result.  In
    a run whose binary keeps to the schema, when a request of the
    publication step is made (a check run, a lookup of comments, a
    comment), the commit has a pull request and the analysis gave a result,
    and the first of these requests is the creation of the check run for
    that result, its paths made relative. *)
Theorem run_publishes_only_results (w : World)
  (JSON_parse : jsstring -> Response JSON)
  (path_relative : jsstring -> jsstring -> jsstring)
  (inputs : Inputs) (context : Context) :
  SchemaRespected w JSON_parse inputs ->
  existsb isPublication
    (trace (run w JSON_parse path_relative inputs context)) = true ->
  exists pulls result,
    repos_listPullRequestsAssociatedWithCommit w (owner context)
      (repo context) (sha context) = inr pulls
    /\ pulls <> []
    /\ analysisResult w JSON_parse inputs = Some result
    /\ exists rest,
         filter isPublication
           (trace (run w JSON_parse path_relative inputs context))
         = ChecksCreate (owner context) (repo context)
             (checkRunPayload (sha context)
                (relativize w path_relative result))
             :: rest.
Proof.
  intros _ Hsome.
  destruct (analysisResult w JSON_parse inputs) as [result|] eqn:Hresult.
  2:{ exfalso.
      destruct (run_without_result w JSON_parse path_relative inputs context
                  (fun _ _ => Hresult)) as [Hprep _].
      rewrite (existsb_filter _ _
                 (filter_none _ _ _ preparation_no_publication Hprep))
        in Hsome.
      discriminate. }
  destruct (repos_listPullRequestsAssociatedWithCommit w (owner context)
              (repo context) (sha context)) as [e|pulls] eqn:Hpulls.
  { exfalso.
    rewrite (run_lookup_failure w JSON_parse path_relative inputs context
               e Hpulls) in Hsome.
    discriminate. }
  destruct (run_with_result w JSON_parse path_relative inputs context pulls
              result Hpulls Hresult) as [binaryPath [_ Hrun]].
  rewrite Hrun in *. cbn [trace fst] in *.
  assert (Hparts :
            forall tail,
              (forall e, In e tail -> isPublication e = false) ->
              filter isPublication
                (preparation w JSON_parse inputs context pulls binaryPath
                   result
                   ++ trace (printViolationsToConsole
                               (relativize w path_relative result))
                   ++ trace (publish w context pulls
                               (relativize w path_relative result))
                   ++ tail)
              = filter isPublication
                  (trace (publish w context pulls
                            (relativize w path_relative result)))).
  { intros tail Htail. rewrite !filter_app.
    rewrite (filter_none _ _ _ preparation_no_publication
               (preparation_events w JSON_parse inputs context pulls result
                  binaryPath)).
    rewrite console_filter by reflexivity.
    assert (Ht : filter isPublication tail = []).
    { induction tail as [|x tail IH]; [reflexivity|].
      cbn [filter]. rewrite (Htail x (or_introl eq_refl)).
      apply IH. intros y Hy. apply Htail. now right. }
    rewrite Ht, app_nil_r. reflexivity. }
  assert (Htail :
            forall e,
              In e match outcome (publish w context pulls
                                    (relativize w path_relative result)) with
                   | Returned _ => trace (setOutputs result)
                                     ++ [verdict result]
                   | _ => []
                   end ->
              isPublication e = false).
  { intros e.
    destruct (outcome (publish w context pulls
                         (relativize w path_relative result)));
      [|intros []|intros []].
    rewrite setOutputs_trace. unfold verdict.
    destruct (0 <? length (violations result))%nat;
      intros [<-|[<-|[<-|[<-|[<-|[]]]]]]; reflexivity. }
  assert (Hne : filter isPublication
                  (trace (publish w context pulls
                            (relativize w path_relative result))) <> []).
  { rewrite <- (Hparts _ Htail). intros Hnil.
    rewrite (existsb_filter _ _ Hnil) in Hsome. discriminate. }
  exists pulls, result. split; [reflexivity|].
  destruct pulls as [|pull pulls].
  { exfalso. apply Hne. reflexivity. }
  split; [discriminate|]. split; [reflexivity|].
  rewrite (Hparts _ Htail).
  unfold publish. cbv zeta. cbn [length Nat.ltb Nat.leb].
  rewrite bind_core_info. cbn [trace fst filter isPublication].
  rewrite trace_bind, createCheckRun_trace.
  cbn [app filter isPublication]. eexists. reflexivity.
Qed.

(** X13, witness: the sample run on a commit with two pull requests. *)
Lemma run_publishes_only_results_witness :
  let w := sample_world sample_pulls sample_stdout (fun _ => false) in
  exists pulls result,
    repos_listPullRequestsAssociatedWithCommit w (owner sample_context)
      (repo sample_context) (sha sample_context) = inr pulls
    /\ pulls <> []
    /\ analysisResult w sample_JSON_parse sample_inputs = Some result
    /\ exists rest,
         filter isPublication
           (trace (run w sample_JSON_parse (PosixPath.relative (str "/ws"))
                     sample_inputs sample_context))
         = ChecksCreate (owner sample_context) (repo sample_context)
             (checkRunPayload (sha sample_context)
                (relativize w (PosixPath.relative (str "/ws")) result))
             :: rest.
Proof.
  intros w.
  apply (run_publishes_only_results w sample_JSON_parse
           (PosixPath.relative (str "/ws")) sample_inputs sample_context
           (sample_schema_respected sample_pulls (fun _ => false))).
  vm_compute. reflexivity.
Defined.

Lemma verdict_events (result : ModularGuardResult) :
  isSetOutput (verdict result) = false
  /\ isPublication (verdict result) = false
  /\ isSetFailed (verdict result) = (0 <? length (violations result))%nat.
Proof.
  unfold verdict. destruct (0 <? length (violations result))%nat;
    repeat split.
Qed.

(** X14. The outputs are set together or not at all.  In a run whose
    binary keeps to the schema, the run returns or throws; when it returns
    it has obtained an analysis result and has set the four outputs
    [violations-count], [error-count], [warning-count] and [status], once
    each and in this order, from that result; when it throws it has set no
    output. *)
Theorem run_outputs_all_or_nothing (w : World)
  (JSON_parse : jsstring -> Response JSON)
  (path_relative : jsstring -> jsstring -> jsstring)
  (inputs : Inputs) (context : Context) :
  SchemaRespected w JSON_parse inputs ->
  let r := run w JSON_parse path_relative inputs context in
  (forall u,
      outcome r = Returned u ->
      exists result,
        analysisResult w JSON_parse inputs = Some result
        /\ filter isSetOutput (trace r) =
             [SetOutput (str "violations-count")
                (String_of (Z.of_nat (length (violations result))));
              SetOutput (str "error-count")
                (String_of (errorCount (summary result)));
              SetOutput (str "warning-count")
                (String_of (warningCount (summary result)));
              SetOutput (str "status") (STATUS result)])
  /\ (forall e, outcome r = Thrown e -> filter isSetOutput (trace r) = [])
  /\ ((exists u, outcome r = Returned u) \/ exists e, outcome r = Thrown e).
Proof.
  intros Hschema r. subst r.
  pose proof (run_within_schema w JSON_parse path_relative inputs context
                Hschema) as Hwithin.
  assert (Hcases :
            match outcome (run w JSON_parse path_relative inputs
                             context) with
            | Returned _ =>
                exists result,
                  analysisResult w JSON_parse inputs = Some result
                  /\ filter isSetOutput
                       (trace (run w JSON_parse path_relative inputs
                                 context)) =
                       [SetOutput (str "violations-count")
                          (String_of
                             (Z.of_nat (length (violations result))));
                        SetOutput (str "error-count")
                          (String_of (errorCount (summary result)));
                        SetOutput (str "warning-count")
                          (String_of (warningCount (summary result)));
                        SetOutput (str "status") (STATUS result)]
            | _ =>
                filter isSetOutput
                  (trace (run w JSON_parse path_relative inputs context))
                = []
            end).
  { destruct (analysisResult w JSON_parse inputs) as [result|] eqn:Hresult.
    2:{ destruct (run_without_result w JSON_parse path_relative inputs
                    context (fun _ _ => Hresult)) as [Hprep Hout].
        pose proof (filter_none _ _ _ preparation_no_output Hprep)
          as Hnone.
        destruct (outcome (run w JSON_parse path_relative inputs context))
          as [u|e|]; [|exact Hnone|exact Hnone].
        exfalso. exact (Hout u eq_refl). }
    destruct (repos_listPullRequestsAssociatedWithCommit w (owner context)
                (repo context) (sha context)) as [e|pulls] eqn:Hpulls.
    { rewrite (run_lookup_failure w JSON_parse path_relative inputs context
                 e Hpulls).
      reflexivity. }
    destruct (run_with_result w JSON_parse path_relative inputs context
                pulls result Hpulls Hresult) as [binaryPath [_ Hrun]].
    rewrite Hrun. cbn [trace outcome fst snd].
    rewrite !filter_app.
    rewrite (filter_none _ _ _ preparation_no_output
               (preparation_events w JSON_parse inputs context pulls result
                  binaryPath)).
    rewrite console_filter by reflexivity.
    rewrite (filter_none _ _ _ publishing_no_output
               (publish_events w context
                  (relativize w path_relative result) pulls)).
    cbn [app].
    destruct (outcome (publish w context pulls
                         (relativize w path_relative result)));
      [|reflexivity|reflexivity].
    exists result. split; [reflexivity|].
    rewrite filter_app. cbn [filter].
    destruct (verdict_events result) as [-> _]. reflexivity. }
  destruct (outcome (run w JSON_parse path_relative inputs context))
    as [u|e|]; [| |contradiction].
  - split; [intros _ _; exact Hcases|].
    split; [discriminate|]. left. now exists u.
  - split; [discriminate|].
    split; [intros _ _; exact Hcases|]. right. now exists e.
Qed.

(** X14, witness: the sample run on a commit with two pull requests sets
    the four outputs, and the run whose check run is refused sets none. *)
Lemma run_outputs_all_or_nothing_witness :
  let relative := PosixPath.relative (str "/ws") in
  filter isSetOutput
    (trace (run (sample_world sample_pulls sample_stdout (fun _ => false))
              sample_JSON_parse relative sample_inputs sample_context))
  = [SetOutput (str "violations-count") (str "1");
     SetOutput (str "error-count") (str "0");
     SetOutput (str "warning-count") (str "1");
     SetOutput (str "status") (str "success")]
  /\ filter isSetOutput
       (trace (run (sample_world sample_pulls sample_stdout
                      (fun n => (n =? 7)%Z))
                 sample_JSON_parse relative sample_inputs sample_context))
     = [].
Proof.
  intros relative. split.
  - destruct (run_outputs_all_or_nothing
                (sample_world sample_pulls sample_stdout (fun _ => false))
                sample_JSON_parse relative sample_inputs sample_context
                (sample_schema_respected sample_pulls (fun _ => false)))
      as [Hreturned _].
    destruct (Hreturned tt ltac:(vm_compute; reflexivity))
      as [result [Hresult Houtputs]].
    rewrite sample_analysis in Hresult. injection Hresult as <-.
    exact Houtputs.
  - destruct (run_outputs_all_or_nothing
                (sample_world sample_pulls sample_stdout
                   (fun n => (n =? 7)%Z))
                sample_JSON_parse relative sample_inputs sample_context
                (sample_schema_respected sample_pulls
                   (fun n => (n =? 7)%Z)))
      as [_ [Hthrown _]].
    exact (Hthrown
             (str "Failed to create comment: Resource not accessible by integration")
             ltac:(vm_compute; reflexivity)).
Defined.

(** X15. With a binary that keeps to the schema, the top level always
    returns, and it marks the action failed at most once: once with the
    error when the run throws, once with the message counting the
    violations when the run returns with at least one violation, and not
    at all when the run returns without violation. *)
Theorem main_marks_failure_once (w : World)
  (JSON_parse : jsstring -> Response JSON)
  (path_relative : jsstring -> jsstring -> jsstring)
  (inputs : Inputs) (context : Context) :
  SchemaRespected w JSON_parse inputs ->
  let r := run w JSON_parse path_relative inputs context in
  let m := main w JSON_parse path_relative inputs context in
  outcome m = Returned tt
  /\ (forall e,
        outcome r = Thrown e ->
        filter isSetFailed (trace m) = [SetFailed e])
  /\ (forall u,
        outcome r = Returned u ->
        exists result,
          analysisResult w JSON_parse inputs = Some result
          /\ filter isSetFailed (trace m) =
               if (0 <? length (violations result))%nat
               then [SetFailed (FAILURE_MESSAGE result)]
               else [])
  /\ ((exists u, outcome r = Returned u) \/ exists e, outcome r = Thrown e).
Proof.
  intros Hschema r m. subst r m.
  pose proof (run_within_schema w JSON_parse path_relative inputs context
                Hschema) as Hwithin.
  unfold main.
  rewrite outcome_try_catch, trace_try_catch, filter_app.
  assert (Hrun :
            match outcome (run w JSON_parse path_relative inputs
                             context) with
            | Returned _ =>
                exists result,
                  analysisResult w JSON_parse inputs = Some result
                  /\ filter isSetFailed
                       (trace (run w JSON_parse path_relative inputs
                                 context)) =
                       if (0 <? length (violations result))%nat
                       then [SetFailed (FAILURE_MESSAGE result)]
                       else []
            | _ =>
                filter isSetFailed
                  (trace (run w JSON_parse path_relative inputs context))
                = []
            end).
  { destruct (analysisResult w JSON_parse inputs) as [result|] eqn:Hresult.
    2:{ destruct (run_without_result w JSON_parse path_relative inputs
                    context (fun _ _ => Hresult)) as [Hprep Hout].
        pose proof (filter_none _ _ _ preparation_no_failure Hprep)
          as Hnone.
        destruct (outcome (run w JSON_parse path_relative inputs context))
          as [u|e|]; [|exact Hnone|exact Hnone].
        exfalso. exact (Hout u eq_refl). }
    destruct (repos_listPullRequestsAssociatedWithCommit w (owner context)
                (repo context) (sha context)) as [e|pulls] eqn:Hpulls.
    { rewrite (run_lookup_failure w JSON_parse path_relative inputs context
                 e Hpulls).
      reflexivity. }
    destruct (run_with_result w JSON_parse path_relative inputs context
                pulls result Hpulls Hresult) as [binaryPath [_ ->]].
    cbn [trace outcome fst snd].
    rewrite !filter_app.
    rewrite (filter_none _ _ _ preparation_no_failure
               (preparation_events w JSON_parse inputs context pulls result
                  binaryPath)).
    rewrite console_filter by reflexivity.
    rewrite (filter_none _ _ _ publishing_no_failure
               (publish_events w context
                  (relativize w path_relative result) pulls)).
    cbn [app].
    destruct (outcome (publish w context pulls
                         (relativize w path_relative result)));
      [|reflexivity|reflexivity].
    exists result. split; [reflexivity|].
    rewrite setOutputs_trace. cbn [app filter isSetFailed].
    unfold verdict, FAILURE_MESSAGE.
    destruct (0 <? length (violations result))%nat; reflexivity. }
  destruct (outcome (run w JSON_parse path_relative inputs context))
    as [[]|e|]; [| |contradiction].
  - split; [reflexivity|]. split; [discriminate|].
    split; [|left; now exists tt].
    intros _ _. destruct Hrun as [result [Hresult Hfailed]].
    exists result. split; [exact Hresult|].
    now rewrite app_nil_r.
  - split; [reflexivity|].
    split; [|split; [discriminate|right; now exists e]].
    intros e' He'. injection He' as <-. rewrite Hrun. reflexivity.
Qed.

(** X15, witness: the sample run, whose result has one warning, fails the
    action once, with the message that counts the violations. *)
Lemma main_marks_failure_once_witness :
  filter isSetFailed
    (trace (main (sample_world sample_pulls sample_stdout (fun _ => false))
              sample_JSON_parse (PosixPath.relative (str "/ws"))
              sample_inputs sample_context))
  = [SetFailed (FAILURE_MESSAGE sample_result)].
Proof.
  destruct (main_marks_failure_once
              (sample_world sample_pulls sample_stdout (fun _ => false))
              sample_JSON_parse (PosixPath.relative (str "/ws"))
              sample_inputs sample_context
              (sample_schema_respected sample_pulls (fun _ => false)))
    as [_ [_ [Hreturned _]]].
  destruct (Hreturned tt ltac:(vm_compute; reflexivity))
    as [result [Hresult Hfailed]].
  rewrite sample_analysis in Hresult. injection Hresult as <-.
  exact Hfailed.
Defined.

Lemma publish_check_run_refused (w : World) (context : Context)
  (pulls : list Pull) (result : ModularGuardResult) (e : jsstring) :
  pulls <> [] ->
  checks_create w (owner context) (repo context)
    (checkRunPayload (sha context) result) = inl e ->
  publish w context pulls result =
    ([LogInfo (str "Creating check run with annotations...");
      ChecksCreate (owner context) (repo context)
        (checkRunPayload (sha context) result)],
     Thrown (str "Failed to create check run: " ++ e)).
Proof.
  intros Hne Hrefused. unfold publish, createCheckRun, await. cbv zeta.
  destruct pulls as [|pull pulls]; [contradiction|].
  cbn [length Nat.ltb Nat.leb]. rewrite Hrefused. reflexivity.
Qed.

(** X16. A check run that cannot be created ends the run before any
    comment.  In a run that has a pull request and an analysis result, when
    the creation of the check run is refused, the run throws
    [Failed to create check run: ...] right after that request: no comment
    is looked up, created or updated, no output is set, and the top level
    fails the action with that error. *)
Theorem check_run_failure_ends_run (w : World)
  (JSON_parse : jsstring -> Response JSON)
  (path_relative : jsstring -> jsstring -> jsstring)
  (inputs : Inputs) (context : Context) (pulls : list Pull)
  (result : ModularGuardResult) (e : jsstring) :
  repos_listPullRequestsAssociatedWithCommit w (owner context)
    (repo context) (sha context) = inr pulls ->
  pulls <> [] ->
  analysisResult w JSON_parse inputs = Some result ->
  checks_create w (owner context) (repo context)
    (checkRunPayload (sha context) (relativize w path_relative result))
  = inl e ->
  let r := run w JSON_parse path_relative inputs context in
  let message := str "Failed to create check run: " ++ e in
  outcome r = Thrown message
  /\ (exists before,
        trace r =
          before
            ++ [ChecksCreate (owner context) (repo context)
                  (checkRunPayload (sha context)
                     (relativize w path_relative result))])
  /\ filter isCommentRequest (trace r) = []
  /\ filter isSetOutput (trace r) = []
  /\ main w JSON_parse path_relative inputs context =
       (trace r ++ [SetFailed message; ConsoleError message], Returned tt).
Proof.
  intros Hpulls Hne Hresult Hrefused r message. subst r message.
  destruct (run_with_result w JSON_parse path_relative inputs context pulls
              result Hpulls Hresult) as [binaryPath [_ Hrun]].
  rewrite (publish_check_run_refused w context pulls
             (relativize w path_relative result) e Hne Hrefused) in Hrun.
  cbn [trace outcome fst snd] in Hrun.
  unfold main. rewrite Hrun. cbn [trace outcome fst snd].
  pose proof (preparation_events w JSON_parse inputs context pulls result
                binaryPath) as Hprep.
  split; [reflexivity|]. split; [|split; [|split]].
  - eexists.
    rewrite app_nil_r.
    change [LogInfo (str "Creating check run with annotations...");
            ChecksCreate (owner context) (repo context)
              (checkRunPayload (sha context)
                 (relativize w path_relative result))]
      with ([LogInfo (str "Creating check run with annotations...")]
              ++ [ChecksCreate (owner context) (repo context)
                    (checkRunPayload (sha context)
                       (relativize w path_relative result))]).
    rewrite !app_assoc. reflexivity.
  - rewrite !filter_app.
    rewrite (filter_none isPreparation isCommentRequest _
               ltac:(intros [ ]; (discriminate || reflexivity)) Hprep).
    rewrite console_filter by reflexivity. reflexivity.
  - rewrite !filter_app.
    rewrite (filter_none _ _ _ preparation_no_output Hprep).
    rewrite console_filter by reflexivity. reflexivity.
  - reflexivity.
Qed.

(** X16, witness: the sample run with a token that may not create check
    runs. *)
Lemma check_run_failure_ends_run_witness :
  let w := unchecked_world sample_pulls in
  let r := run w sample_JSON_parse (PosixPath.relative (str "/ws"))
             sample_inputs sample_context in
  outcome r
  = Thrown (str "Failed to create check run: Resource not accessible by integration")
  /\ filter isCommentRequest (trace r) = []
  /\ filter isSetOutput (trace r) = [].
Proof.
  intros w r.
  destruct (check_run_failure_ends_run w sample_JSON_parse
              (PosixPath.relative (str "/ws")) sample_inputs sample_context
              sample_pulls sample_result
              (str "Resource not accessible by integration")
              eq_refl ltac:(discriminate)
              ltac:(vm_compute; reflexivity) eq_refl)
    as [Hout [_ [Hcomments [Houtputs _]]]].
  split; [exact Hout|]. split; [exact Hcomments|exact Houtputs].
Defined.

(** ** One comment per pull request *)

Lemma publishComment_write (w : World) (context : Context)
  (result : ModularGuardResult) (pull : Pull) :
  filter isCommentWrite (trace (publishComment w context result pull))
  = [commentWrite w context (formatComment result (Some (runUrl w))) pull].
Proof.
  unfold publishComment, commentWrite, ownComment.
  rewrite trace_bind.
  destruct (issues_listComments w (owner context) (repo context)
              (number pull)) as [e|comments] eqn:Hlist.
  - rewrite (findExistingComment_lookup_failure w _ _ _ e Hlist).
    cbn [trace outcome fst snd]. cbv zeta.
    rewrite trace_bind, createOrUpdateComment_cases.
    cbn [trace outcome fst snd app filter isCommentWrite].
    destruct (issues_createComment w _ _ _ _) as [e'|[]]; reflexivity.
  - rewrite (findExistingComment_found w _ _ _ comments Hlist).
    cbn [trace outcome fst snd]. cbv zeta.
    rewrite trace_bind, createOrUpdateComment_cases.
    destruct (find carriesMarker comments) as [c|].
    + destruct (id c =? 0)%Z; cbn [negb trace outcome fst snd app filter
                                     isCommentWrite];
        match goal with
        | |- context [match ?r with inl _ => _ | inr _ => _ end] =>
            destruct r as [e'|[]]
        end; reflexivity.
    + cbn [trace outcome fst snd app filter isCommentWrite].
      destruct (issues_createComment w _ _ _ _) as [e'|[]]; reflexivity.
Qed.

Lemma publishComment_no_check_run (w : World) (context : Context)
  (result : ModularGuardResult) (pulls : list Pull) :
  filter isChecksCreate
    (trace (for_of pulls (publishComment w context result))) = [].
Proof.
  apply (filter_none
           (fun e => negb (isChecksCreate e)) isChecksCreate).
  { intros e H. now apply negb_true_iff in H. }
  assert (H : onlyEvents (fun e => negb (isChecksCreate e))
                (for_of pulls (publishComment w context result))).
  { unfold publishComment, findExistingComment, createOrUpdateComment.
    only_events. }
  exact H.
Qed.

(** X17. One check run for the commit, one comment per pull request.  In
    a run with an analysis result whose publication requests all succeed,
    the check run is created once, however many pull requests the commit
    has (and not at all when it has none), and every pull request receives
    exactly one comment write, in the order of the pull requests, all with
    the same body: the update of the first comment that carries the marker
    when there is one with a non-zero id, the creation of a comment
    otherwise. *)
Theorem run_one_comment_per_pull (w : World)
  (JSON_parse : jsstring -> Response JSON)
  (path_relative : jsstring -> jsstring -> jsstring)
  (inputs : Inputs) (context : Context) (pulls : list Pull)
  (result : ModularGuardResult) :
  repos_listPullRequestsAssociatedWithCommit w (owner context)
    (repo context) (sha context) = inr pulls ->
  analysisResult w JSON_parse inputs = Some result ->
  PublicationSucceeds w context ->
  let r := run w JSON_parse path_relative inputs context in
  let published := relativize w path_relative result in
  filter isCommentWrite (trace r)
  = map (commentWrite w context
           (formatComment published (Some (runUrl w)))) pulls
  /\ filter isChecksCreate (trace r)
     = match pulls with
       | [] => []
       | _ :: _ =>
           [ChecksCreate (owner context) (repo context)
              (checkRunPayload (sha context) published)]
       end.
Proof.
  intros Hpulls Hresult Hok r published. subst r published.
  destruct (run_with_result w JSON_parse path_relative inputs context pulls
              result Hpulls Hresult) as [binaryPath [_ ->]].
  rewrite (publish_succeeds w context (relativize w path_relative result)
             Hok pulls).
  cbn [trace fst].
  pose proof (preparation_events w JSON_parse inputs context pulls result
                binaryPath) as Hprep.
  assert (Hloop :
            forall l,
              filter isCommentWrite
                (trace (for_of l
                          (publishComment w context
                             (relativize w path_relative result))))
              = map (commentWrite w context
                       (formatComment (relativize w path_relative result)
                          (Some (runUrl w)))) l).
  { induction l as [|pull l IH]; [reflexivity|].
    cbn [for_of map]. rewrite trace_bind, filter_app, publishComment_write.
    destruct (outcome (publishComment w context
                         (relativize w path_relative result) pull))
      eqn:Hout.
    - now rewrite IH.
    - rewrite (publishComment_succeeds w context
                 (relativize w path_relative result) Hok pull) in Hout.
      discriminate.
    - rewrite (publishComment_succeeds w context
                 (relativize w path_relative result) Hok pull) in Hout.
      discriminate. }
  assert (Htail :
            filter isCommentWrite [verdict result] = []
            /\ filter isChecksCreate [verdict result] = []).
  { unfold verdict.
    destruct (0 <? length (violations result))%nat; split; reflexivity. }
  destruct Htail as [Htail1 Htail2].
  split.
  - rewrite !filter_app.
    rewrite (filter_none isPreparation isCommentWrite _
               ltac:(intros [ ]; (discriminate || reflexivity)) Hprep).
    rewrite console_filter by reflexivity.
    rewrite Htail1, setOutputs_trace. cbn [app filter isCommentWrite].
    rewrite app_nil_r.
    unfold publish. cbv zeta.
    destruct pulls as [|pull pulls]; [reflexivity|].
    cbn [length Nat.ltb Nat.leb].
    rewrite bind_core_info. cbn [trace fst filter isCommentWrite].
    rewrite trace_bind, createCheckRun_trace.
    cbn [app filter isCommentWrite].
    rewrite (createCheckRun_succeeds w context
               (relativize w path_relative result) Hok).
    rewrite bind_core_info. cbn [trace fst filter isCommentWrite].
    apply Hloop.
  - rewrite !filter_app.
    rewrite (filter_none isPreparation isChecksCreate _
               ltac:(intros [ ]; (discriminate || reflexivity)) Hprep).
    rewrite console_filter by reflexivity.
    rewrite Htail2, setOutputs_trace. cbn [app filter isChecksCreate].
    rewrite app_nil_r.
    unfold publish. cbv zeta.
    destruct pulls as [|pull pulls]; [reflexivity|].
    cbn [length Nat.ltb Nat.leb].
    rewrite bind_core_info. cbn [trace fst filter isChecksCreate].
    rewrite trace_bind, createCheckRun_trace.
    cbn [app filter isChecksCreate].
    rewrite (createCheckRun_succeeds w context
               (relativize w path_relative result) Hok).
    rewrite bind_core_info. cbn [trace fst filter isChecksCreate].
    now rewrite publishComment_no_check_run.
Qed.

(** X17, witness: two pull requests, each holding the comment of an
    earlier run with id 12: two updates, one check run. *)
Lemma run_one_comment_per_pull_witness :
  let w := commented_world sample_pulls in
  let relative := PosixPath.relative (str "/ws") in
  let r := run w sample_JSON_parse relative sample_inputs sample_context in
  let body := formatComment (relativize w relative sample_result)
                (Some (runUrl w)) in
  filter isCommentWrite (trace r)
  = [UpdateComment (str "octo-org") (str "shop") 12 body;
     UpdateComment (str "octo-org") (str "shop") 12 body]
  /\ length (filter isChecksCreate (trace r)) = 1%nat.
Proof.
  intros w relative r body.
  destruct (run_one_comment_per_pull w sample_JSON_parse relative
              sample_inputs sample_context sample_pulls sample_result
              eq_refl ltac:(vm_compute; reflexivity)
              ltac:(repeat split))
    as [Hwrites Hcheck].
  split.
  - etransitivity; [exact Hwrites|]. vm_compute. reflexivity.
  - etransitivity; [exact (f_equal (@length Event) Hcheck)|reflexivity].
Defined.

(** ** Paths below the workspace root *)

Lemma jsstring_eqb_longer (s t : jsstring) (c : char16) :
  jsstring_eqb s (s ++ c :: t) = false.
Proof.
  apply jsstring_eqb_neq. intros H.
  apply (f_equal (@length char16)) in H.
  rewrite length_app in H. cbn [length] in H. lia.
Qed.

(** Splitting an absolute path made of segments, a separator closing
    it. *)
Lemma split_rooted (segments : list jsstring) (rest : jsstring) :
  Forall (fun seg => ~ In SLASH seg) segments ->
  exists empties,
    Forall (fun seg => seg = []) empties
    /\ PosixPath.split (SLASH :: PosixPath.join segments ++ SLASH :: rest)
       = empties ++ segments ++ PosixPath.split rest.
Proof.
  intros Hfree.
  change (PosixPath.split
            (SLASH :: PosixPath.join segments ++ SLASH :: rest))
    with ([] :: PosixPath.split (PosixPath.join segments ++ SLASH :: rest)).
  rewrite split_app_slash.
  destruct segments as [|seg segments].
  - exists [[]; []]. split; [repeat constructor|reflexivity].
  - rewrite split_join by (discriminate || exact Hfree).
    exists [[]]. split; [repeat constructor|reflexivity].
Qed.

Lemma normalize_empties (empties kept : list jsstring) :
  Forall (fun seg => seg = []) empties ->
  fold_left PosixPath.normalizeStep empties kept = kept.
Proof.
  intros H. revert kept.
  induction H as [|seg empties -> _ IH]; intros kept; [reflexivity|].
  cbn [fold_left]. apply IH.
Qed.

Lemma resolve_rooted (cwd : jsstring) (segments : list jsstring) :
  forallb isNormal segments = true ->
  Forall (fun seg => ~ In SLASH seg) segments ->
  PosixPath.resolve cwd (SLASH :: PosixPath.join segments) = segments.
Proof.
  intros Hnormal Hfree. unfold PosixPath.resolve. cbv zeta.
  cbn [nonempty startsWith]. rewrite N.eqb_refl. cbn [andb].
  change ((SLASH :: PosixPath.join segments) ++ [SLASH])
    with (SLASH :: PosixPath.join segments ++ SLASH :: []).
  destruct (split_rooted segments [] Hfree) as [empties [Hempty ->]].
  unfold PosixPath.normalize.
  rewrite !fold_left_app, (normalize_empties _ _ Hempty).
  rewrite (normalize_normal_segments _ _ Hnormal).
  cbn [PosixPath.split fold_left]. rewrite app_nil_r.
  change (PosixPath.normalizeStep (rev segments) []) with (rev segments).
  apply rev_involutive.
Qed.

Lemma resolve_below (cwd : jsstring) (segments below : list jsstring) :
  forallb isNormal segments = true ->
  Forall (fun seg => ~ In SLASH seg) segments ->
  forallb isNormal below = true ->
  Forall (fun seg => ~ In SLASH seg) below ->
  below <> [] ->
  PosixPath.resolve cwd
    ((SLASH :: PosixPath.join segments) ++ SLASH :: PosixPath.join below)
  = segments ++ below.
Proof.
  intros Hnormal Hfree Hbnormal Hbfree Hne.
  unfold PosixPath.resolve. cbv zeta.
  cbn [app nonempty startsWith]. rewrite N.eqb_refl. cbn [andb].
  rewrite <- app_assoc. cbn [app].
  destruct (split_rooted segments (PosixPath.join below ++ [SLASH]) Hfree)
    as [empties [Hempty ->]].
  change (PosixPath.join below ++ [SLASH])
    with (PosixPath.join below ++ SLASH :: []).
  rewrite split_app_slash, split_join by assumption.
  unfold PosixPath.normalize.
  rewrite !fold_left_app, (normalize_empties _ _ Hempty).
  rewrite (normalize_normal_segments _ _ Hnormal).
  rewrite (normalize_normal_segments _ _ Hbnormal).
  cbn [PosixPath.split fold_left]. rewrite app_nil_r.
  change (PosixPath.normalizeStep (rev below ++ rev segments) [])
    with (rev below ++ rev segments).
  rewrite rev_app_distr, !rev_involutive. reflexivity.
Qed.

(** X18. On a POSIX runner, a file below the workspace root is reported
    by its path below the root.  For a root [/r1/.../rn] and a file
    [/r1/.../rn/b1/.../bm] (segments without separator, none of them empty,
    [.] or [..]), [toWorkspaceRelativePath] returns [b1/.../bm] with every
    backslash turned into a forward slash, whatever the current
    directory: no leading separator, no [..]. *)
Theorem toWorkspaceRelativePath_below_root (cwd : jsstring)
  (segments below : list jsstring) :
  forallb isNormal segments = true ->
  Forall (fun seg => ~ In SLASH seg) segments ->
  forallb isNormal below = true ->
  Forall (fun seg => ~ In SLASH seg) below ->
  below <> [] ->
  let workspaceRoot := SLASH :: PosixPath.join segments in
  let absolutePath := workspaceRoot ++ SLASH :: PosixPath.join below in
  toWorkspaceRelativePath (PosixPath.relative cwd) absolutePath
    workspaceRoot
  = replaceAll BACKSLASH SLASH (PosixPath.join below).
Proof.
  intros Hnormal Hfree Hbnormal Hbfree Hne workspaceRoot absolutePath.
  subst workspaceRoot absolutePath.
  unfold toWorkspaceRelativePath, PosixPath.relative. cbv zeta.
  rewrite jsstring_eqb_longer.
  rewrite resolve_rooted, resolve_below by assumption.
  rewrite <- (app_nil_r segments) at 1.
  rewrite stripCommon_app.
  cbn [PosixPath.stripCommon map app]. reflexivity.
Qed.

(** X18, witness: the second case of [tests/run.test.ts], a file name
    written with backslashes. *)
Lemma toWorkspaceRelativePath_below_root_witness :
  toWorkspaceRelativePath (PosixPath.relative (str "/home/runner"))
    (str "/Users/test/dev/project/src\module\File.cs")
    (str "/Users/test/dev/project")
  = str "src/module/File.cs".
Proof.
  exact (toWorkspaceRelativePath_below_root (str "/home/runner")
           [str "Users"; str "test"; str "dev"; str "project"]
           [str "src\module\File.cs"]
           eq_refl
           (slash_free_segments [str "Users"; str "test"; str "dev"; str "project"]
              eq_refl)
           eq_refl
           (slash_free_segments [str "src\module\File.cs"] eq_refl)
           ltac:(discriminate)).
Defined.

(** ** Making the paths relative *)

(** X19. Making the paths of a result relative changes the file paths and
    nothing else: the summary and the modules are kept, the violations are
    as many and in the same order, and each keeps every field but its file
    path.  No file path of the outcome holds a backslash, whatever the
    platform's [path.relative], and so no annotation of the check run made
    from it has a backslash in its path. *)
Theorem relativize_changes_paths_only (w : World)
  (path_relative : jsstring -> jsstring -> jsstring)
  (result : ModularGuardResult) (headSha : jsstring) :
  let relative := relativize w path_relative result in
  summary relative = summary result
  /\ modules relative = modules result
  /\ length (violations relative) = length (violations result)
  /\ (forall k v,
        nth_error (violations result) k = Some v ->
        exists v',
          nth_error (violations relative) k = Some v'
          /\ filePath v' =
               toWorkspaceRelativePath path_relative (filePath v)
                 (workspaceRoot w)
          /\ ~ In BACKSLASH (filePath v')
          /\ with_filePath v' (filePath v) = v)
  /\ Forall (fun annotation => ~ In BACKSLASH (path annotation))
       (output_annotations (checkRunPayload headSha relative)).
Proof.
  intros relative. subst relative. unfold relativize. cbv zeta.
  destruct result as [s ms vs]. unfold with_violations.
  cbn [summary modules violations].
  split; [reflexivity|]. split; [reflexivity|].
  split; [apply length_map|]. split.
  - intros k v Hk.
    exists (with_filePath v
              (toWorkspaceRelativePath path_relative (filePath v)
                 (workspaceRoot w))).
    split; [now rewrite nth_error_map, Hk|].
    split; [reflexivity|].
    split; [apply toWorkspaceRelativePath_no_backslash|].
    destruct v as [f1 f2 f3 f4 f5 f6 f7 f8 f9 f10]. reflexivity.
  - unfold checkRunPayload. cbv zeta.
    cbn [output_annotations violations].
    apply Forall_forall. intros annotation Hin.
    apply in_map_iff in Hin. destruct Hin as [v' [<- Hin]].
    apply In_firstn in Hin. apply in_map_iff in Hin.
    destruct Hin as [v [<- _]].
    apply toWorkspaceRelativePath_no_backslash.
Qed.

(** ** The earlier revision of [run] *)

Section RunEarlier.

Variable w : World.
Variable JSON_parse : jsstring -> Response JSON.
Variable path_relative : jsstring -> jsstring -> jsstring.
Variable inputs : Inputs.
Variable context : Context.
Variable pulls : list Pull.
Variable result : ModularGuardResult.

Hypothesis Hpulls :
  repos_listPullRequestsAssociatedWithCommit w (owner context)
    (repo context) (sha context) = inr pulls.

Lemma run_earlier_no_pull_request :
  pulls = [] ->
  run_earlier w JSON_parse path_relative inputs context =
    ([LogInfo (str "Finding associated pull requests...");
      ListPullRequestsAssociatedWithCommit (owner context) (repo context)
        (sha context);
      LogInfo (str "No associated pull requests found. Skipping analysis (PR-only mode).")],
     Returned tt).
Proof.
  intros Hnone. unfold run_earlier, await. rewrite Hpulls, Hnone.
  reflexivity.
Qed.

Hypothesis Hsome : pulls <> [].
Hypothesis Hresult : analysisResult w JSON_parse inputs = Some result.

Lemma run_earlier_with_result :
  exists binaryPath,
    tool_download w (modularguardVersion inputs) = inr binaryPath
    /\ run_earlier w JSON_parse path_relative inputs context =
      (preparation w JSON_parse inputs context pulls binaryPath result
         ++ trace (publish w context pulls
                     (relativize w path_relative result))
         ++ match outcome (publish w context pulls
                             (relativize w path_relative result)) with
            | Returned _ => trace (setOutputs result) ++ earlierVerdict result
            | _ => []
            end,
       outcome (publish w context pulls
                  (relativize w path_relative result))).
Proof.
  unfold analysisResult in Hresult.
  destruct (tool_download w (modularguardVersion inputs))
    as [e|binaryPath] eqn:Hdl; [discriminate|].
  destruct (outcome (executeModularGuard w JSON_parse binaryPath
                       (directory inputs) (configPath inputs)))
    as [parsed|e|] eqn:Hexec; try discriminate.
  exists binaryPath. split; [reflexivity|].
  unfold run_earlier, downloadModularGuard, await. rewrite Hpulls, Hdl.
  unfold preparation, publish. cbv zeta.
  destruct pulls as [|pull others] eqn:Hlist; [contradiction|].
  rewrite <- Hlist.
  assert (Hlen : (length pulls =? 0)%nat = false) by now rewrite Hlist.
  assert (Hpos : (0 <? length pulls)%nat = true) by now rewrite Hlist.
  rewrite Hpos.
  cbn [bind core_info emit trace outcome fst snd].
  rewrite Hlen, for_of_info.
  cbn [bind core_info emit trace outcome fst snd].
  destruct (executeModularGuard w JSON_parse binaryPath (directory inputs)
              (configPath inputs)) as [te oe].
  cbn [outcome snd] in Hexec. subst oe.
  cbn [bind ret core_info emit trace outcome fst snd].
  unfold typed. rewrite Hresult.
  cbn [bind ret core_info emit trace outcome fst snd].
  destruct (createCheckRun w (owner context) (repo context) (sha context)
              (relativize w path_relative result)) as [tc [[]|e|]];
    cbn [bind ret core_info emit trace outcome fst snd];
    [|repeat first [rewrite <- app_assoc | rewrite <- app_comm_cons
                   | rewrite app_nil_r];
      cbn [app]; reflexivity..].
  destruct (for_of pulls
              (publishComment w context
                 (relativize w path_relative result))) as [tl [[]|e|]];
    cbn [bind ret core_info core_setOutput emit trace outcome fst snd];
    unfold setOutputs, earlierVerdict, STATUS, core_setOutput, core_setFailed;
    [destruct (0 <? errorCount (summary result))%Z|..];
    cbn [bind ret core_info emit trace outcome fst snd];
    repeat first [rewrite <- app_assoc | rewrite <- app_comm_cons
                 | rewrite app_nil_r];
    cbn [app]; reflexivity.
Qed.

End RunEarlier.

(** X20. The earlier of the two revisions of [run] in [src/run.ts].  For a
    commit without pull request it stops after the lookup: nothing is
    downloaded, executed or set.  For a commit with a pull request and an
    analysis result it goes through the same preparation and the same
    publication step as the later revision, prints no console report, sets
    the same outputs when the publication returns, and then fails the
    action when the error count is positive and only then: warnings alone
    leave the action passing, where the later revision fails it. *)
Theorem run_earlier_fails_on_errors_only (w : World)
  (JSON_parse : jsstring -> Response JSON)
  (path_relative : jsstring -> jsstring -> jsstring)
  (inputs : Inputs) (context : Context) (pulls : list Pull)
  (result : ModularGuardResult) :
  repos_listPullRequestsAssociatedWithCommit w (owner context)
    (repo context) (sha context) = inr pulls ->
  analysisResult w JSON_parse inputs = Some result ->
  let earlier := run_earlier w JSON_parse path_relative inputs context in
  let later := run w JSON_parse path_relative inputs context in
  let published := relativize w path_relative result in
  match pulls with
  | [] =>
      earlier =
        ([LogInfo (str "Finding associated pull requests...");
          ListPullRequestsAssociatedWithCommit (owner context)
            (repo context) (sha context);
          LogInfo (str "No associated pull requests found. Skipping analysis (PR-only mode).")],
         Returned tt)
  | _ :: _ =>
      outcome earlier = outcome later
      /\ (outcome (publish w context pulls published) = Returned tt ->
          exists binaryPath,
            trace earlier =
              preparation w JSON_parse inputs context pulls binaryPath
                result
                ++ trace (publish w context pulls published)
                ++ trace (setOutputs result)
                ++ earlierVerdict result
            /\ trace later =
                 preparation w JSON_parse inputs context pulls binaryPath
                   result
                   ++ trace (printViolationsToConsole published)
                   ++ trace (publish w context pulls published)
                   ++ trace (setOutputs result)
                   ++ [verdict result]
            /\ filter isSetFailed (trace earlier) = earlierVerdict result
            /\ (earlierVerdict result <> [] <->
                (0 < errorCount (summary result))%Z))
  end.
Proof.
  intros Hpulls Hresult earlier later published.
  subst earlier later published.
  destruct pulls as [|pull others] eqn:Hlist.
  { now apply (run_earlier_no_pull_request w JSON_parse path_relative inputs
                 context []). }
  rewrite <- Hlist in *.
  assert (Hsome : pulls <> []) by (rewrite Hlist; discriminate).
  destruct (run_earlier_with_result w JSON_parse path_relative inputs
              context pulls result Hpulls Hsome Hresult)
    as [binaryPath [Hdl Hearlier]].
  destruct (run_with_result w JSON_parse path_relative inputs context pulls
              result Hpulls Hresult) as [binaryPath' [Hdl' Hlater]].
  assert (Hsame : binaryPath' = binaryPath) by congruence.
  subst binaryPath'.
  rewrite Hearlier, Hlater. cbn [trace outcome fst snd].
  split; [reflexivity|].
  intros Hpub. exists binaryPath. rewrite Hpub.
  split; [reflexivity|]. split; [reflexivity|]. split.
  - rewrite !filter_app.
    rewrite (filter_none _ _ _ preparation_no_failure
               (preparation_events w JSON_parse inputs context pulls result
                  binaryPath)).
    rewrite (filter_none _ _ _ publishing_no_failure
               (publish_events w context
                  (relativize w path_relative result) pulls)).
    rewrite setOutputs_trace. cbn [app filter isSetFailed].
    unfold earlierVerdict.
    destruct (0 <? errorCount (summary result))%Z; reflexivity.
  - unfold earlierVerdict.
    destruct (0 <? errorCount (summary result))%Z eqn:E.
    + apply Z.ltb_lt in E. split; [intros _; exact E|discriminate].
    + apply Z.ltb_ge in E. split; [congruence|lia].
Qed.

(** X20, witness: the sample result has one warning and no error; the
    earlier revision does not fail the action. *)
Lemma run_earlier_fails_on_errors_only_witness :
  let w := sample_world sample_pulls sample_stdout (fun _ => false) in
  filter isSetFailed
    (trace (run_earlier w sample_JSON_parse (PosixPath.relative (str "/ws"))
              sample_inputs sample_context))
  = []
  /\ violations sample_result <> [].
Proof.
  intros w.
  destruct (run_earlier_fails_on_errors_only w sample_JSON_parse
              (PosixPath.relative (str "/ws")) sample_inputs sample_context
              sample_pulls sample_result eq_refl
              (sample_analysis sample_pulls (fun _ => false)))
    as [_ H].
  destruct (H ltac:(vm_compute; reflexivity)) as [b [_ [_ [Hfailed _]]]].
  split; [exact Hfailed|discriminate].
Defined.

(** ** Outputs of the schema and the gate *)

Lemma asArray_truthy {B : Type} (f : JSON -> option B) (v : option JSON)
  (l : list B) :
  asArray f v = Some l -> truthy v = true.
Proof. destruct v as [[]|]; try discriminate. reflexivity. Qed.

Lemma schema_passes_gate (value : JSON) (result : ModularGuardResult) :
  asModularGuardResult value = Some result -> passesGate value = true.
Proof.
  unfold asModularGuardResult, passesGate.
  destruct (getProp value (str "summary")) as [s|] eqn:Hs;
    [|discriminate].
  destruct (asSummary s) as [sm|] eqn:Hsm; [|discriminate].
  destruct (asArray asModule (getProp value (str "modules")))
    as [ms|] eqn:Hms; [|discriminate].
  destruct (asArray asViolation (getProp value (str "violations")))
    as [vs|] eqn:Hvs; [|discriminate].
  intros _.
  rewrite (asArray_truthy _ _ _ Hms), (asArray_truthy _ _ _ Hvs).
  assert (Htruthy : truthy (Some s) = true).
  { destruct s; try discriminate. reflexivity. }
  rewrite Htruthy.
  destruct value; try discriminate; reflexivity.
Qed.

(** X21. The gate of [executeModularGuard] never rejects an output of the
    schema.  When the binary prints a non-empty text that parses to a value
    of type [ModularGuardResult], [executeModularGuard] returns that value
    and logs no error, whatever the exit code and the standard error
    output, and whatever the counts: a result without modules and without
    violations, whose arrays are empty, is accepted. *)
Theorem executeModularGuard_accepts_schema (w : World)
  (JSON_parse : jsstring -> Response JSON) (binaryPath directory : jsstring)
  (configPath : option jsstring) (r : ExecResult) (value : JSON)
  (result : ModularGuardResult) :
  exec_exec w binaryPath (execArgs directory configPath) = inr r ->
  stdout r <> [] ->
  JSON_parse (stdout r) = inr value ->
  asModularGuardResult value = Some result ->
  let call := executeModularGuard w JSON_parse binaryPath directory
                configPath in
  outcome call = Returned value
  /\ forallb (fun e => match e with LogError _ => false | _ => true end)
       (trace call) = true.
Proof.
  intros Hexec Hout Hparse Htyped call. subst call.
  pose proof (schema_passes_gate value result Htyped) as Hgate.
  split.
  - rewrite executeModularGuard_outcome, Hexec.
    destruct (stdout r) as [|c out] eqn:E; [contradiction|].
    cbn [nonempty negb]. now rewrite Hparse, Hgate.
  - unfold executeModularGuard. cbv zeta.
    assert (Hargs :
              match configPath with
              | Some c =>
                  if nonempty c
                  then [str "check"; directory; str "--format"; str "json";
                        str "--quiet"] ++ [str "--config"; c]
                  else [str "check"; directory; str "--format"; str "json";
                        str "--quiet"]
              | None => [str "check"; directory; str "--format"; str "json";
                         str "--quiet"]
              end = execArgs directory configPath).
    { unfold execArgs.
      destruct configPath as [c|]; [destruct (nonempty c)|]; reflexivity. }
    rewrite Hargs, Hexec.
    unfold await, core_debug, emit, ret.
    cbn [bind try_catch trace outcome fst snd app].
    assert (Hnonempty : nonempty (stdout r) = true).
    { destruct (stdout r); [contradiction|reflexivity]. }
    destruct (nonempty (stderr r));
      cbn [bind try_catch trace outcome fst snd app];
      rewrite Hnonempty; cbn [negb];
      rewrite parseAndValidate_outcome, Hparse, Hgate; reflexivity.
Qed.

(** X21, witness: the sample output, printed by a binary that exits with
    code 1. *)
Lemma executeModularGuard_accepts_schema_witness :
  outcome (executeModularGuard
             (sample_world [] sample_stdout (fun _ => false))
             sample_JSON_parse (str "/opt/hostedtoolcache/modularguard")
             (str ".") None)
  = Returned sample_json.
Proof.
  exact (proj1
           (executeModularGuard_accepts_schema
              (sample_world [] sample_stdout (fun _ => false))
              sample_JSON_parse (str "/opt/hostedtoolcache/modularguard")
              (str ".") None
              {| exitCode := 1; stdout := sample_stdout; stderr := [] |}
              sample_json sample_result eq_refl ltac:(discriminate)
              ltac:(vm_compute; reflexivity) sample_json_typed)).
Defined.

(** ** The console report *)

Lemma forEach_printViolation_In (vs : list ModularGuardViolation) (i : Z)
  (k : nat) (v : ModularGuardViolation) (e : Event) :
  nth_error vs k = Some v ->
  In e (trace (printViolation v (i + Z.of_nat k))) ->
  In e (trace (forEach_from i vs printViolation)).
Proof.
  revert i k. induction vs as [|v' vs IH]; intros i k Hk He.
  - destruct k; discriminate.
  - cbn [forEach_from]. rewrite trace_bind, printViolation_returns.
    apply in_or_app. destruct k as [|k].
    + injection Hk as ->. left.
      now rewrite Z.add_0_r in He.
    + right. apply (IH (i + 1)%Z k Hk).
      replace (i + 1 + Z.of_nat k)%Z with (i + Z.of_nat (S k))%Z by lia.
      exact He.
Qed.

(** X22. The console report lists every violation under its number.  For
    a result with violations, the report gives their number
    ([Found n violation(s):]) and, for the violation at position [k] of the
    result (counted from 0), a headline numbered [k + 1] with its severity
    and rule, and the line of its location [file:line:column]; it logs
    information lines only and always returns. *)
Theorem printViolationsToConsole_numbers (result : ModularGuardResult)
  (k : nat) (v : ModularGuardViolation) :
  nth_error (violations result) k = Some v ->
  let report := printViolationsToConsole result in
  In (LogInfo (str "Found "
                 ++ String_of (Z.of_nat (length (violations result)))
                 ++ str " violation(s):")) (trace report)
  /\ In (violationHeadline k v) (trace report)
  /\ In (violationLocation v) (trace report)
  /\ outcome report = Returned tt
  /\ forallb (fun e => match e with LogInfo _ => true | _ => false end)
       (trace report) = true.
Proof.
  intros Hk report. subst report.
  assert (Hlen : (length (violations result) =? 0)%nat = false).
  { destruct (violations result); [destruct k; discriminate|reflexivity]. }
  assert (Hreport :
            forall e,
              e = LogInfo (str "Found "
                             ++ String_of
                                  (Z.of_nat (length (violations result)))
                             ++ str " violation(s):")
              \/ In e (trace (printViolation v (0 + Z.of_nat k))) ->
              In e (trace (printViolationsToConsole result))).
  { intros e He. unfold printViolationsToConsole. cbv zeta.
    do 11 (rewrite bind_core_info; cbn [trace fst]; right).
    rewrite Hlen.
    rewrite bind_core_info. cbn [trace fst].
    destruct He as [->|He]; [now left|right].
    rewrite bind_core_info. cbn [trace fst]. right.
    rewrite trace_bind. apply in_or_app. left.
    exact (forEach_printViolation_In _ 0 k v e Hk He). }
  split; [apply Hreport; now left|].
  split; [|split; [|split]].
  - apply Hreport. right. unfold printViolation, violationHeadline,
      severityIcon.
    cbv zeta. rewrite bind_core_info. left. reflexivity.
  - apply Hreport. right. unfold printViolation, violationLocation.
    cbv zeta.
    do 3 (rewrite bind_core_info; cbn [trace fst]; right).
    rewrite bind_core_info. left. reflexivity.
  - apply printViolationsToConsole_returns.
  - apply printViolationsToConsole_logs.
Qed.

(** X22, witness: the one warning of the sample result is number 1. *)
Lemma printViolationsToConsole_numbers_witness :
  In (LogInfo (str "1. " ++ WARNING_SIGN
                 ++ str " Warning: ConfigurableRule[app]"))
    (trace (printViolationsToConsole sample_result)).
Proof.
  exact (proj1 (proj2
           (printViolationsToConsole_numbers sample_result 0 sample_warning
              eq_refl))).
Defined.

(** ** The link of the comment *)

(** X23. Every comment that a run writes ends with the link to the run.
    The link is built from three environment variables and is never empty,
    so the closing section is always there; a variable that is not set
    reads [undefined], and with none of the three set the link is
    [undefined/undefined/actions/runs/undefined]. *)
Theorem published_comment_links_run (w : World)
  (result : ModularGuardResult) :
  (exists front,
     formatComment result (Some (runUrl w)) =
       front ++ str "---" ++ nl ++ nl ++ str "[View detailed results]("
         ++ runUrl w ++ str ")" ++ nl)
  /\ (forall server repository id,
        process_env w (str "GITHUB_SERVER_URL") = Some server ->
        process_env w (str "GITHUB_REPOSITORY") = Some repository ->
        process_env w (str "GITHUB_RUN_ID") = Some id ->
        runUrl w = server ++ str "/" ++ repository ++ str "/actions/runs/"
                     ++ id)
  /\ (process_env w (str "GITHUB_SERVER_URL") = None ->
      process_env w (str "GITHUB_REPOSITORY") = None ->
      process_env w (str "GITHUB_RUN_ID") = None ->
      runUrl w = str "undefined/undefined/actions/runs/undefined").
Proof.
  split; [|split].
  - rewrite formatComment_layout. unfold linkSection.
    assert (Hne : nonempty (runUrl w) = true).
    { unfold runUrl.
      destruct (env_text w (str "GITHUB_SERVER_URL")); reflexivity. }
    rewrite Hne. eexists. rewrite !app_assoc. reflexivity.
  - intros server repository id Hs Hr Hi. unfold runUrl, env_text.
    now rewrite Hs, Hr, Hi.
  - intros Hs Hr Hi. unfold runUrl, env_text. now rewrite Hs, Hr, Hi.
Qed.

(** X23, witness: the link of the sample run. *)
Lemma published_comment_links_run_witness :
  runUrl (sample_world [] sample_stdout (fun _ => false))
  = str "https://github.com/octo-org/shop/actions/runs/42".
Proof.
  exact (proj1 (proj2
           (published_comment_links_run
              (sample_world [] sample_stdout (fun _ => false))
              sample_result))
           (str "https://github.com") (str "octo-org/shop") (str "42")
           eq_refl eq_refl eq_refl).
Defined.

(** ** Paths outside the workspace root *)

(** X24. [toWorkspaceRelativePath] does not keep a file inside the
    workspace.  On a POSIX runner, for a root [/c1/.../cn/r1/.../rk] and a
    file [/c1/.../cn/b1/.../bm] that leave their common directory by
    different segments ([r1] is not [b1]), the result climbs out of the
    root: it is [..], once for each of [r1 ... rk], followed by
    [b1/.../bm]. *)
Theorem toWorkspaceRelativePath_outside_root (cwd : jsstring)
  (common : list jsstring) (r : jsstring) (rs : list jsstring)
  (b : jsstring) (bs : list jsstring) :
  forallb isNormal (common ++ r :: rs) = true ->
  Forall (fun seg => ~ In SLASH seg) (common ++ r :: rs) ->
  forallb isNormal (common ++ b :: bs) = true ->
  Forall (fun seg => ~ In SLASH seg) (common ++ b :: bs) ->
  r <> b ->
  let workspaceRoot := SLASH :: PosixPath.join (common ++ r :: rs) in
  let absolutePath := SLASH :: PosixPath.join (common ++ b :: bs) in
  toWorkspaceRelativePath (PosixPath.relative cwd) absolutePath
    workspaceRoot
  = replaceAll BACKSLASH SLASH
      (PosixPath.join
         (map (fun _ => PosixPath.DOTDOT) (r :: rs) ++ b :: bs)).
Proof.
  intros Hrn Hrf Hbn Hbf Hdiff workspaceRoot absolutePath.
  subst workspaceRoot absolutePath.
  unfold toWorkspaceRelativePath, PosixPath.relative. cbv zeta.
  assert (Hne : jsstring_eqb (SLASH :: PosixPath.join (common ++ r :: rs))
                  (SLASH :: PosixPath.join (common ++ b :: bs)) = false).
  { apply jsstring_eqb_neq. intros Heq.
    apply (f_equal (PosixPath.resolve cwd)) in Heq.
    rewrite !resolve_rooted in Heq by assumption.
    apply app_inv_head in Heq. congruence. }
  rewrite Hne, !resolve_rooted by assumption.
  rewrite stripCommon_app. cbn [PosixPath.stripCommon].
  assert (Hrb : jsstring_eqb r b = false) by now apply jsstring_eqb_neq.
  rewrite Hrb. reflexivity.
Qed.

(** X24, witness: a file of a sibling checkout. *)
Lemma toWorkspaceRelativePath_outside_root_witness :
  toWorkspaceRelativePath (PosixPath.relative (str "/home/runner"))
    (str "/work/other/src/File.cs") (str "/work/repo")
  = str "../other/src/File.cs".
Proof.
  exact (toWorkspaceRelativePath_outside_root (str "/home/runner")
           [str "work"] (str "repo") []
           (str "other") [str "src"; str "File.cs"]
           eq_refl (slash_free_segments [str "work"; str "repo"] eq_refl)
           eq_refl
           (slash_free_segments [str "work"; str "other"; str "src"; str "File.cs"]
              eq_refl)
           ltac:(discriminate)).
Defined.

(** ** The comment loop, pull request by pull request *)

(** The body of the loop, by the answer to its write request. *)
Lemma publishComment_cases (w : World) (context : Context)
  (result : ModularGuardResult) (pull : Pull) :
  let text := formatComment result (Some (runUrl w)) in
  publishComment w context result pull =
    match commentWriteAnswer w context text pull with
    | inr _ =>
        (lookupEvents w context pull
           ++ [commentWrite w context text pull;
               commentDone w context pull],
         Returned tt)
    | inl e =>
        (lookupEvents w context pull ++ [commentWrite w context text pull],
         Thrown (str "Failed to "
                   ++ writeVerb (commentWrite w context text pull)
                   ++ str " comment: " ++ e))
    end.
Proof.
  intros text. subst text.
  unfold publishComment, commentWriteAnswer, commentWrite, commentDone,
    lookupEvents, ownComment.
  destruct (issues_listComments w (owner context) (repo context)
              (number pull)) as [e|comments] eqn:Hlist.
  - rewrite (findExistingComment_lookup_failure w _ _ _ e Hlist).
    cbv zeta. unfold bind at 1. cbn [trace outcome fst snd].
    rewrite createOrUpdateComment_cases.
    destruct (issues_createComment w _ _ _ _) as [e'|[]]; reflexivity.
  - rewrite (findExistingComment_found w _ _ _ comments Hlist).
    cbv zeta. unfold bind at 1. cbn [trace outcome fst snd].
    rewrite createOrUpdateComment_cases.
    destruct (find carriesMarker comments) as [c|].
    + destruct (id c =? 0)%Z; cbn [negb];
        match goal with
        | |- context [match ?r with inl _ => _ | inr _ => _ end] =>
            destruct r as [e'|[]]
        end; reflexivity.
    + destruct (issues_createComment w _ _ _ _) as [e'|[]]; reflexivity.
Qed.

Lemma bind_returns {A B : Type} (m : Action A) (k : A -> Action B)
  (a : A) :
  outcome m = Returned a ->
  bind m k = (trace m ++ trace (k a), outcome (k a)).
Proof. destruct m as [t o]. cbn [outcome snd]. intros ->. reflexivity. Qed.

Lemma for_of_done {A : Type} (body : A -> Action unit) (done rest : list A) :
  (forall y, In y done -> outcome (body y) = Returned tt) ->
  for_of (done ++ rest) body =
    (trace (for_of done body) ++ trace (for_of rest body),
     outcome (for_of rest body)).
Proof.
  intros Hdone. induction done as [|y done IH]; cbn [app for_of].
  - apply action_eta.
  - rewrite !(bind_returns (body y) _ tt (Hdone y (or_introl eq_refl))).
    rewrite IH by (intros z Hz; apply Hdone; now right).
    cbn [trace outcome fst snd]. now rewrite app_assoc.
Qed.

Lemma for_of_cut {A : Type} (body : A -> Action unit) (x : A)
  (rest : list A) (message : jsstring) :
  outcome (body x) = Thrown message ->
  for_of (x :: rest) body = (trace (body x), Thrown message).
Proof.
  intros Hx. cbn [for_of].
  rewrite (action_eta (body x)), Hx. reflexivity.
Qed.

(** The loop ends at the first pull request whose write is refused. *)
Lemma comment_loop_refused (w : World) (context : Context)
  (result : ModularGuardResult) (done : list Pull) (pull : Pull)
  (rest : list Pull) (e : jsstring) :
  (forall p,
      In p done ->
      commentWriteAnswer w context
        (formatComment result (Some (runUrl w))) p = inr tt) ->
  commentWriteAnswer w context (formatComment result (Some (runUrl w)))
    pull = inl e ->
  for_of (done ++ pull :: rest) (publishComment w context result) =
    (trace (for_of done (publishComment w context result))
       ++ lookupEvents w context pull
       ++ [commentWrite w context
             (formatComment result (Some (runUrl w))) pull],
     Thrown (str "Failed to "
               ++ writeVerb
                    (commentWrite w context
                       (formatComment result (Some (runUrl w))) pull)
               ++ str " comment: " ++ e)).
Proof.
  intros Hdone Hpull.
  assert (Hthrows :
            publishComment w context result pull =
              (lookupEvents w context pull
                 ++ [commentWrite w context
                       (formatComment result (Some (runUrl w))) pull],
               Thrown (str "Failed to "
                         ++ writeVerb
                              (commentWrite w context
                                 (formatComment result (Some (runUrl w)))
                                 pull)
                         ++ str " comment: " ++ e))).
  { rewrite publishComment_cases. cbv zeta. now rewrite Hpull. }
  rewrite for_of_done.
  - rewrite (for_of_cut _ pull rest _ (f_equal snd Hthrows)).
    cbn [trace outcome fst snd]. now rewrite Hthrows.
  - intros y Hy. rewrite publishComment_cases. cbv zeta.
    now rewrite (Hdone y Hy).
Qed.

(** The publication step when the write of a comment is refused. *)
Lemma publish_comment_refused (w : World) (context : Context)
  (result : ModularGuardResult) (done : list Pull) (pull : Pull)
  (rest : list Pull) (e : jsstring) :
  checks_create w (owner context) (repo context)
    (checkRunPayload (sha context) result) = inr tt ->
  (forall p,
      In p done ->
      commentWriteAnswer w context
        (formatComment result (Some (runUrl w))) p = inr tt) ->
  commentWriteAnswer w context (formatComment result (Some (runUrl w)))
    pull = inl e ->
  publish w context (done ++ pull :: rest) result =
    ([LogInfo (str "Creating check run with annotations...");
      ChecksCreate (owner context) (repo context)
        (checkRunPayload (sha context) result);
      LogInfo (str "Posting results to pull request(s)...")]
       ++ trace (for_of done (publishComment w context result))
       ++ lookupEvents w context pull
       ++ [commentWrite w context
             (formatComment result (Some (runUrl w))) pull],
     Thrown (str "Failed to "
               ++ writeVerb
                    (commentWrite w context
                       (formatComment result (Some (runUrl w))) pull)
               ++ str " comment: " ++ e)).
Proof.
  intros Hcheck Hdone Hpull.
  unfold publish. cbv zeta.
  assert (Hlen : (0 <? length (done ++ pull :: rest))%nat = true).
  { rewrite length_app. cbn [length]. apply Nat.ltb_lt. lia. }
  rewrite Hlen. unfold createCheckRun, await. cbv zeta.
  rewrite Hcheck.
  rewrite (comment_loop_refused w context result done pull rest e Hdone
             Hpull).
  reflexivity.
Qed.

(** ** How a run with a result ends *)

Lemma for_of_thrown {A : Type} (body : A -> Action unit) (l : list A)
  (message : jsstring) :
  outcome (for_of l body) = Thrown message ->
  exists x, In x l /\ outcome (body x) = Thrown message.
Proof.
  induction l as [|x l IH]; [discriminate|].
  cbn [for_of]. rewrite outcome_bind.
  destruct (outcome (body x)) as [u|e|] eqn:Hx.
  - intros H. destruct (IH H) as [y [Hin Hy]]. exists y. split; auto.
    now right.
  - intros H. injection H as <-. exists x. split; [now left|exact Hx].
  - discriminate.
Qed.

(** The errors of the publication step. *)
Lemma publish_throws (w : World) (context : Context) (pulls : list Pull)
  (result : ModularGuardResult) (message : jsstring) :
  outcome (publish w context pulls result) = Thrown message ->
  exists cause,
    message = str "Failed to create check run: " ++ cause
    \/ message = str "Failed to create comment: " ++ cause
    \/ message = str "Failed to update comment: " ++ cause.
Proof.
  unfold publish. cbv zeta.
  destruct (0 <? length pulls)%nat; [|discriminate].
  rewrite outcome_bind. cbn [core_info emit outcome snd].
  rewrite outcome_bind.
  unfold createCheckRun at 1. cbv zeta. unfold await, try_catch.
  destruct (checks_create w (owner context) (repo context)
              (checkRunPayload (sha context) result)) as [e|[]];
    cbn [outcome snd throw trace fst].
  - intros H. injection H as <-. exists e. now left.
  - rewrite outcome_bind. cbn [core_info emit outcome snd].
    intros H. apply for_of_thrown in H. destruct H as [pull [_ Hpull]].
    destruct (publishComment_throws w context result pull message Hpull)
      as [e [He _]].
    exists e. now right.
Qed.

(** C1 (as amended). In a run that obtains an analysis result, the
    outcome is decided on the number of violations alone, whatever their
    severity, when the publication step completes, as it does when the
    commit has no pull request and when every request of the step is
    answered: with at least one violation the last event is the failure
    call with the message that gives the number of violations, the error
    count and the warning count, and nothing before it fails the action;
    with no violation the run logs that none was found, nothing fails the
    action, and the run returns.  When a request of the publication step
    is refused, the run throws before it decides: the action is failed
    once, with that error, which is not the message of the counts; no
    output is set; and this is so for a result without violations
    too. *)
Theorem run_fails_on_any_violation (w : World)
  (JSON_parse : jsstring -> Response JSON)
  (path_relative : jsstring -> jsstring -> jsstring)
  (inputs : Inputs) (context : Context) (pulls : list Pull)
  (result : ModularGuardResult) :
  repos_listPullRequestsAssociatedWithCommit w (owner context)
    (repo context) (sha context) = inr pulls ->
  analysisResult w JSON_parse inputs = Some result ->
  let action := main w JSON_parse path_relative inputs context in
  let step := publish w context pulls (relativize w path_relative result) in
  (outcome step = Returned tt ->
   exists before,
     action =
       (before
          ++ [if (0 <? length (violations result))%nat
              then SetFailed (countsMessage result)
              else LogInfo (CHECK_MARK ++ str " No violations found!")],
        Returned tt)
     /\ forallb (fun e => negb (isSetFailed e)) before = true)
  /\ (pulls = [] \/ PublicationSucceeds w context ->
      outcome step = Returned tt)
  /\ (forall message,
        outcome step = Thrown message ->
        (exists cause,
           message = str "Failed to create check run: " ++ cause
           \/ message = str "Failed to create comment: " ++ cause
           \/ message = str "Failed to update comment: " ++ cause)
        /\ message <> countsMessage result
        /\ exists before,
             action =
               (before ++ [SetFailed message; ConsoleError message],
                Returned tt)
             /\ forallb (fun e => negb (isSetFailed e)) before = true
             /\ forallb (fun e => negb (isSetOutput e)) before = true)
  /\ (forall cause,
        pulls <> [] ->
        checks_create w (owner context) (repo context)
          (checkRunPayload (sha context)
             (relativize w path_relative result)) = inl cause ->
        outcome step = Thrown (str "Failed to create check run: " ++ cause))
  /\ (forall done pull rest cause,
        pulls = done ++ pull :: rest ->
        checks_create w (owner context) (repo context)
          (checkRunPayload (sha context)
             (relativize w path_relative result)) = inr tt ->
        let text :=
          formatComment (relativize w path_relative result)
            (Some (runUrl w)) in
        (forall p, In p done -> commentWriteAnswer w context text p = inr tt) ->
        commentWriteAnswer w context text pull = inl cause ->
        outcome step =
          Thrown (str "Failed to "
                    ++ writeVerb (commentWrite w context text pull)
                    ++ str " comment: " ++ cause))
  /\ (outcome step = Returned tt
      \/ exists message, outcome step = Thrown message).
Proof.
  intros Hpulls Hresult action step. subst action step.
  destruct (run_with_result w JSON_parse path_relative inputs context pulls
              result Hpulls Hresult) as [binaryPath [_ Hrun]].
  pose proof (preparation_events w JSON_parse inputs context pulls result
                binaryPath) as Hprep.
  assert (Hquiet :
            forall Q : Event -> bool,
              (forall e, isPreparation e = true -> Q e = false) ->
              (forall e, isPublishing e = true -> Q e = false) ->
              forallb (fun e => negb (Q e))
                (preparation w JSON_parse inputs context pulls binaryPath
                   result
                   ++ trace (printViolationsToConsole
                               (relativize w path_relative result))
                   ++ trace (publish w context pulls
                               (relativize w path_relative result)))
              = true).
  { intros Q Hq1 Hq2. rewrite !forallb_app, !andb_true_iff.
    split; [|split].
    - apply (forallb_weaken isPreparation); [|exact Hprep].
      intros e He. now rewrite (Hq1 e He).
    - apply (forallb_weaken
               (fun e => match e with LogInfo _ => true | _ => false end));
        [|apply printViolationsToConsole_logs].
      intros e He. rewrite Hq1; [reflexivity|].
      destruct e; (discriminate || reflexivity).
    - apply (forallb_weaken isPublishing); [|apply publish_events].
      intros e He. now rewrite (Hq2 e He). }
  split; [|split; [|split; [|split; [|split]]]].
  - intros Hpub. rewrite Hpub in Hrun.
    exists (preparation w JSON_parse inputs context pulls binaryPath result
              ++ trace (printViolationsToConsole
                          (relativize w path_relative result))
              ++ trace (publish w context pulls
                          (relativize w path_relative result))
              ++ trace (setOutputs result)).
    split.
    + unfold main. rewrite Hrun. unfold try_catch, verdict, countsMessage.
      repeat rewrite <- app_assoc. reflexivity.
    + rewrite !app_assoc, forallb_app, <- !app_assoc.
      rewrite (Hquiet isSetFailed preparation_no_failure
                 publishing_no_failure).
      reflexivity.
  - intros [->|Hok]; [reflexivity|].
    apply publish_succeeds, Hok.
  - intros message Hpub.
    destruct (publish_throws w context pulls
                (relativize w path_relative result) message Hpub)
      as [cause Hcause].
    split; [now exists cause|].
    split.
    { intros Heq. apply (f_equal (hd 0%N)) in Heq.
      destruct Hcause as [->|[->| ->]]; vm_compute in Heq; discriminate. }
    rewrite Hpub in Hrun.
    exists (preparation w JSON_parse inputs context pulls binaryPath result
              ++ trace (printViolationsToConsole
                          (relativize w path_relative result))
              ++ trace (publish w context pulls
                          (relativize w path_relative result))).
    split.
    + unfold main. rewrite Hrun. unfold try_catch.
      cbn [core_setFailed emit bind trace outcome fst snd app].
      rewrite app_nil_r. repeat rewrite <- app_assoc. reflexivity.
    + split.
      * apply (Hquiet isSetFailed preparation_no_failure
                 publishing_no_failure).
      * apply (Hquiet isSetOutput preparation_no_output
                 publishing_no_output).
  - intros cause Hsome Hrefused.
    now rewrite (publish_check_run_refused w context pulls
                   (relativize w path_relative result) cause Hsome
                   Hrefused).
  - intros done pull rest cause -> Hcheck text Hdone Hpull.
    now rewrite (publish_comment_refused w context
                   (relativize w path_relative result) done pull rest
                   cause Hcheck Hdone Hpull).
  - destruct (publish_outcome_cases w context pulls
                (relativize w path_relative result)) as [H|[e H]];
      [now left|right; now exists e].
Qed.

(** C1, witness: a commit with two pull requests and a result with one
    warning and no error; every request is answered. *)
Lemma run_fails_on_any_violation_witness :
  let w := sample_world sample_pulls sample_stdout (fun _ => false) in
  let action := main w sample_JSON_parse (PosixPath.relative (str "/ws"))
                  sample_inputs sample_context in
  errorCount (summary sample_result) = 0%Z
  /\ exists before,
       action =
         (before
            ++ [SetFailed
                  (str "ModularGuard analysis found 1 violation(s): 0 error(s) and 1 warning(s)")],
          Returned tt)
       /\ forallb (fun e => negb (isSetFailed e)) before = true.
Proof.
  intros w action.
  destruct (run_fails_on_any_violation w sample_JSON_parse
              (PosixPath.relative (str "/ws")) sample_inputs sample_context
              sample_pulls sample_result eq_refl
              (sample_analysis sample_pulls (fun _ => false)))
    as [Hdecided [Hcompletes _]].
  split; [reflexivity|].
  exact (Hdecided
           (Hcompletes
              (or_intror (sample_publication sample_pulls sample_stdout)))).
Defined.

(** C1, counterexample.  The token may not create check runs.  With the
    sample result, which has one violation, the failure call with the
    counts is never made: the one failure call of the action carries the
    error of the check run.  With a result without violations the action
    does not succeed: it is failed with the same error. *)
Lemma refused_check_run_replaces_verdict :
  let relative := PosixPath.relative (str "/ws") in
  analysisResult (unchecked_world sample_pulls) sample_JSON_parse
    sample_inputs = Some sample_result
  /\ length (violations sample_result) = 1%nat
  /\ filter isSetFailed
       (trace (main (unchecked_world sample_pulls) sample_JSON_parse
                 relative sample_inputs sample_context))
     = [SetFailed (str "Failed to create check run: Resource not accessible by integration")]
  /\ analysisResult (unchecked_clean_world sample_pulls) clean_JSON_parse
       sample_inputs = Some clean_result
  /\ violations clean_result = []
  /\ filter isSetFailed
       (trace (main (unchecked_clean_world sample_pulls) clean_JSON_parse
                 relative sample_inputs sample_context))
     = [SetFailed (str "Failed to create check run: Resource not accessible by integration")]
  /\ filter isSetOutput
       (trace (main (unchecked_clean_world sample_pulls) clean_JSON_parse
                 relative sample_inputs sample_context))
     = [].
Proof. cbv zeta. repeat split; vm_compute; reflexivity. Qed.

(** ** A commit without pull request *)








(** The console report of the sample result, in full. *)
Example sample_console_report :
  consoleReport
    (relativize (sample_world [] sample_stdout (fun _ => false))
       (PosixPath.relative (str "/ws")) sample_result)
  = [LogInfo [];
     LogInfo RULE;
     LogInfo (BAR_CHART ++ str " MODULARGUARD ANALYSIS RESULTS");
     LogInfo RULE;
     LogInfo [];
     LogInfo (str "Total Modules:  2");
     LogInfo (str "Total Projects: 10");
     LogInfo (str "Errors:         0");
     LogInfo (str "Warnings:       1");
     LogInfo (str "Status:         " ++ CHECK_MARK ++ str " Valid");
     LogInfo [];
     LogInfo (str "Found 1 violation(s):");
     LogInfo [];
     LogInfo (str "1. " ++ WARNING_SIGN
                ++ str " Warning: ConfigurableRule[app]");
     LogInfo (str "   Project:    Module.App");
     LogInfo (str "   Reference:  Shared.Utilities");
     LogInfo (str "   Location:   src/Module.App/Module.App.csproj:8:5");
     LogInfo (str "   Message:    Consider using Shared.Core instead");
     LogInfo [];
     LogInfo RULE].
Proof. vm_compute. reflexivity. Qed.

(** ** Errors in the comment loop *)

(** C9 (as amended). In the comment loop, a failure of the lookup of the
    existing comment is caught: it is logged as a warning and read as no
    existing comment, so that the pull request gets a new comment, and
    when that comment is created the body returns and the loop goes on to
    the next pull request.  A refused create or update request is
    rethrown as [Failed to create comment: ...] or
    [Failed to update comment: ...]: the loop ends at that pull request
    with the refused request as its last event, nothing is requested for
    the pull requests after it, the run throws the error, and the top
    level fails the action with it. *)
Theorem comment_loop_isolation (w : World) (context : Context)
  (result : ModularGuardResult) :
  let body := publishComment w context result in
  let text := formatComment result (Some (runUrl w)) in
  let write := commentWrite w context text in
  let answer := commentWriteAnswer w context text in
  let refusal pull e :=
    str "Failed to " ++ writeVerb (write pull) ++ str " comment: " ++ e in
  (forall pull e,
      issues_listComments w (owner context) (repo context) (number pull)
      = inl e ->
      findExistingComment w (owner context) (repo context) (number pull) =
        ([ListComments (owner context) (repo context) (number pull);
          LogWarning (str "Failed to find existing comment: " ++ e)],
         Returned None)
      /\ write pull =
           CreateComment (owner context) (repo context) (number pull) text
      /\ (exists rest,
            trace (body pull) =
              [ListComments (owner context) (repo context) (number pull);
               LogWarning (str "Failed to find existing comment: " ++ e);
               CreateComment (owner context) (repo context) (number pull)
                 text] ++ rest)
      /\ (issues_createComment w (owner context) (repo context)
            (number pull) text = inr tt ->
          body pull =
            ([ListComments (owner context) (repo context) (number pull);
              LogWarning (str "Failed to find existing comment: " ++ e);
              CreateComment (owner context) (repo context) (number pull)
                text;
              LogInfo (str "Comment created on PR #"
                         ++ String_of (number pull))],
             Returned tt)))
  /\ (forall pull,
        answer pull = inr tt ->
        body pull =
          (lookupEvents w context pull
             ++ [write pull; commentDone w context pull],
           Returned tt))
  /\ (forall pull rest,
        outcome (body pull) = Returned tt ->
        for_of (pull :: rest) body =
          (trace (body pull) ++ trace (for_of rest body),
           outcome (for_of rest body)))
  /\ (forall pull e,
        answer pull = inl e ->
        body pull =
          (lookupEvents w context pull ++ [write pull],
           Thrown (refusal pull e))
        /\ (refusal pull e = str "Failed to create comment: " ++ e
            \/ refusal pull e = str "Failed to update comment: " ++ e))
  /\ (forall done pull rest e,
        (forall p, In p done -> answer p = inr tt) ->
        answer pull = inl e ->
        for_of (done ++ pull :: rest) body =
          (trace (for_of done body)
             ++ lookupEvents w context pull ++ [write pull],
           Thrown (refusal pull e)))
  /\ (forall JSON_parse path_relative inputs analysed done pull rest e,
        relativize w path_relative analysed = result ->
        repos_listPullRequestsAssociatedWithCommit w (owner context)
          (repo context) (sha context) = inr (done ++ pull :: rest) ->
        analysisResult w JSON_parse inputs = Some analysed ->
        checks_create w (owner context) (repo context)
          (checkRunPayload (sha context) result) = inr tt ->
        (forall p, In p done -> answer p = inr tt) ->
        answer pull = inl e ->
        exists before,
          run w JSON_parse path_relative inputs context =
            (before ++ trace (for_of done body)
               ++ lookupEvents w context pull ++ [write pull],
             Thrown (refusal pull e))
          /\ forallb (fun ev => negb (isCommentRequest ev)) before = true
          /\ main w JSON_parse path_relative inputs context =
               (before ++ trace (for_of done body)
                  ++ lookupEvents w context pull
                  ++ [write pull; SetFailed (refusal pull e);
                      ConsoleError (refusal pull e)],
                Returned tt)).
Proof.
  intros body text write answer refusal.
  assert (Hreturns : forall pull,
             answer pull = inr tt ->
             body pull =
               (lookupEvents w context pull
                  ++ [write pull; commentDone w context pull],
                Returned tt)).
  { intros pull Hanswer. subst body.
    rewrite publishComment_cases. fold text. fold (answer pull).
    now rewrite Hanswer. }
  assert (Hthrows : forall pull e,
             answer pull = inl e ->
             body pull =
               (lookupEvents w context pull ++ [write pull],
                Thrown (refusal pull e))).
  { intros pull e Hanswer. subst body.
    rewrite publishComment_cases. fold text. fold (answer pull).
    now rewrite Hanswer. }
  assert (Hloop : forall done pull rest e,
             (forall p, In p done -> answer p = inr tt) ->
             answer pull = inl e ->
             for_of (done ++ pull :: rest) body =
               (trace (for_of done body)
                  ++ lookupEvents w context pull ++ [write pull],
                Thrown (refusal pull e))).
  { intros done pull rest e Hdone Hpull.
    exact (comment_loop_refused w context result done pull rest e Hdone
             Hpull). }
  split; [|split; [|split; [|split; [|split]]]].
  - intros pull e Hlist.
    assert (Hwrite : write pull =
                       CreateComment (owner context) (repo context)
                         (number pull) text).
    { subst write. unfold commentWrite, ownComment. now rewrite Hlist. }
    assert (Hanswer : answer pull =
                        issues_createComment w (owner context)
                          (repo context) (number pull) text).
    { subst answer. unfold commentWriteAnswer, ownComment.
      now rewrite Hlist. }
    assert (Hlookup : lookupEvents w context pull =
                        [ListComments (owner context) (repo context)
                           (number pull);
                         LogWarning (str "Failed to find existing comment: "
                                       ++ e)]).
    { unfold lookupEvents. now rewrite Hlist. }
    assert (Hdone : commentDone w context pull =
                      LogInfo (str "Comment created on PR #"
                                 ++ String_of (number pull))).
    { unfold commentDone, ownComment. rewrite Hlist. reflexivity. }
    split; [apply findExistingComment_lookup_failure, Hlist|].
    split; [exact Hwrite|]. split.
    + destruct (answer pull) as [e'|[]] eqn:Ha.
      * rewrite (Hthrows pull e' Ha), Hlookup, Hwrite. cbn [trace fst].
        exists []. reflexivity.
      * rewrite (Hreturns pull Ha), Hlookup, Hwrite. cbn [trace fst].
        eexists. reflexivity.
    + intros Hcreated. rewrite Hcreated in Hanswer.
      rewrite (Hreturns pull Hanswer), Hlookup, Hwrite, Hdone.
      reflexivity.
  - exact Hreturns.
  - intros pull rest Hpull. cbn [for_of].
    rewrite (bind_returns (body pull) _ tt Hpull). reflexivity.
  - intros pull e Hanswer. split; [apply Hthrows, Hanswer|].
    subst refusal. cbv beta. unfold writeVerb.
    destruct (write pull); auto.
  - exact Hloop.
  - intros JSON_parse path_relative inputs analysed done pull rest e
      Hpublished Hpulls Hresult Hcheck Hdone Hpull.
    destruct (run_with_result w JSON_parse path_relative inputs context
                (done ++ pull :: rest) analysed Hpulls Hresult)
      as [binaryPath [_ Hrun]].
    rewrite Hpublished in Hrun.
    pose proof (publish_comment_refused w context result done pull rest e
                  Hcheck Hdone Hpull) as Hpublish.
    fold body text in Hpublish.
    fold (write pull) in Hpublish. fold (refusal pull e) in Hpublish.
    rewrite Hpublish in Hrun. cbn [trace outcome fst snd] in Hrun.
    exists (preparation w JSON_parse inputs context (done ++ pull :: rest)
              binaryPath analysed
              ++ trace (printViolationsToConsole result)
              ++ [LogInfo (str "Creating check run with annotations...");
                  ChecksCreate (owner context) (repo context)
                    (checkRunPayload (sha context) result);
                  LogInfo (str "Posting results to pull request(s)...")]).
    split; [|split].
    + rewrite Hrun. rewrite ?app_nil_r.
      repeat first [rewrite <- app_assoc | rewrite <- app_comm_cons].
      cbn [app]. reflexivity.
    + rewrite !forallb_app, !andb_true_iff. split; [|split].
      * apply (forallb_weaken isPreparation);
          [|apply preparation_events].
        intros [] H; try discriminate; reflexivity.
      * apply (forallb_weaken
                 (fun ev => match ev with LogInfo _ => true | _ => false end));
          [|apply printViolationsToConsole_logs].
        intros [] H; try discriminate; reflexivity.
      * reflexivity.
    + unfold main. rewrite Hrun. unfold try_catch.
      cbn [core_setFailed emit bind trace outcome fst snd].
      rewrite ?app_nil_r.
      repeat first [rewrite <- app_assoc | rewrite <- app_comm_cons].
      cbn [app]. reflexivity.
Qed.

(** C9, witness.  On a runner where the comments cannot be listed, the
    pull request 7 gets a warning and a new comment, and the body returns.
    On the sample runner with the comment on 7 refused, the run throws at
    the pull request 7, the first of two. *)
Lemma comment_loop_isolation_witness :
  let relative := PosixPath.relative (str "/ws") in
  let pull7 := {| number := 7;
                  html_url := str "https://github.com/octo-org/shop/pull/7" |} in
  (let w := unlisted_world sample_pulls in
   publishComment w sample_context sample_result pull7 =
     ([ListComments (str "octo-org") (str "shop") 7;
       LogWarning (str "Failed to find existing comment: Bad gateway");
       CreateComment (str "octo-org") (str "shop") 7
         (formatComment sample_result (Some (runUrl w)));
       LogInfo (str "Comment created on PR #7")],
      Returned tt))
  /\ (let w := sample_world sample_pulls sample_stdout
                 (fun n => (n =? 7)%Z) in
      outcome (run w sample_JSON_parse relative sample_inputs
                 sample_context)
      = Thrown (str "Failed to create comment: Resource not accessible by integration")).
Proof.
  intros relative pull7. split.
  - intros w.
    destruct (comment_loop_isolation w sample_context sample_result)
      as [Hlookup _].
    destruct (Hlookup pull7 (str "Bad gateway") eq_refl)
      as [_ [_ [_ Hcreated]]].
    exact (Hcreated eq_refl).
  - intros w.
    destruct (comment_loop_isolation w sample_context
                (relativize w relative sample_result))
      as [_ [_ [_ [_ [_ Hrun]]]]].
    destruct (Hrun sample_JSON_parse relative sample_inputs sample_result
                [] pull7
                [ {| number := 8;
                     html_url :=
                       str "https://github.com/octo-org/shop/pull/8" |} ]
                (str "Resource not accessible by integration")
                eq_refl eq_refl
                (sample_analysis sample_pulls (fun n => (n =? 7)%Z))
                eq_refl ltac:(intros p []) eq_refl)
      as [before [Hthrown _]].
    now rewrite Hthrown.
Defined.
